(** * Verification of [scripts/build_master_dbs.py]

    A shallow embedding of the master-database build: the row normalizer,
    the image map loader, the tag dictionary, the transactional loader over
    the two SQLite schemas, the finalization step and the release
    publisher, followed by the properties proved about them.

    Python values are modelled as follows.
    - [str] is a sequence of Unicode code points: [list N].
    - [dict] is a [gmap]; the unordered [set] of [parse_tags] is a [gset].
    - A table with an [INTEGER PRIMARY KEY] that the code addresses by key
      ([objects], [tag_stats]) is a [gmap] from the key; [tags] and
      [object_tags] are lists of rows in insertion order, so that a
      duplicate row is representable and its absence is a theorem.
    - Exceptions are the left summand of [Error + A]. *)

From Stdlib Require Import ZArith NArith Ascii String.
From stdpp Require Import base option list sorting gmap.

Local Open Scope Z_scope.

(** ** Python strings *)

Abbreviation pystr := (list N).

Module Py.

(** A string literal of the source, as code points. *)
Fixpoint lit (s : string) : pystr :=
  match s with
  | EmptyString => []
  | String a s' => N_of_ascii a :: lit s'
  end.

(** [str.isspace] on one code point: the table of CPython's
    [_PyUnicode_IsWhitespace]. *)
Definition isspace (c : N) : bool :=
  ((9 <=? c) && (c <=? 13) || (28 <=? c) && (c <=? 32)
   || (c =? 133) || (c =? 160) || (c =? 5760)
   || (8192 <=? c) && (c <=? 8202)
   || (c =? 8232) || (c =? 8233) || (c =? 8239) || (c =? 8287)
   || (c =? 12288))%N.

Fixpoint lstrip (s : pystr) : pystr :=
  match s with
  | [] => []
  | c :: s' => if isspace c then lstrip s' else s
  end.

Definition rstrip (s : pystr) : pystr := reverse (lstrip (reverse s)).

(** [s.strip()] *)
Definition strip (s : pystr) : pystr := rstrip (lstrip s).

(** [s.split(sep)] for a one-character separator: one more segment than
    there are separators, empty segments kept. *)
Fixpoint split (sep : N) (s : pystr) : list pystr :=
  match s with
  | [] => [[]]
  | c :: s' =>
      if (c =? sep)%N then [] :: split sep s'
      else match split sep s' with
           | seg :: rest => (c :: seg) :: rest
           | [] => [[c]]
           end
  end.

(** [sep.join(parts)] *)
Fixpoint join (sep : N) (parts : list pystr) : pystr :=
  match parts with
  | [] => []
  | [p] => p
  | p :: ps => p ++ sep :: join sep ps
  end.

(** Comparison of two strings: code point by code point, a proper prefix
    first. *)
Fixpoint compare (a b : pystr) : comparison :=
  match a, b with
  | [], [] => Eq
  | [], _ :: _ => Lt
  | _ :: _, [] => Gt
  | x :: a', y :: b' =>
      match (x ?= y)%N with
      | Eq => compare a' b'
      | c => c
      end
  end.

Definition le (a b : pystr) : Prop := compare a b ≠ Gt.
Definition lt (a b : pystr) : Prop := compare a b = Lt.

#[global] Instance le_dec a b : Decision (le a b).
Proof. unfold le. apply _. Defined.

(** [sorted(xs)] on strings. *)
Definition sorted (xs : list pystr) : list pystr := merge_sort le xs.

(** Truth value of a string: non-empty. *)
Definition truthy (s : pystr) : bool :=
  match s with [] => false | _ => true end.

End Py.

(** ** Exceptions *)

Inductive Error :=
  | FileNotFoundError
  | FileExistsError
  | TypeError
  | OverflowError
  | RuntimeError
  | IntegrityError
  | UnicodeDecodeError
  | OperationalError
  | ShutilError.

#[global] Instance Error_eq_dec : EqDecision Error.
Proof. solve_decision. Defined.

#[global] Instance exn_ret : MRet (sum Error) := λ A x, inr x.
#[global] Instance exn_bind : MBind (sum Error) := λ A B f m,
  match m with
  | inl e => inl e
  | inr x => f x
  end.

(** ** Input rows

    A row as [csv.DictReader] yields it: every header name is a key; a row
    shorter than the header has [None] under the missing names, and a row
    longer than the header carries the surplus fields under the key [None]
    ([restkey]). *)

Record Row := {
  fields : gmap pystr (option pystr);
  restkey : list pystr
}.

(** [row.get(name)] *)
Definition row_get (row : Row) (name : string) : option pystr :=
  fields row !! Py.lit name ≫= id.

(** The source CSV as the reader delivers it: the rows in file order and,
    when the file cannot be read to its end (undecodable bytes, a field
    over the size limit), the exception raised after them. *)
Record CsvFile := {
  csv_rows : list Row;
  csv_fault : option Error
}.

(** A row of the [image_cache] table, in the schema the fetcher creates:
    [object_id INTEGER PRIMARY KEY], two [TEXT NOT NULL] columns. *)
Record CacheRow := {
  cache_object_id : Z;
  cache_primary_image : pystr;
  cache_primary_image_small : pystr
}.

(** ** Timestamps *)

Record DateTime := {
  year : N; month : N; day : N;
  hour : N; minute : N; second : N; microsecond : N
}.

(** [n] as [w] decimal digits, zero padded. *)
Fixpoint digits (w : nat) (n : N) : pystr :=
  match w with
  | O => []
  | S w' => digits w' (n / 10)%N ++ [(48 + n mod 10)%N]
  end.

(** [now.strftime("%Y%m%dT%H%M%SZ")] *)
Definition strftime_build_id (now : DateTime) : pystr :=
  digits 4 (year now) ++ digits 2 (month now) ++ digits 2 (day now)
  ++ Py.lit "T"
  ++ digits 2 (hour now) ++ digits 2 (minute now) ++ digits 2 (second now)
  ++ Py.lit "Z".

(** [now.isoformat()] of a UTC-aware timestamp. *)
Definition isoformat (now : DateTime) : pystr :=
  digits 4 (year now) ++ Py.lit "-" ++ digits 2 (month now) ++ Py.lit "-"
  ++ digits 2 (day now) ++ Py.lit "T"
  ++ digits 2 (hour now) ++ Py.lit ":" ++ digits 2 (minute now) ++ Py.lit ":"
  ++ digits 2 (second now)
  ++ (if (microsecond now =? 0)%N then []
      else Py.lit "." ++ digits 6 (microsecond now))
  ++ Py.lit "+00:00".

(** ** Paths: a sequence of components; [str(path)] joins them. *)

Abbreviation Path := (list pystr).

Definition path_str (p : Path) : pystr := Py.join 47%N p.

(** ** Build counters *)

Record BuildStats := {
  rows_scanned : Z;
  rows_with_images : Z;
  rows_skipped_no_images : Z;
  rows_skipped_bad_object_id : Z;
  rows_public_domain : Z;
  rows_highlight : Z;
  rows_with_images_from_cache : Z;
  rows_with_images_from_csv_fallback : Z
}.

Definition BuildStats_init : BuildStats :=
  {| rows_scanned := 0; rows_with_images := 0; rows_skipped_no_images := 0;
     rows_skipped_bad_object_id := 0; rows_public_domain := 0;
     rows_highlight := 0; rows_with_images_from_cache := 0;
     rows_with_images_from_csv_fallback := 0 |}.

Definition BATCH_SIZE : Z := 5000.

(** ** The two schemas *)

Record CatalogObject := {
  c_title : pystr;
  c_artist_display_name : pystr;
  c_artist_display_bio : pystr;
  c_artist_nationality : pystr;
  c_artist_begin_date : pystr;
  c_artist_end_date : pystr;
  c_object_date : pystr;
  c_object_begin_date : option Z;
  c_object_end_date : option Z;
  c_department : pystr;
  c_classification : pystr;
  c_object_name : pystr;
  c_medium : pystr;
  c_culture : pystr;
  c_country : pystr;
  c_is_public_domain : Z;
  c_is_highlight : Z;
  c_link_resource : pystr;
  c_primary_image : pystr;
  c_primary_image_small : pystr;
  c_metadata_json : Row
}.

Record PullObject := {
  p_title : pystr;
  p_artist_display_name : pystr;
  p_object_begin_date : option Z;
  p_object_end_date : option Z;
  p_department : pystr;
  p_classification : pystr;
  p_medium : pystr;
  p_is_public_domain : Z;
  p_primary_image : pystr;
  p_primary_image_small : pystr
}.

(** One row of [tag_stats]. *)
Record TagStat := {
  object_count : Z;
  public_domain_count : Z
}.

(** A database over the tables both schemas share; [O] is the row type of
    [objects] and [X] the tables only one schema has ([tag_stats] in the
    pull schema, nothing in the catalog schema).  [tag_seq] is the
    [sqlite_sequence] entry that [AUTOINCREMENT] keeps for [tags]. *)
Record Db (O X : Type) := {
  build_info : list (pystr * pystr);
  objects : gmap Z O;
  tags : list (Z * pystr);
  tag_seq : Z;
  object_tags : list (Z * Z);
  extra : X;
  indexes : list string
}.
Arguments build_info {O X} _.
Arguments objects {O X} _.
Arguments tags {O X} _.
Arguments tag_seq {O X} _.
Arguments object_tags {O X} _.
Arguments extra {O X} _.
Arguments indexes {O X} _.

Abbreviation CatalogDb := (Db CatalogObject unit).
Abbreviation PullDb := (Db PullObject (gmap Z TagStat)).

(** The tables after [init_catalog_schema] / [init_pull_schema]. *)
Definition init_catalog_schema : CatalogDb :=
  {| build_info := []; objects := ∅; tags := []; tag_seq := 0;
     object_tags := []; extra := tt; indexes := [] |}.

Definition init_pull_schema : PullDb :=
  {| build_info := []; objects := ∅; tags := []; tag_seq := 0;
     object_tags := []; extra := ∅; indexes := [] |}.

(** ** SQLite statements of the build, as functions on the tables *)

Section Sql.
Context {O X : Type}.

Definition set_build_info (v : list (pystr * pystr)) (db : Db O X) : Db O X :=
  {| build_info := v; objects := objects db; tags := tags db;
     tag_seq := tag_seq db; object_tags := object_tags db;
     extra := extra db; indexes := indexes db |}.

Definition set_objects (v : gmap Z O) (db : Db O X) : Db O X :=
  {| build_info := build_info db; objects := v; tags := tags db;
     tag_seq := tag_seq db; object_tags := object_tags db;
     extra := extra db; indexes := indexes db |}.

Definition set_tags (v : list (Z * pystr)) (seq : Z) (db : Db O X) : Db O X :=
  {| build_info := build_info db; objects := objects db; tags := v;
     tag_seq := seq; object_tags := object_tags db;
     extra := extra db; indexes := indexes db |}.

Definition set_object_tags (v : list (Z * Z)) (db : Db O X) : Db O X :=
  {| build_info := build_info db; objects := objects db; tags := tags db;
     tag_seq := tag_seq db; object_tags := v;
     extra := extra db; indexes := indexes db |}.

Definition set_extra (v : X) (db : Db O X) : Db O X :=
  {| build_info := build_info db; objects := objects db; tags := tags db;
     tag_seq := tag_seq db; object_tags := object_tags db;
     extra := v; indexes := indexes db |}.

Definition add_indexes (v : list string) (db : Db O X) : Db O X :=
  {| build_info := build_info db; objects := objects db; tags := tags db;
     tag_seq := tag_seq db; object_tags := object_tags db;
     extra := extra db; indexes := indexes db ++ v |}.

(** [INSERT INTO build_info(key, value) VALUES (?, ?)], once per item.  The
    keys of the one dictionary the build passes are distinct, so the
    primary key never conflicts. *)
Definition sql_insert_build_info (items : list (pystr * pystr)) (db : Db O X) : Db O X :=
  set_build_info (build_info db ++ items) db.

(** [INSERT OR REPLACE INTO objects(...)]: a row with the same primary key is
    deleted first, and with [foreign_keys = ON] its deletion cascades to the
    [object_tags] rows that reference it. *)
Definition sql_insert_or_replace_object (object_id : Z) (o : O) (db : Db O X) : Db O X :=
  match objects db !! object_id with
  | Some _ =>
      set_objects (<[object_id := o]> (objects db))
        (set_object_tags (filter (λ ot, ot.1 ≠ object_id) (object_tags db)) db)
  | None => set_objects (<[object_id := o]> (objects db)) db
  end.

(** [SELECT id FROM tags WHERE value = ?], [fetchone()]. *)
Definition sql_select_tag_id (value : pystr) (db : Db O X) : option Z :=
  fst <$> head (filter (λ t, t.2 = value) (tags db)).

(** [INSERT OR IGNORE INTO tags(value) VALUES (?)]: ignored when the value is
    there ([UNIQUE]); otherwise the row takes the next [AUTOINCREMENT] id. *)
Definition sql_insert_or_ignore_tag (value : pystr) (db : Db O X) : Db O X :=
  match sql_select_tag_id value db with
  | Some _ => db
  | None => set_tags (tags db ++ [(tag_seq db + 1, value)]) (tag_seq db + 1) db
  end.

(** [INSERT OR IGNORE INTO object_tags(object_id, tag_id) VALUES (?, ?)]:
    ignored when the pair is there (primary key); a pair whose object or
    tag does not exist violates a foreign key, which [OR IGNORE] does not
    cover. *)
Definition sql_insert_or_ignore_object_tag (object_id tag_id : Z) (db : Db O X)
    : Error + Db O X :=
  if decide ((object_id, tag_id) ∈ object_tags db) then inr db
  else if decide (is_Some (objects db !! object_id) ∧ tag_id ∈ (tags db).*1)
  then inr (set_object_tags (object_tags db ++ [(object_id, tag_id)]) db)
  else inl IntegrityError.

(** [SELECT COUNT( * ) FROM objects] and [... FROM tags]. *)
Definition sql_count_objects (db : Db O X) : Z := Z.of_nat (size (objects db)).
Definition sql_count_tags (db : Db O X) : Z := Z.of_nat (length (tags db)).

End Sql.

(** An integer parameter bound to a statement must fit SQLite's 64-bit
    INTEGER; the [sqlite3] module raises [OverflowError] otherwise. *)
Definition sqlite_int_ok (z : Z) : bool :=
  (- 2 ^ 63 <=? z) && (z <? 2 ^ 63).

Definition sqlite_opt_int_ok (z : option Z) : bool :=
  match z with
  | None => true
  | Some z => sqlite_int_ok z
  end.

(** ** Connections

    [conn_db] is the database as the connection sees it, [conn_disk] the
    committed content of its file, [conn_stmts] the statements executed so
    far (newest last). *)

Inductive Stmt :=
  | StmtScript (name : string)
  | StmtInsertBuildInfo
  | StmtBegin
  | StmtCommit
  | StmtUpsertObject (object_id : Z)
  | StmtInsertTag (value : pystr)
  | StmtSelectTag (value : pystr)
  | StmtInsertObjectTag (object_id tag_id : Z)
  | StmtCount (table : string).

Record Conn (O X : Type) := {
  conn_db : Db O X;
  conn_disk : Db O X;
  conn_stmts : list Stmt
}.
Arguments conn_db {O X} _.
Arguments conn_disk {O X} _.
Arguments conn_stmts {O X} _.

Section Connection.
Context {O X : Type}.

(** [sqlite3.connect(path)] on a new file, followed by the schema script. *)
Definition connect (schema : Db O X) (script : string) : Conn O X :=
  {| conn_db := schema; conn_disk := schema;
     conn_stmts := [StmtScript script] |}.

(** [conn.execute(stmt)] for a statement that changes the tables by [f]. *)
Definition execute (stmt : Stmt) (f : Db O X → Db O X) (conn : Conn O X) : Conn O X :=
  {| conn_db := f (conn_db conn); conn_disk := conn_disk conn;
     conn_stmts := conn_stmts conn ++ [stmt] |}.

(** [conn.commit()] *)
Definition commit (conn : Conn O X) : Conn O X :=
  {| conn_db := conn_db conn; conn_disk := conn_db conn;
     conn_stmts := conn_stmts conn ++ [StmtCommit] |}.

(** [conn.execute("BEGIN")] *)
Definition begin (conn : Conn O X) : Conn O X := execute StmtBegin id conn.

(** [conn.executescript(script)]: commits what is pending, then runs the
    script in autocommit mode. *)
Definition executescript (script : string) (f : Db O X → Db O X) (conn : Conn O X)
    : Conn O X :=
  {| conn_db := f (conn_db conn); conn_disk := f (conn_db conn);
     conn_stmts := conn_stmts conn ++ [StmtScript script] |}.

(** [conn.close()]: what was not committed is rolled back; the file keeps
    [conn_disk]. *)
Definition close (conn : Conn O X) : Db O X := conn_disk conn.

(** [insert_build_info(conn, items)] *)
Definition insert_build_info (items : list (pystr * pystr)) (conn : Conn O X) : Conn O X :=
  execute StmtInsertBuildInfo (sql_insert_build_info items) conn.

(** [get_or_create_tag_id(conn, tag_cache, tag_value)]: the id, with the
    connection and the cache as the call leaves them. *)
Definition get_or_create_tag_id (conn : Conn O X) (tag_cache : gmap pystr Z)
    (tag_value : pystr) : Error + (Z * Conn O X * gmap pystr Z) :=
  match tag_cache !! tag_value with
  | Some tag_id => inr (tag_id, conn, tag_cache)
  | None =>
      let conn := execute (StmtInsertTag tag_value)
                    (sql_insert_or_ignore_tag tag_value) conn in
      let conn := execute (StmtSelectTag tag_value) id conn in
      match sql_select_tag_id tag_value (conn_db conn) with
      | None => inl RuntimeError
      | Some tag_id => inr (tag_id, conn, <[tag_value := tag_id]> tag_cache)
      end
  end.

(** [conn.execute("INSERT OR IGNORE INTO object_tags ...", (object_id, tag_id))] *)
Definition execute_insert_object_tag (object_id tag_id : Z) (conn : Conn O X)
    : Error + Conn O X :=
  db ← sql_insert_or_ignore_object_tag object_id tag_id (conn_db conn);
  mret (execute (StmtInsertObjectTag object_id tag_id) (λ _, db) conn).

End Connection.

(** ** Invariants of a database *)

Section Invariants.
Context {O X : Type}.
Implicit Types (db : Db O X) (conn : Conn O X) (cache : gmap pystr Z).

(** The rows of [tags] that carry a value. *)
Definition tag_rows (value : pystr) db : list (Z * pystr) :=
  filter (λ t, t.2 = value) (tags db).

(** The cache holds only ids of rows of [tags]; no value and no id occurs
    twice in [tags]; the ids are 1, 2, ... in insertion order. *)
Definition tag_dict_inv db cache : Prop :=
  (∀ v tag_id, cache !! v = Some tag_id → (tag_id, v) ∈ tags db)
  ∧ NoDup (tags db).*2
  ∧ (tags db).*1 = seqZ 1 (Z.of_nat (length (tags db)))
  ∧ tag_seq db = Z.of_nat (length (tags db)).

(** Everything but [tags] and its sequence is the same. *)
Definition same_but_tags db db' : Prop :=
  build_info db' = build_info db ∧ objects db' = objects db
  ∧ object_tags db' = object_tags db ∧ extra db' = extra db
  ∧ indexes db' = indexes db.

(** A database without its [build_info] rows. *)
Definition erase_build_info (db : Db O X) : Db O X := set_build_info [] db.

(** A connection to it. *)
Definition erase_conn (conn : Conn O X) : Conn O X :=
  {| conn_db := erase_build_info (conn_db conn);
     conn_disk := erase_build_info (conn_disk conn);
     conn_stmts := conn_stmts conn |}.

(** Every association references an existing object and an existing tag. *)
Definition fk_inv db : Prop :=
  ∀ object_id tag_id, (object_id, tag_id) ∈ object_tags db →
    is_Some (objects db !! object_id) ∧ tag_id ∈ (tags db).*1.

End Invariants.

(** ** Files, manifest and the output root *)

Record OutputInfo := {
  out_path : pystr;
  out_sha256 : pystr;
  out_bytes : Z;
  out_objects : Z;
  out_tags : Z
}.

Record Manifest := {
  m_build_id : pystr;
  m_generated_at_utc : pystr;
  m_inputs_csv : pystr;
  m_inputs_image_cache_db : pystr;
  m_catalog_master_db : OutputInfo;
  m_pull_master_db : OutputInfo;
  m_stats : BuildStats
}.

Inductive File :=
  | CatalogFile (db : CatalogDb)
  | PullFile (db : PullDb)
  | TextFile (content : pystr)
  | JsonFile (manifest : Manifest).

Abbreviation Dir := (gmap string File).

Inductive Event :=
  | EvMkdirRelease (build_id : pystr)
  | EvClose (file : string)
  | EvRmtreeRelease (build_id : pystr)
  | EvWriteChecksums (build_id : pystr)
  | EvWriteManifest (build_id : pystr)
  | EvRmtreeCurrent
  | EvCopytree (release : pystr)
  | EvWriteMarker (build_id : pystr).

(** What lies under [output_root]: [releases/<build_id>/], [current/] and
    the marker file [CURRENT_BUILD]; [trace] lists the effects on it in the
    order they happened. *)
Record World := {
  releases : gmap pystr Dir;
  current : option Dir;
  current_build : option pystr;
  trace : list Event
}.

Definition log (ev : list Event) (w : World) : World :=
  {| releases := releases w; current := current w;
     current_build := current_build w; trace := trace w ++ ev |}.

Definition set_release (build_id : pystr) (d : option Dir) (w : World) : World :=
  {| releases := match d with
                 | Some d => <[build_id := d]> (releases w)
                 | None => delete build_id (releases w)
                 end;
     current := current w; current_build := current_build w;
     trace := trace w |}.

Definition set_current (d : option Dir) (w : World) : World :=
  {| releases := releases w; current := d;
     current_build := current_build w; trace := trace w |}.

Definition set_current_build (content : pystr) (w : World) : World :=
  {| releases := releases w; current := current w;
     current_build := Some content; trace := trace w |}.

(** What the build reads from outside: the clock, the two input files
    ([None]: the path does not exist), and the failures the environment
    may inflict: an error of the storage layer while the finalization
    scripts run, and the entries of the release that [copytree] fails to
    copy. *)
Record Env := {
  clock : DateTime;
  csv_file : option CsvFile;
  cache_db : option (list CacheRow);
  finalize_fault : option Error;
  copy_faults : list string
}.

(** ** Release publisher *)

(** [shutil.copytree(src, dst)]: creates [dst], copies entry by entry, and
    raises at the end if some entry could not be copied; what was copied
    stays. *)
Definition copytree (faults : list string) (src : Dir) : Dir * bool :=
  (filter (λ kv, kv.1 ∉ faults) src,
   bool_decide (Forall (λ name, src !! name = None) faults)).

Definition publish_current_release (faults : list string)
    (release_dir build_id : pystr) (w : World) : World * (Error + unit) :=
  let w := match current w with
           | Some _ => log [EvRmtreeCurrent] (set_current None w)
           | None => w
           end in
  match releases w !! release_dir with
  | None => (w, inl FileNotFoundError)
  | Some src =>
      let '(copied, complete) := copytree faults src in
      let w := log [EvCopytree release_dir] (set_current (Some copied) w) in
      if complete
      then (log [EvWriteMarker build_id]
              (set_current_build (build_id ++ [10%N]) w),
            inr ())
      else (w, inl ShutilError)
  end.

(** ** Stand-ins for the interpreter's functions on ASCII input, to run
    the build on concrete rows. *)

Definition ascii_lower (s : pystr) : pystr :=
  (λ c, if (65 <=? c)%N && (c <=? 90)%N then (c + 32)%N else c) <$> s.

Fixpoint ascii_digits (acc : Z) (s : pystr) : option Z :=
  match s with
  | [] => Some acc
  | c :: s' =>
      if (48 <=? c)%N && (c <=? 57)%N
      then ascii_digits (10 * acc + Z.of_N (c - 48)) s'
      else None
  end.

Definition ascii_int (s : pystr) : option Z :=
  match s with
  | [] => None
  | 45%N :: d :: s' => Z.opp <$> ascii_digits 0 (d :: s')
  | _ => ascii_digits 0 s
  end.

(** A stand-in for the digest that tells files with different [build_info]
    rows apart, as a digest of the bytes does: it returns those rows'
    values. *)
Definition sample_digest (f : File) : pystr :=
  match f with
  | CatalogFile db => concat (snd <$> build_info db)
  | PullFile db => concat (snd <$> build_info db)
  | TextFile content => content
  | JsonFile manifest => m_build_id manifest
  end.

Definition sample_size (f : File) : Z := 0.

(** Sample inputs. *)
Definition sample_row (object_id tags image : string) (surplus : list pystr) : Row :=
  {| fields := list_to_map
       [(Py.lit "Object ID", Some (Py.lit object_id));
        (Py.lit "Title", Some (Py.lit "Untitled"));
        (Py.lit "Is Public Domain", Some (Py.lit " True "));
        (Py.lit "Tags", Some (Py.lit tags));
        (Py.lit "Primary Image", Some (Py.lit image))];
     restkey := surplus |}.

Definition sample_rows : list Row :=
  [sample_row "1" "Portrait | portrait |Nude" "" [];
   sample_row "2" "Nude|" "" [];
   sample_row "x" "" "http://a" [];
   sample_row "3" "Men|Nude" "http://b" []].

Definition sample_cache : list CacheRow :=
  [{| cache_object_id := 1; cache_primary_image := Py.lit "http://c";
      cache_primary_image_small := [] |}].

Definition sample_clock (s : N) : DateTime :=
  {| year := 2026; month := 1; day := 2; hour := 3; minute := 4;
     second := s; microsecond := 0 |}.

Definition sample_env (s : N) (rows : list Row) (cache : list CacheRow)
    (faults : list string) : Env :=
  {| clock := sample_clock s;
     csv_file := Some {| csv_rows := rows; csv_fault := None |};
     cache_db := Some cache;
     finalize_fault := None;
     copy_faults := faults |}.

Definition empty_world : World :=
  {| releases := ∅; current := None; current_build := None; trace := [] |}.

Definition sample_csv_path : Path := [Py.lit "filtered_objects.csv"].
Definition sample_cache_path : Path := [Py.lit "image_cache.db"].
Definition sample_root : Path := [Py.lit "master"].

(** A release of two files, and a world in which an older release is
    current. *)
Definition sample_release : Dir :=
  <["pull_master.db"%string := PullFile init_pull_schema]>
    {["catalog_master.db"%string := CatalogFile init_catalog_schema]}.

Definition sample_world : World :=
  {| releases := {[Py.lit "B" := sample_release]};
     current := Some (<["pull_master.db"%string := TextFile (Py.lit "old")]>
                        {["catalog_master.db"%string := TextFile (Py.lit "old")]});
     current_build := Some (Py.lit "A");
     trace := [] |}.

(** The removal of [current], when there is one. *)
Definition rmtree_events (current : option Dir) : list Event :=
  match current with
  | Some _ => [EvRmtreeCurrent]
  | None => []
  end.

(** The claim that a failed publish leaves no partial copy: [current] is
    then absent, or as it was, or the whole release. *)
Definition no_partial_copy_on_failure : Prop :=
  ∀ faults release_dir build_id w w' e,
    publish_current_release faults release_dir build_id w = (w', inl e) →
    current w' = None ∨ current w' = current w
    ∨ current w' = releases w !! release_dir.

(** A row that is written, followed by a row with a surplus field, on
    which [json.dumps] raises. *)
Definition failing_rows : list Row :=
  [sample_row "1" "Nude" "" [];
   sample_row "3" "Men" "http://b" [Py.lit "surplus"]].

(** A cache row whose primary URL is one space. *)
Definition blank_cache : list CacheRow :=
  [{| cache_object_id := 1; cache_primary_image := Py.lit " ";
      cache_primary_image_small := [] |}].

(** What a completed build leaves, for the scenarios: the counters, the
    keys of [objects], the [tags] and [object_tags] rows of both databases,
    the [tag_stats] rows, and whether [current] has the files of the release
    and the marker is the build id. *)
Record Summary := {
  sum_stats : BuildStats;
  sum_catalog_ids : list Z;
  sum_pull_ids : list Z;
  sum_catalog_tags : list (Z * pystr);
  sum_pull_tags : list (Z * pystr);
  sum_catalog_object_tags : list (Z * Z);
  sum_pull_object_tags : list (Z * Z);
  sum_tag_stats : list (Z * TagStat);
  sum_current_has_release_files : bool;
  sum_marker_is_build_id : bool
}.

Definition release_summary (r : World * (Error + Manifest)) : option Summary :=
  match r with
  | (w, inr manifest) =>
      dir ← releases w !! m_build_id manifest;
      catalog_file ← dir !! "catalog_master.db"%string;
      pull_file ← dir !! "pull_master.db"%string;
      match catalog_file, pull_file with
      | CatalogFile c, PullFile p =>
          Some {| sum_stats := m_stats manifest;
                  sum_catalog_ids := (map_to_list (objects c)).*1;
                  sum_pull_ids := (map_to_list (objects p)).*1;
                  sum_catalog_tags := tags c;
                  sum_pull_tags := tags p;
                  sum_catalog_object_tags := object_tags c;
                  sum_pull_object_tags := object_tags p;
                  sum_tag_stats := map_to_list (extra p);
                  sum_current_has_release_files :=
                    bool_decide (dom <$> current w = Some (dom dir));
                  sum_marker_is_build_id :=
                    bool_decide (current_build w
                                 = Some (m_build_id manifest ++ [10%N])) |}
      | _, _ => None
      end
  | (_, inl _) => None
  end.

(** ** Queries on the released tables *)

Section Queries.
Context {O X : Type}.

(** [SELECT t.value FROM object_tags ot JOIN tags t ON t.id = ot.tag_id
    WHERE ot.object_id = ?], in the order of [object_tags]. *)
Definition object_tag_values (db : Db O X) (object_id : Z) : list pystr :=
  omap (λ ot, snd <$> head (filter (λ t, t.1 = ot.2) (tags db)))
       (filter (λ ot, ot.1 = object_id) (object_tags db)).

End Queries.

(** The columns of a catalog row that the pull schema has too. *)
Definition pull_projection (c : CatalogObject) : PullObject :=
  {| p_title := c_title c;
     p_artist_display_name := c_artist_display_name c;
     p_object_begin_date := c_object_begin_date c;
     p_object_end_date := c_object_end_date c;
     p_department := c_department c;
     p_classification := c_classification c;
     p_medium := c_medium c;
     p_is_public_domain := c_is_public_domain c;
     p_primary_image := c_primary_image c;
     p_primary_image_small := c_primary_image_small c |}.

(** A string without whitespace at its ends. *)
Definition trimmed (s : pystr) : Prop := Py.strip s = s.

(** A timestamp the clock can return: four-digit year, and the other
    fields in their ranges. *)
Definition valid_datetime (now : DateTime) : Prop :=
  (1000 ≤ year now ≤ 9999 ∧ 1 ≤ month now ≤ 12 ∧ 1 ≤ day now ≤ 31
   ∧ hour now ≤ 23 ∧ minute now ≤ 59 ∧ second now ≤ 59
   ∧ microsecond now ≤ 999999)%N.

(** Two timestamps in the same second. *)
Definition same_second (now1 now2 : DateTime) : Prop :=
  year now1 = year now2 ∧ month now1 = month now2 ∧ day now1 = day now2
  ∧ hour now1 = hour now2 ∧ minute now1 = minute now2 ∧ second now1 = second now2.

(** ** The digest of a file

    [sha256_file] reads the file in chunks of 1 MiB and feeds them to a
    [hashlib] digest.  The digest object is kept abstract: its initial
    state, [update] and [hexdigest]. *)

Module Digest.
Section Digest.
Context {H : Type}.
Context (sha256 : H) (update : H → list Byte.byte → H) (hexdigest : H → pystr).

(** [handle.read(size)] on a file opened in binary mode: the next [size]
    bytes, fewer at the end of the file, and what is left to read. *)
Fixpoint read (size : N) (content : list Byte.byte)
    : list Byte.byte * list Byte.byte :=
  match content with
  | [] => ([], [])
  | b :: rest =>
      if (size =? 0)%N then ([], content)
      else let '(chunk, rest') := read (N.pred size) rest in (b :: chunk, rest')
  end.

(** [iter(lambda: handle.read(size), b"")]: the chunks read until the
    first empty one.  [fuel] bounds the number of reads. *)
Fixpoint read_chunks (fuel : nat) (size : N) (content : list Byte.byte)
    : list (list Byte.byte) :=
  match fuel with
  | O => []
  | S fuel =>
      match read size content with
      | ([], _) => []
      | (chunk, rest) => chunk :: read_chunks fuel size rest
      end
  end.

(** A file of [n] bytes is read in at most [n] non-empty chunks, followed
    by the empty one. *)
Definition sha256_file (content : list Byte.byte) : pystr :=
  hexdigest (foldl update sha256
               (read_chunks (S (length content)) (1024 * 1024) content)).

End Digest.
End Digest.

(** More sample inputs: two rows with the same id; an image cache with a
    padded URL and with a row for an object without images. *)
Definition duplicate_id_rows : list Row :=
  [sample_row "1" "Nude|Men" "" []; sample_row "1" "Men" "" []].

Definition two_row_cache : list CacheRow :=
  [{| cache_object_id := 1; cache_primary_image := Py.lit " http://c ";
      cache_primary_image_small := [] |};
   {| cache_object_id := 2; cache_primary_image := [];
      cache_primary_image_small := [] |}].

(** The environments of the sample builds, all started in second 5: the
    sample rows; the two rows with the same id; the rows of which the
    second cannot be written; the sample rows with a publish step that
    cannot copy pull_master.db; and the two rows with the same id at a
    later microsecond. *)
Definition sample_build_env : Env := sample_env 5 sample_rows sample_cache [].

Definition duplicate_id_env : Env := sample_env 5 duplicate_id_rows sample_cache [].



Definition same_second_env : Env :=
  {| clock := {| year := 2026; month := 1; day := 2; hour := 3; minute := 4;
                 second := 5; microsecond := 999999 |};
     csv_file := Some {| csv_rows := duplicate_id_rows; csv_fault := None |};
     cache_db := Some sample_cache;
     finalize_fault := None;
     copy_faults := [] |}.

(** ** The build

    Four things the script takes from outside the repository are kept
    abstract: [int(value)] on a stripped string ([None] when it raises
    [ValueError]), [str.lower], the SHA-256 digest of a file's bytes as
    [sha256_file] returns it in hexadecimal, and the file size. *)

Section Build.

Context (py_int : pystr → option Z).
Context (py_lower : pystr → pystr).
Context (sha256_file : File → pystr).
Context (st_size : File → Z).

(** *** Row normalizer *)

Definition parse_bool_int (raw : option pystr) : Z :=
  match raw with
  | None => 0
  | Some raw =>
      let value := py_lower (Py.strip raw) in
      if bool_decide (value ∈ Py.lit <$> ["1"; "true"; "t"; "yes"; "y"]%string)
      then 1 else 0
  end.

Definition parse_int_or_none (raw : option pystr) : option Z :=
  match raw with
  | None => None
  | Some raw =>
      let value := Py.strip raw in
      if Py.truthy value then py_int value else None
  end.

Definition text (raw : option pystr) : pystr :=
  Py.strip (default [] raw).

Definition parse_tags (raw : option pystr) : list pystr :=
  match raw with
  | None => []
  | Some raw =>
      let cleaned := Py.strip <$> Py.split 124%N raw in
      Py.sorted (elements (list_to_set (C := gset pystr)
                             (filter (λ tag, Py.truthy tag = true) cleaned)))
  end.

(** *** Image map loader *)

Definition load_image_map (cache_db : option (list CacheRow))
    : Error + gmap Z (pystr * pystr) :=
  match cache_db with
  | None => inl FileNotFoundError
  | Some image_cache =>
      let rows := filter (λ r, cache_primary_image r ≠ []
                               ∨ cache_primary_image_small r ≠ []) image_cache in
      inr (foldl (λ image_map r,
                    <[cache_object_id r :=
                        (text (Some (cache_primary_image r)),
                         text (Some (cache_primary_image_small r)))]> image_map)
             ∅ rows)
  end.

(** *** Schema scripts *)

Definition catalog_indexes : list string :=
  ["idx_catalog_objects_public_domain"; "idx_catalog_objects_end_date";
   "idx_catalog_objects_department"; "idx_catalog_objects_classification";
   "idx_catalog_object_tags_tag_id"]%string.

Definition pull_indexes : list string :=
  ["idx_pull_objects_public_domain_end_date"; "idx_pull_objects_department";
   "idx_pull_objects_classification"; "idx_pull_object_tags_tag_id"]%string.

Definition finalize_catalog_schema (conn : Conn CatalogObject unit)
    : Conn CatalogObject unit :=
  executescript "finalize_catalog_schema" (add_indexes catalog_indexes) conn.

(** The rows of [object_tags ot JOIN objects o ON o.object_id = ot.object_id],
    as pairs of [ot.tag_id] and [o.is_public_domain]. *)
Definition join_object_tags (db : PullDb) : list (Z * Z) :=
  omap (λ ot, o ← objects db !! ot.1; Some (ot.2, p_is_public_domain o))
       (object_tags db).

(** [GROUP BY ot.tag_id] with [COUNT( * )] and [SUM(o.is_public_domain)]:
    one group per tag id of the join.  Each group is inserted as a row of
    [tag_stats], which is empty before. *)
Definition group_by_tag_id (joined : list (Z * Z)) : gmap Z TagStat :=
  foldl (λ groups row,
           let g := default {| object_count := 0; public_domain_count := 0 |}
                            (groups !! row.1) in
           <[row.1 := {| object_count := object_count g + 1;
                         public_domain_count := public_domain_count g + row.2 |}]>
             groups)
        ∅ joined.

Definition finalize_pull_schema (conn : Conn PullObject (gmap Z TagStat))
    : Conn PullObject (gmap Z TagStat) :=
  executescript "finalize_pull_schema"
    (λ db, add_indexes pull_indexes
             (set_extra (group_by_tag_id (join_object_tags db)) db))
    conn.

(** *** Transactional loader *)

Definition incr_rows_scanned (s : BuildStats) : BuildStats :=
  Build_BuildStats (rows_scanned s + 1) (rows_with_images s)
    (rows_skipped_no_images s) (rows_skipped_bad_object_id s)
    (rows_public_domain s) (rows_highlight s)
    (rows_with_images_from_cache s) (rows_with_images_from_csv_fallback s).

Definition incr_rows_with_images (s : BuildStats) : BuildStats :=
  Build_BuildStats (rows_scanned s) (rows_with_images s + 1)
    (rows_skipped_no_images s) (rows_skipped_bad_object_id s)
    (rows_public_domain s) (rows_highlight s)
    (rows_with_images_from_cache s) (rows_with_images_from_csv_fallback s).

Definition incr_rows_skipped_no_images (s : BuildStats) : BuildStats :=
  Build_BuildStats (rows_scanned s) (rows_with_images s)
    (rows_skipped_no_images s + 1) (rows_skipped_bad_object_id s)
    (rows_public_domain s) (rows_highlight s)
    (rows_with_images_from_cache s) (rows_with_images_from_csv_fallback s).

Definition incr_rows_skipped_bad_object_id (s : BuildStats) : BuildStats :=
  Build_BuildStats (rows_scanned s) (rows_with_images s)
    (rows_skipped_no_images s) (rows_skipped_bad_object_id s + 1)
    (rows_public_domain s) (rows_highlight s)
    (rows_with_images_from_cache s) (rows_with_images_from_csv_fallback s).

Definition incr_rows_public_domain (s : BuildStats) : BuildStats :=
  Build_BuildStats (rows_scanned s) (rows_with_images s)
    (rows_skipped_no_images s) (rows_skipped_bad_object_id s)
    (rows_public_domain s + 1) (rows_highlight s)
    (rows_with_images_from_cache s) (rows_with_images_from_csv_fallback s).

Definition incr_rows_highlight (s : BuildStats) : BuildStats :=
  Build_BuildStats (rows_scanned s) (rows_with_images s)
    (rows_skipped_no_images s) (rows_skipped_bad_object_id s)
    (rows_public_domain s) (rows_highlight s + 1)
    (rows_with_images_from_cache s) (rows_with_images_from_csv_fallback s).

Definition incr_rows_with_images_from_cache (s : BuildStats) : BuildStats :=
  Build_BuildStats (rows_scanned s) (rows_with_images s)
    (rows_skipped_no_images s) (rows_skipped_bad_object_id s)
    (rows_public_domain s) (rows_highlight s)
    (rows_with_images_from_cache s + 1) (rows_with_images_from_csv_fallback s).

Definition incr_rows_with_images_from_csv_fallback (s : BuildStats) : BuildStats :=
  Build_BuildStats (rows_scanned s) (rows_with_images s)
    (rows_skipped_no_images s) (rows_skipped_bad_object_id s)
    (rows_public_domain s) (rows_highlight s)
    (rows_with_images_from_cache s) (rows_with_images_from_csv_fallback s + 1).

(** The local state of the pass. *)
Record Loader := {
  catalog_conn : Conn CatalogObject unit;
  pull_conn : Conn PullObject (gmap Z TagStat);
  catalog_tag_cache : gmap pystr Z;
  pull_tag_cache : gmap pystr Z;
  stats : BuildStats
}.

Definition set_stats (s : BuildStats) (ld : Loader) : Loader :=
  {| catalog_conn := catalog_conn ld; pull_conn := pull_conn ld;
     catalog_tag_cache := catalog_tag_cache ld;
     pull_tag_cache := pull_tag_cache ld; stats := s |}.

(** [json.dumps(row, ensure_ascii=True, sort_keys=True)]: the document is
    the row; sorting the keys compares the key [None] of a surplus-field row
    with the header names, which raises [TypeError]. *)
Definition json_dumps (row : Row) : Error + Row :=
  if negb (bool_decide (restkey row = [])) && negb (bool_decide (fields row = ∅))
  then inl TypeError else inr row.

(** [conn.execute("INSERT OR REPLACE INTO objects ...", params)]: the three
    integer parameters that come from the row must fit 64 bits. *)
Definition execute_upsert_object {O X} (object_id : Z)
    (object_begin_date object_end_date : option Z) (o : O) (conn : Conn O X)
    : Error + Conn O X :=
  if sqlite_int_ok object_id && sqlite_opt_int_ok object_begin_date
     && sqlite_opt_int_ok object_end_date
  then inr (execute (StmtUpsertObject object_id)
              (sql_insert_or_replace_object object_id o) conn)
  else inl OverflowError.

Definition catalog_object (row metadata_json : Row)
    (is_public_domain is_highlight : Z)
    (primary_image primary_image_small : pystr) : CatalogObject :=
  {| c_title := text (row_get row "Title");
     c_artist_display_name := text (row_get row "Artist Display Name");
     c_artist_display_bio := text (row_get row "Artist Display Bio");
     c_artist_nationality := text (row_get row "Artist Nationality");
     c_artist_begin_date := text (row_get row "Artist Begin Date");
     c_artist_end_date := text (row_get row "Artist End Date");
     c_object_date := text (row_get row "Object Date");
     c_object_begin_date := parse_int_or_none (row_get row "Object Begin Date");
     c_object_end_date := parse_int_or_none (row_get row "Object End Date");
     c_department := text (row_get row "Department");
     c_classification := text (row_get row "Classification");
     c_object_name := text (row_get row "Object Name");
     c_medium := text (row_get row "Medium");
     c_culture := text (row_get row "Culture");
     c_country := text (row_get row "Country");
     c_is_public_domain := is_public_domain;
     c_is_highlight := is_highlight;
     c_link_resource := text (row_get row "Link Resource");
     c_primary_image := primary_image;
     c_primary_image_small := primary_image_small;
     c_metadata_json := metadata_json |}.

Definition pull_object (row : Row) (is_public_domain : Z)
    (primary_image primary_image_small : pystr) : PullObject :=
  {| p_title := text (row_get row "Title");
     p_artist_display_name := text (row_get row "Artist Display Name");
     p_object_begin_date := parse_int_or_none (row_get row "Object Begin Date");
     p_object_end_date := parse_int_or_none (row_get row "Object End Date");
     p_department := text (row_get row "Department");
     p_classification := text (row_get row "Classification");
     p_medium := text (row_get row "Medium");
     p_is_public_domain := is_public_domain;
     p_primary_image := primary_image;
     p_primary_image_small := primary_image_small |}.

(** The loop over [parse_tags(row.get("Tags"))]. *)
Fixpoint insert_tags (object_id : Z) (row_tags : list pystr) (ld : Loader)
    : Error + Loader :=
  match row_tags with
  | [] => inr ld
  | tag :: row_tags =>
      '(catalog_tag_id, catalog_conn, catalog_tag_cache) ←
        get_or_create_tag_id (catalog_conn ld) (catalog_tag_cache ld) tag;
      '(pull_tag_id, pull_conn, pull_tag_cache) ←
        get_or_create_tag_id (pull_conn ld) (pull_tag_cache ld) tag;
      catalog_conn ← execute_insert_object_tag object_id catalog_tag_id catalog_conn;
      pull_conn ← execute_insert_object_tag object_id pull_tag_id pull_conn;
      insert_tags object_id row_tags
        {| catalog_conn := catalog_conn; pull_conn := pull_conn;
           catalog_tag_cache := catalog_tag_cache;
           pull_tag_cache := pull_tag_cache; stats := stats ld |}
  end.

(** Image resolution of step 3: the pair and the counters after it. *)
Definition resolve_images (image_map : gmap Z (pystr * pystr)) (row : Row)
    (object_id : Z) (s : BuildStats) : pystr * pystr * BuildStats :=
  match image_map !! object_id with
  | Some (primary_image, primary_image_small) =>
      (primary_image, primary_image_small, incr_rows_with_images_from_cache s)
  | None =>
      let primary_image := text (row_get row "Primary Image") in
      let primary_image_small := text (row_get row "Primary Image Small") in
      (primary_image, primary_image_small,
       if Py.truthy primary_image || Py.truthy primary_image_small
       then incr_rows_with_images_from_csv_fallback s else s)
  end.

(** The commit that closes a batch. *)
Definition commit_batch (ld : Loader) : Loader :=
  if bool_decide (rows_with_images (stats ld) `mod` BATCH_SIZE = 0)
  then {| catalog_conn := begin (commit (catalog_conn ld));
          pull_conn := begin (commit (pull_conn ld));
          catalog_tag_cache := catalog_tag_cache ld;
          pull_tag_cache := pull_tag_cache ld; stats := stats ld |}
  else ld.

(** The body of [for row in reader]. *)
Definition process_row (image_map : gmap Z (pystr * pystr)) (row : Row)
    (ld : Loader) : Error + Loader :=
  let s := incr_rows_scanned (stats ld) in
  match parse_int_or_none (row_get row "Object ID") with
  | None => inr (set_stats (incr_rows_skipped_bad_object_id s) ld)
  | Some object_id =>
      let '(primary_image, primary_image_small, s) :=
        resolve_images image_map row object_id s in
      if negb (Py.truthy primary_image) && negb (Py.truthy primary_image_small)
      then inr (set_stats (incr_rows_skipped_no_images s) ld)
      else
        let is_public_domain := parse_bool_int (row_get row "Is Public Domain") in
        let is_highlight := parse_bool_int (row_get row "Is Highlight") in
        let s := if bool_decide (is_public_domain ≠ 0)
                 then incr_rows_public_domain s else s in
        let s := if bool_decide (is_highlight ≠ 0)
                 then incr_rows_highlight s else s in
        metadata_json ← json_dumps row;
        catalog_conn ←
          execute_upsert_object object_id
            (parse_int_or_none (row_get row "Object Begin Date"))
            (parse_int_or_none (row_get row "Object End Date"))
            (catalog_object row metadata_json is_public_domain is_highlight
               primary_image primary_image_small)
            (catalog_conn ld);
        pull_conn ←
          execute_upsert_object object_id
            (parse_int_or_none (row_get row "Object Begin Date"))
            (parse_int_or_none (row_get row "Object End Date"))
            (pull_object row is_public_domain primary_image primary_image_small)
            (pull_conn ld);
        ld ← insert_tags object_id (parse_tags (row_get row "Tags"))
               {| catalog_conn := catalog_conn; pull_conn := pull_conn;
                  catalog_tag_cache := catalog_tag_cache ld;
                  pull_tag_cache := pull_tag_cache ld; stats := s |};
        mret (commit_batch (set_stats (incr_rows_with_images (stats ld)) ld))
  end.

(** The loop over the reader.  When a row raises, the loop stops; the
    loader is returned as it was before that row, which is what the files
    can still hold once the open transaction is rolled back. *)
Fixpoint load_rows (image_map : gmap Z (pystr * pystr)) (rows : list Row)
    (ld : Loader) : Loader * option Error :=
  match rows with
  | [] => (ld, None)
  | row :: rows =>
      match process_row image_map row ld with
      | inl e => (ld, Some e)
      | inr ld => load_rows image_map rows ld
      end
  end.

(** *** The build operation *)

Record Counts := {
  catalog_object_count : Z;
  catalog_tag_count : Z;
  pull_object_count : Z;
  pull_tag_count : Z
}.

Definition build_info_items (build_id : pystr) (now : DateTime)
    (csv_path cache_db_path : Path) : list (pystr * pystr) :=
  [(Py.lit "build_id", build_id);
   (Py.lit "generated_at_utc", isoformat now);
   (Py.lit "source_csv", path_str csv_path);
   (Py.lit "source_image_cache_db", path_str cache_db_path);
   (Py.lit "script", Py.lit "cleaning/build_master_dbs.py")].

(** The [try] block: schema creation, the pass over the rows, the final
    commit, finalization and the four counts.  It returns the loader it
    reached and either the exception raised or the counts. *)
Definition try_body (env : Env) (image_map : gmap Z (pystr * pystr))
    (build_id : pystr) (csv_path cache_db_path : Path) (csv : CsvFile)
    : Loader * (Error + Counts) :=
  let build_info := build_info_items build_id (clock env) csv_path cache_db_path in
  let ld :=
    {| catalog_conn :=
         begin (commit (insert_build_info build_info
                          (connect init_catalog_schema "init_catalog_schema")));
       pull_conn :=
         begin (commit (insert_build_info build_info
                          (connect init_pull_schema "init_pull_schema")));
       catalog_tag_cache := ∅; pull_tag_cache := ∅;
       stats := BuildStats_init |} in
  let '(ld, raised) := load_rows image_map (csv_rows csv) ld in
  match raised, csv_fault csv with
  | Some e, _ | None, Some e => (ld, inl e)
  | None, None =>
      let ld := {| catalog_conn := commit (catalog_conn ld);
                   pull_conn := commit (pull_conn ld);
                   catalog_tag_cache := catalog_tag_cache ld;
                   pull_tag_cache := pull_tag_cache ld; stats := stats ld |} in
      match finalize_fault env with
      | Some e => (ld, inl e)
      | None =>
          let ld := {| catalog_conn := finalize_catalog_schema (catalog_conn ld);
                       pull_conn := finalize_pull_schema (pull_conn ld);
                       catalog_tag_cache := catalog_tag_cache ld;
                       pull_tag_cache := pull_tag_cache ld; stats := stats ld |} in
          ({| catalog_conn := execute (StmtCount "tags") id
                                (execute (StmtCount "objects") id (catalog_conn ld));
              pull_conn := execute (StmtCount "tags") id
                             (execute (StmtCount "objects") id (pull_conn ld));
              catalog_tag_cache := catalog_tag_cache ld;
              pull_tag_cache := pull_tag_cache ld; stats := stats ld |},
           inr {| catalog_object_count := sql_count_objects (conn_db (catalog_conn ld));
                  catalog_tag_count := sql_count_tags (conn_db (catalog_conn ld));
                  pull_object_count := sql_count_objects (conn_db (pull_conn ld));
                  pull_tag_count := sql_count_tags (conn_db (pull_conn ld)) |})
      end
  end.

Definition checksums_txt (catalog_sha pull_sha : pystr) : pystr :=
  catalog_sha ++ Py.lit "  catalog_master.db" ++ [10%N]
  ++ pull_sha ++ Py.lit "  pull_master.db" ++ [10%N].

Definition build_master_dbs (env : Env) (csv_path cache_db_path output_root : Path)
    (w : World) : World * (Error + Manifest) :=
  match csv_file env with
  | None => (w, inl FileNotFoundError)
  | Some csv =>
  match load_image_map (cache_db env) with
  | inl e => (w, inl e)
  | inr image_map =>
  let now := clock env in
  let build_id := strftime_build_id now in
  let release_path := output_root ++ [Py.lit "releases"; build_id] in
  match releases w !! build_id with
  | Some _ => (w, inl FileExistsError)
  | None =>
  let w := log [EvMkdirRelease build_id] (set_release build_id (Some ∅) w) in
  let '(ld, result) :=
    try_body env image_map build_id csv_path cache_db_path csv in
  (* the two files, as the connections leave them when they are closed *)
  let catalog_file := CatalogFile (close (catalog_conn ld)) in
  let pull_file := PullFile (close (pull_conn ld)) in
  let release_dir : Dir :=
    <["pull_master.db"%string := pull_file]>
      {["catalog_master.db"%string := catalog_file]} in
  let w := set_release build_id (Some release_dir) w in
  match result with
  | inl e =>
      (* except: close, close, rmtree, raise; finally: close, close *)
      (log [EvClose "catalog_master.db"; EvClose "pull_master.db";
            EvRmtreeRelease build_id;
            EvClose "catalog_master.db"; EvClose "pull_master.db"]
         (set_release build_id None w),
       inl e)
  | inr counts =>
      let w := log [EvClose "catalog_master.db"; EvClose "pull_master.db"] w in
      let catalog_sha := sha256_file catalog_file in
      let pull_sha := sha256_file pull_file in
      let release_dir :=
        <["checksums.txt"%string := TextFile (checksums_txt catalog_sha pull_sha)]>
          release_dir in
      let w := log [EvWriteChecksums build_id]
                 (set_release build_id (Some release_dir) w) in
      let manifest :=
        {| m_build_id := build_id;
           m_generated_at_utc := isoformat now;
           m_inputs_csv := path_str csv_path;
           m_inputs_image_cache_db := path_str cache_db_path;
           m_catalog_master_db :=
             {| out_path := path_str (release_path ++ [Py.lit "catalog_master.db"]);
                out_sha256 := catalog_sha;
                out_bytes := st_size catalog_file;
                out_objects := catalog_object_count counts;
                out_tags := catalog_tag_count counts |};
           m_pull_master_db :=
             {| out_path := path_str (release_path ++ [Py.lit "pull_master.db"]);
                out_sha256 := pull_sha;
                out_bytes := st_size pull_file;
                out_objects := pull_object_count counts;
                out_tags := pull_tag_count counts |};
           m_stats := stats ld |} in
      let release_dir := <["manifest.json"%string := JsonFile manifest]> release_dir in
      let w := log [EvWriteManifest build_id]
                 (set_release build_id (Some release_dir) w) in
      let '(w, published) :=
        publish_current_release (copy_faults env) build_id build_id w in
      match published with
      | inl e => (w, inl e)
      | inr _ => (w, inr manifest)
      end
  end
  end
  end
  end.

(** *** Notions used in the statements *)

(** The id under which a row is written, when it passes the id filter and
    the image filter. *)
Definition accepted_id (image_map : gmap Z (pystr * pystr)) (row : Row) : option Z :=
  object_id ← parse_int_or_none (row_get row "Object ID");
  let '(primary_image, primary_image_small, _) :=
    resolve_images image_map row object_id BuildStats_init in
  if Py.truthy primary_image || Py.truthy primary_image_small
  then Some object_id else None.

(** The counters after the two flags of a row were counted. *)
Definition flag_counters (is_public_domain is_highlight : Z) (s : BuildStats)
    : BuildStats :=
  let s := if bool_decide (is_public_domain ≠ 0) then incr_rows_public_domain s else s in
  if bool_decide (is_highlight ≠ 0) then incr_rows_highlight s else s.

(** The invariant of the counters. *)
Definition balanced (s : BuildStats) : Prop :=
  rows_scanned s
  = rows_with_images s + rows_skipped_no_images s + rows_skipped_bad_object_id s.

(** Two counter records agree on the four counters of the partition. *)
Definition same_partition (s s' : BuildStats) : Prop :=
  rows_scanned s' = rows_scanned s
  ∧ rows_with_images s' = rows_with_images s
  ∧ rows_skipped_no_images s' = rows_skipped_no_images s
  ∧ rows_skipped_bad_object_id s' = rows_skipped_bad_object_id s.

(** One more row scanned, and exactly one of the three counters of the
    partition one higher. *)
Definition counted_once (s s' : BuildStats) : Prop :=
  rows_scanned s' = rows_scanned s + 1
  ∧ ((rows_with_images s' = rows_with_images s + 1
      ∧ rows_skipped_no_images s' = rows_skipped_no_images s
      ∧ rows_skipped_bad_object_id s' = rows_skipped_bad_object_id s)
     ∨ (rows_with_images s' = rows_with_images s
        ∧ rows_skipped_no_images s' = rows_skipped_no_images s + 1
        ∧ rows_skipped_bad_object_id s' = rows_skipped_bad_object_id s)
     ∨ (rows_with_images s' = rows_with_images s
        ∧ rows_skipped_no_images s' = rows_skipped_no_images s
        ∧ rows_skipped_bad_object_id s' = rows_skipped_bad_object_id s + 1)).

(** Every object of the pull schema has [is_public_domain] 0 or 1. *)
Definition pd_bool (db : PullDb) : Prop :=
  ∀ object_id o, objects db !! object_id = Some o →
    p_is_public_domain o = 0 ∨ p_is_public_domain o = 1.

(** Both dictionaries are well formed, both association tables reference
    existing rows, and the two schemas agree on [tags], on the caches, on
    [object_tags] and on the keys of [objects]. *)
Definition loader_inv (ld : Loader) : Prop :=
  tag_dict_inv (conn_db (catalog_conn ld)) (catalog_tag_cache ld)
  ∧ tag_dict_inv (conn_db (pull_conn ld)) (pull_tag_cache ld)
  ∧ fk_inv (conn_db (catalog_conn ld))
  ∧ fk_inv (conn_db (pull_conn ld))
  ∧ tags (conn_db (catalog_conn ld)) = tags (conn_db (pull_conn ld))
  ∧ tag_seq (conn_db (catalog_conn ld)) = tag_seq (conn_db (pull_conn ld))
  ∧ catalog_tag_cache ld = pull_tag_cache ld
  ∧ object_tags (conn_db (catalog_conn ld)) = object_tags (conn_db (pull_conn ld))
  ∧ dom (objects (conn_db (catalog_conn ld))) = dom (objects (conn_db (pull_conn ld)))
  ∧ pd_bool (conn_db (pull_conn ld)).

(** The values of [tags], in table order, after a list of values went
    through the dictionary. *)
Fixpoint first_occurrences (seen values : list pystr) : list pystr :=
  match values with
  | [] => seen
  | v :: values =>
      first_occurrences (if decide (v ∈ seen) then seen else seen ++ [v]) values
  end.

(** The ids of the rows that pass both filters. *)
Definition accepted_ids (image_map : gmap Z (pystr * pystr)) (rows : list Row)
    : gset Z :=
  list_to_set (omap (accepted_id image_map) rows).

(** The tag values a row sends through the dictionaries. *)
Definition accepted_tags (image_map : gmap Z (pystr * pystr)) (row : Row)
    : list pystr :=
  match accepted_id image_map row with
  | Some _ => parse_tags (row_get row "Tags")
  | None => []
  end.

(** The loader before the first row. *)
Definition initial_loader (build_info : list (pystr * pystr)) : Loader :=
  {| catalog_conn :=
       begin (commit (insert_build_info build_info
                        (connect init_catalog_schema "init_catalog_schema")));
     pull_conn :=
       begin (commit (insert_build_info build_info
                        (connect init_pull_schema "init_pull_schema")));
     catalog_tag_cache := ∅; pull_tag_cache := ∅;
     stats := BuildStats_init |}.

(** The pull tables after [finalize_pull_schema]. *)
Definition finalized_pull_db (db : PullDb) : PullDb :=
  add_indexes pull_indexes
    (set_extra (group_by_tag_id (join_object_tags db)) db).

(** The object of an association is in the public domain. *)
Definition public_domain_object (db : PullDb) (object_id : Z) : Prop :=
  p_is_public_domain <$> objects db !! object_id = Some 1.

#[global] Instance public_domain_object_dec db object_id :
  Decision (public_domain_object db object_id).
Proof. unfold public_domain_object. apply _. Defined.

Abbreviation zero_stat := {| object_count := 0; public_domain_count := 0 |}.

(** [SUM] over a column. *)
Definition sum_list (l : list Z) : Z := foldr Z.add 0 l.

(** The loader with the [build_info] rows of both databases removed. *)
Definition erase_loader (ld : Loader) : Loader :=
  {| catalog_conn := erase_conn (catalog_conn ld);
     pull_conn := erase_conn (pull_conn ld);
     catalog_tag_cache := catalog_tag_cache ld;
     pull_tag_cache := pull_tag_cache ld;
     stats := stats ld |}.

(** What is claimed of the map loaded from an existing cache: every entry
    has a non-empty URL. *)
Definition image_map_entries_have_url : Prop :=
  ∀ image_cache image_map,
    load_image_map (Some image_cache) = inr image_map →
    ∀ object_id primary_image primary_image_small,
      image_map !! object_id = Some (primary_image, primary_image_small) →
      primary_image ≠ [] ∨ primary_image_small ≠ [].

(** What is claimed of two completed builds on the same rows and the same
    image cache, from the same paths: they report the same counters and
    record the same digests for the two database files. *)
Definition hashes_reproducible : Prop :=
  ∀ env1 env2 csv_path cache_db_path output_root w1 w1' w2 w2' manifest1 manifest2,
    csv_file env1 = csv_file env2 →
    cache_db env1 = cache_db env2 →
    build_master_dbs env1
      csv_path cache_db_path output_root w1 = (w1', inr manifest1) →
    build_master_dbs env2
      csv_path cache_db_path output_root w2 = (w2', inr manifest2) →
    m_stats manifest1 = m_stats manifest2
    ∧ out_sha256 (m_catalog_master_db manifest1)
      = out_sha256 (m_catalog_master_db manifest2)
    ∧ out_sha256 (m_pull_master_db manifest1)
      = out_sha256 (m_pull_master_db manifest2).

(** *** Notions used in the further properties *)

(** The last row of the input that is written under an id. *)
Definition last_accepted (image_map : gmap Z (pystr * pystr)) (rows : list Row)
    (object_id : Z) : option Row :=
  last (filter (λ row, accepted_id image_map row = Some object_id) rows).

(** The two image URLs step 3 resolves for a row. *)
Definition row_images (image_map : gmap Z (pystr * pystr)) (row : Row)
    (object_id : Z) : pystr * pystr :=
  (resolve_images image_map row object_id BuildStats_init).1.

(** The rows of [objects] that the two upserts of a row write. *)
Definition row_catalog_object (image_map : gmap Z (pystr * pystr)) (row : Row)
    (object_id : Z) : CatalogObject :=
  catalog_object row row
    (parse_bool_int (row_get row "Is Public Domain"))
    (parse_bool_int (row_get row "Is Highlight"))
    (row_images image_map row object_id).1 (row_images image_map row object_id).2.

Definition row_pull_object (image_map : gmap Z (pystr * pystr)) (row : Row)
    (object_id : Z) : PullObject :=
  pull_object row (parse_bool_int (row_get row "Is Public Domain"))
    (row_images image_map row object_id).1 (row_images image_map row object_id).2.

(** A row that the two upserts accept: [json.dumps] can serialize it, and
    its three integers fit SQLite's INTEGER. *)
Definition row_writable (row : Row) (object_id : Z) : Prop :=
  (restkey row = [] ∨ fields row = ∅)
  ∧ sqlite_int_ok object_id = true
  ∧ sqlite_opt_int_ok (parse_int_or_none (row_get row "Object Begin Date")) = true
  ∧ sqlite_opt_int_ok (parse_int_or_none (row_get row "Object End Date")) = true.

(** The classes of input rows that the counters count. *)
Definition bad_object_id (row : Row) : Prop :=
  parse_int_or_none (row_get row "Object ID") = None.

Definition cache_hit (image_map : gmap Z (pystr * pystr)) (row : Row) : Prop :=
  is_Some (parse_int_or_none (row_get row "Object ID") ≫= (image_map !!.)).

Definition written (image_map : gmap Z (pystr * pystr)) (row : Row) : Prop :=
  is_Some (accepted_id image_map row).

(** 1 when the proposition holds, 0 when it does not. *)
Definition indicator (P : Prop) `{!Decision P} : Z := if decide P then 1 else 0.

(** The number of rows of a class. *)
Definition count_rows (P : Row → Prop) `{!∀ row, Decision (P row)}
    (rows : list Row) : Z :=
  Z.of_nat (length (filter P rows)).

(** The counters of a pass over the rows, class by class. *)
Definition counted (image_map : gmap Z (pystr * pystr)) (rows : list Row)
    (s : BuildStats) : Prop :=
  rows_scanned s = Z.of_nat (length rows)
  ∧ rows_skipped_bad_object_id s = count_rows bad_object_id rows
  ∧ rows_with_images s = count_rows (written image_map) rows
  ∧ rows_skipped_no_images s
    = count_rows (λ row, ¬ bad_object_id row ∧ ¬ written image_map row) rows
  ∧ rows_public_domain s
    = count_rows (λ row, written image_map row
                         ∧ parse_bool_int (row_get row "Is Public Domain") = 1) rows
  ∧ rows_highlight s
    = count_rows (λ row, written image_map row
                         ∧ parse_bool_int (row_get row "Is Highlight") = 1) rows
  ∧ rows_with_images_from_cache s = count_rows (cache_hit image_map) rows
  ∧ rows_with_images_from_csv_fallback s
    = count_rows (λ row, written image_map row ∧ ¬ cache_hit image_map row) rows.

(** The four files of a release. *)
Definition release_files (catalog_db : CatalogDb) (pull_db : PullDb)
    (manifest : Manifest) : Dir :=
  <["manifest.json"%string := JsonFile manifest]>
    (<["checksums.txt"%string :=
         TextFile (checksums_txt (out_sha256 (m_catalog_master_db manifest))
                     (out_sha256 (m_pull_master_db manifest)))]>
       (<["pull_master.db"%string := PullFile pull_db]>
          {["catalog_master.db"%string := CatalogFile catalog_db]})).

(** The effects of a build up to the publish step. *)
Definition release_events (build_id : pystr) : list Event :=
  [EvMkdirRelease build_id;
   EvClose "catalog_master.db"; EvClose "pull_master.db";
   EvWriteChecksums build_id; EvWriteManifest build_id].


(** An object carries a tag value: the last row written under its id has
    it among its normalized tags. *)
Definition object_has_tag (image_map : gmap Z (pystr * pystr)) (rows : list Row)
    (value : pystr) (object_id : Z) : Prop :=
  value ∈ from_option (λ row, parse_tags (row_get row "Tags")) []
            (last_accepted image_map rows object_id).

(** An object is in the public domain: the last row written under its id
    has the flag. *)
Definition object_in_public_domain (image_map : gmap Z (pystr * pystr))
    (rows : list Row) (object_id : Z) : Prop :=
  (λ row, parse_bool_int (row_get row "Is Public Domain"))
    <$> last_accepted image_map rows object_id = Some 1.

#[global] Instance object_has_tag_dec image_map rows value object_id :
  Decision (object_has_tag image_map rows value object_id).
Proof. unfold object_has_tag. apply _. Defined.

#[global] Instance object_in_public_domain_dec image_map rows object_id :
  Decision (object_in_public_domain image_map rows object_id).
Proof. unfold object_in_public_domain. apply _. Defined.

(** * Properties *)

(** ** Strings: order, [split], [strip] *)

Lemma compare_eq_iff (a b : pystr) : Py.compare a b = Eq ↔ a = b.
Proof.
  revert b. induction a as [|x a IH]; intros [|y b]; simpl; try easy.
  destruct (N.compare_spec x y) as [->|Hlt|Hgt].
  - rewrite IH. split; [by intros -> | by intros [= ->]].
  - split; [done | intros [= -> _]; lia].
  - split; [done | intros [= -> _]; lia].
Qed.

Lemma compare_antisym (a b : pystr) : Py.compare b a = CompOpp (Py.compare a b).
Proof.
  revert b. induction a as [|x a IH]; intros [|y b]; simpl; try easy.
  rewrite (N.compare_antisym x y).
  destruct (x ?= y)%N; simpl; auto.
Qed.

Lemma compare_lt_trans (a b c : pystr) :
  Py.compare a b = Lt → Py.compare b c = Lt → Py.compare a c = Lt.
Proof.
  revert b c. induction a as [|x a IH]; intros [|y b] [|z c]; simpl; try easy.
  destruct (N.compare_spec x y) as [->|Hxy|Hxy]; try easy.
  - destruct (N.compare_spec y z) as [->|Hyz|Hyz]; try easy. apply IH.
  - destruct (N.compare_spec y z) as [->|Hyz|Hyz]; try easy.
    + intros _ _. destruct (N.compare_spec x z); [lia | done | lia].
    + intros _ _. destruct (N.compare_spec x z); [lia | done | lia].
Qed.

Lemma py_le_total : Total Py.le.
Proof.
  intros a b. unfold Py.le. rewrite (compare_antisym a b).
  destruct (Py.compare a b); simpl; [left | left | right]; done.
Qed.

Lemma py_le_trans : Transitive Py.le.
Proof.
  intros a b c. unfold Py.le. intros Hab Hbc.
  destruct (Py.compare a b) eqn:E1; [| |done].
  - apply compare_eq_iff in E1 as ->. done.
  - destruct (Py.compare b c) eqn:E2; [| |done].
    + apply compare_eq_iff in E2 as ->. by rewrite E1.
    + by rewrite (compare_lt_trans a b c).
Qed.

Lemma py_le_lt (a b : pystr) : Py.le a b → a ≠ b → Py.lt a b.
Proof.
  unfold Py.le, Py.lt. intros Hle Hne.
  destruct (Py.compare a b) eqn:E; [|done|done].
  by apply compare_eq_iff in E.
Qed.

Lemma StronglySorted_le_lt (l : list pystr) :
  StronglySorted Py.le l → NoDup l → StronglySorted Py.lt l.
Proof.
  induction 1 as [|x l Hs IH Hall]; intros Hnd; [constructor|].
  apply NoDup_cons in Hnd as [Hx Hnd]. constructor; [by apply IH|].
  rewrite Forall_forall in Hall |- *. intros y Hy.
  apply py_le_lt; [by apply Hall|]. intros ->. done.
Qed.

Lemma split_nonempty sep (s : pystr) : Py.split sep s ≠ [].
Proof.
  destruct s as [|c s]; simpl; [done|].
  destruct (c =? sep)%N; [done|]. by destruct (Py.split sep s).
Qed.

Lemma join_split sep (s : pystr) : Py.join sep (Py.split sep s) = s.
Proof.
  induction s as [|c s IH]; [done|]. simpl.
  destruct (N.eqb_spec c sep) as [->|Hne].
  - pose proof (split_nonempty sep s).
    destruct (Py.split sep s) as [|seg rest] eqn:E; [done|].
    simpl in *. by rewrite IH.
  - destruct (Py.split sep s) as [|seg rest] eqn:E; [by destruct (split_nonempty sep s)|].
    destruct rest; simpl in *; by rewrite <- IH.
Qed.

Lemma split_no_sep sep (s : pystr) : Forall (λ seg, sep ∉ seg) (Py.split sep s).
Proof.
  induction s as [|c s IH]; simpl.
  - constructor; [|done]. by intros ?%elem_of_nil.
  - destruct (N.eqb_spec c sep) as [->|Hne].
    + constructor; [|done]. by intros ?%elem_of_nil.
    + destruct (Py.split sep s) as [|seg rest].
      * constructor; [|done]. intros [->|[]%elem_of_nil]%elem_of_cons. done.
      * apply Forall_cons in IH as [Hseg Hrest]. constructor; [|done].
        intros [->|?]%elem_of_cons; done.
Qed.

(** [lstrip] removes the longest prefix of whitespace. *)
Lemma lstrip_spec (s : pystr) :
  ∃ pre, s = pre ++ Py.lstrip s ∧ Forall (λ c, Py.isspace c = true) pre
         ∧ (∀ c, head (Py.lstrip s) = Some c → Py.isspace c = false).
Proof.
  induction s as [|c s (pre & Heq & Hpre & Hhd)]; simpl.
  - exists []. by repeat split.
  - destruct (Py.isspace c) eqn:E.
    + exists (c :: pre). simpl. rewrite <- Heq. repeat split; [|done]. by constructor.
    + exists []. repeat split; [done|]. simpl. by intros ? [= <-].
Qed.

(** [strip] removes the longest whitespace prefix and suffix, and nothing
    else. *)
Lemma strip_spec (s : pystr) :
  ∃ pre suf, s = pre ++ Py.strip s ++ suf
    ∧ Forall (λ c, Py.isspace c = true) pre
    ∧ Forall (λ c, Py.isspace c = true) suf
    ∧ (∀ c, head (Py.strip s) = Some c → Py.isspace c = false)
    ∧ (∀ c, last (Py.strip s) = Some c → Py.isspace c = false).
Proof.
  unfold Py.strip, Py.rstrip.
  destruct (lstrip_spec s) as (pre & Heq & Hpre & Hhd).
  destruct (lstrip_spec (reverse (Py.lstrip s))) as (suf & Heq' & Hsuf & Hhd').
  set (m := Py.lstrip (reverse (Py.lstrip s))) in *.
  assert (Py.lstrip s = reverse m ++ reverse suf) as Hmid.
  { rewrite <- reverse_app, <- Heq'. by rewrite reverse_involutive. }
  exists pre, (reverse suf). repeat split.
  - by rewrite <- Hmid.
  - done.
  - rewrite Forall_forall in Hsuf |- *. intros c Hc. apply Hsuf.
    by apply elem_of_reverse.
  - intros c Hc. apply Hhd. rewrite Hmid.
    destruct (reverse m); [done|]. done.
  - intros c Hc. apply Hhd'. by rewrite last_reverse in Hc.
Qed.

Lemma parse_tags_elem_of (raw t : pystr) :
  t ∈ parse_tags (Some raw)
  ↔ t ≠ [] ∧ ∃ seg, seg ∈ Py.split 124%N raw ∧ t = Py.strip seg.
Proof.
  unfold parse_tags, Py.sorted. rewrite merge_sort_Permutation.
  rewrite elem_of_elements, elem_of_list_to_set, list_elem_of_filter.
  rewrite list_elem_of_fmap. split.
  - intros [Ht (seg & -> & Hseg)]. split; [|by exists seg].
    intros E. by rewrite E in Ht.
  - intros [Ht (seg & Hseg & ->)]. split; [|by exists seg].
    by destruct (Py.strip seg).
Qed.

(** C7. [parse_tags] of an absent input is the empty list; of a string it
    is the list, strictly ascending in code point order (hence without
    duplicates, equal strings only being merged), of the non-empty values
    obtained by trimming the segments between the "|" separators; the
    segments are the pieces of the input between the separators, and
    trimming removes exactly the surrounding whitespace, so case is kept.
    "Portrait | portrait |Nude" gives "Nude", "Portrait", "portrait". *)
Theorem parse_tags_sorted_distinct_trimmed_segments :
  parse_tags None = []
  ∧ parse_tags (Some (Py.lit "Portrait | portrait |Nude"))
    = [Py.lit "Nude"; Py.lit "Portrait"; Py.lit "portrait"]
  ∧ ∀ raw : pystr,
      StronglySorted Py.lt (parse_tags (Some raw))
      ∧ NoDup (parse_tags (Some raw))
      ∧ (∀ t, t ∈ parse_tags (Some raw)
              ↔ t ≠ [] ∧ ∃ seg, seg ∈ Py.split 124%N raw ∧ t = Py.strip seg)
      ∧ Py.join 124%N (Py.split 124%N raw) = raw
      ∧ Forall (λ seg, 124%N ∉ seg) (Py.split 124%N raw)
      ∧ (∀ seg, ∃ pre suf,
            seg = pre ++ Py.strip seg ++ suf
            ∧ Forall (λ c, Py.isspace c = true) pre
            ∧ Forall (λ c, Py.isspace c = true) suf
            ∧ (∀ c, head (Py.strip seg) = Some c → Py.isspace c = false)
            ∧ (∀ c, last (Py.strip seg) = Some c → Py.isspace c = false)).
Proof.
  split; [done|]. split; [by vm_compute|]. intros raw.
  assert (NoDup (parse_tags (Some raw))) as Hnd.
  { unfold parse_tags, Py.sorted. rewrite merge_sort_Permutation.
    apply NoDup_elements. }
  split; [|split; [done|split; [apply parse_tags_elem_of|]]].
  - apply StronglySorted_le_lt; [|done].
    unfold parse_tags, Py.sorted.
    apply (@StronglySorted_merge_sort _ Py.le _ py_le_trans py_le_total).
  - split; [apply join_split|]. split; [apply split_no_sep|]. apply strip_spec.
Qed.

(** ** The image map *)

(** Every entry of the map is a selected row of the cache, trimmed: a row
    one of whose two columns is not the empty string. *)
Lemma load_image_map_entry image_cache image_map object_id
    primary_image primary_image_small :
  load_image_map (Some image_cache) = inr image_map →
  image_map !! object_id = Some (primary_image, primary_image_small) →
  ∃ r, r ∈ image_cache
       ∧ cache_object_id r = object_id
       ∧ (cache_primary_image r ≠ [] ∨ cache_primary_image_small r ≠ [])
       ∧ primary_image = Py.strip (cache_primary_image r)
       ∧ primary_image_small = Py.strip (cache_primary_image_small r).
Proof.
  unfold load_image_map. intros [= <-].
  set (rows := filter _ image_cache).
  assert (∀ r, r ∈ rows →
               r ∈ image_cache
               ∧ (cache_primary_image r ≠ [] ∨ cache_primary_image_small r ≠ []))
    as Hrows.
  { intros r [? ?]%list_elem_of_filter. by split. }
  clearbody rows.
  assert (∀ acc : gmap Z (pystr * pystr),
            foldl (λ image_map r,
                     <[cache_object_id r :=
                         (text (Some (cache_primary_image r)),
                          text (Some (cache_primary_image_small r)))]> image_map)
              acc rows !! object_id = Some (primary_image, primary_image_small) →
            acc !! object_id = Some (primary_image, primary_image_small)
            ∨ ∃ r, r ∈ rows ∧ cache_object_id r = object_id
                   ∧ primary_image = Py.strip (cache_primary_image r)
                   ∧ primary_image_small = Py.strip (cache_primary_image_small r))
    as Hfold.
  { induction rows as [|r rows IH]; intros acc; simpl; [by left|].
    intros [Hacc|(r' & Hin & ?)]%IH.
    - rewrite lookup_insert in Hacc. case_decide as Hid.
      + injection Hacc as <- <-. right. exists r. split; [left|done].
      + by left.
    - right. exists r'. split; [by right|done].
    - intros r' Hin. apply Hrows. by right. }
  intros [Hempty|(r & Hin & Hid & Hp & Hs)]%Hfold; [by rewrite lookup_empty in Hempty|].
  exists r. destruct (Hrows r Hin) as [? ?]. by repeat split.
Qed.

(** ** The loader, row by row *)

Lemma resolve_images_pair image_map row object_id s s' :
  (resolve_images image_map row object_id s).1.1
  = (resolve_images image_map row object_id s').1.1
  ∧ (resolve_images image_map row object_id s).1.2
    = (resolve_images image_map row object_id s').1.2.
Proof.
  unfold resolve_images. destruct (image_map !! object_id) as [[??]|]; done.
Qed.

(** The three ways a row is processed without raising. *)
Lemma process_row_inv image_map row ld ld' :
  process_row image_map row ld = inr ld' →
  (parse_int_or_none (row_get row "Object ID") = None
   ∧ accepted_id image_map row = None
   ∧ ld' = set_stats (incr_rows_skipped_bad_object_id
                        (incr_rows_scanned (stats ld))) ld)
  ∨ (∃ object_id primary_image primary_image_small s,
       parse_int_or_none (row_get row "Object ID") = Some object_id
       ∧ accepted_id image_map row = None
       ∧ resolve_images image_map row object_id (incr_rows_scanned (stats ld))
         = (primary_image, primary_image_small, s)
       ∧ ld' = set_stats (incr_rows_skipped_no_images s) ld)
  ∨ (∃ object_id primary_image primary_image_small s cconn pconn ld1,
       accepted_id image_map row = Some object_id
       ∧ resolve_images image_map row object_id (incr_rows_scanned (stats ld))
         = (primary_image, primary_image_small, s)
       ∧ execute_upsert_object object_id
           (parse_int_or_none (row_get row "Object Begin Date"))
           (parse_int_or_none (row_get row "Object End Date"))
           (catalog_object row row
              (parse_bool_int (row_get row "Is Public Domain"))
              (parse_bool_int (row_get row "Is Highlight"))
              primary_image primary_image_small)
           (catalog_conn ld) = inr cconn
       ∧ execute_upsert_object object_id
           (parse_int_or_none (row_get row "Object Begin Date"))
           (parse_int_or_none (row_get row "Object End Date"))
           (pull_object row (parse_bool_int (row_get row "Is Public Domain"))
              primary_image primary_image_small)
           (pull_conn ld) = inr pconn
       ∧ insert_tags object_id (parse_tags (row_get row "Tags"))
           {| catalog_conn := cconn; pull_conn := pconn;
              catalog_tag_cache := catalog_tag_cache ld;
              pull_tag_cache := pull_tag_cache ld;
              stats := flag_counters
                         (parse_bool_int (row_get row "Is Public Domain"))
                         (parse_bool_int (row_get row "Is Highlight")) s |}
         = inr ld1
       ∧ ld' = commit_batch (set_stats (incr_rows_with_images (stats ld1)) ld1)).
Proof.
  unfold process_row, accepted_id.
  destruct (parse_int_or_none (row_get row "Object ID")) as [object_id|] eqn:Hid;
    simpl; [|intros [= <-]; by left].
  pose proof (resolve_images_pair image_map row object_id
                (incr_rows_scanned (stats ld)) BuildStats_init) as [Hp Hs].
  destruct (resolve_images image_map row object_id (incr_rows_scanned (stats ld)))
    as [[primary_image primary_image_small] s] eqn:Hres.
  destruct (resolve_images image_map row object_id BuildStats_init)
    as [[primary_image' primary_image_small'] s'].
  simpl in Hp, Hs. subst primary_image' primary_image_small'.
  destruct (Py.truthy primary_image) eqn:Hp, (Py.truthy primary_image_small) eqn:Hs;
    simpl.
  4: { intros [= <-]. right; left. by eexists _, _, _, _. }
  all: destruct (json_dumps row) as [e|metadata_json] eqn:Hjson; simpl; [done|].
  all: assert (metadata_json = row) as ->
         by (unfold json_dumps in Hjson; by destruct (_ && _); simplify_eq).
  all: destruct (execute_upsert_object _ _ _ _ (catalog_conn ld))
         as [e|cconn] eqn:Hc; simpl; [done|].
  all: destruct (execute_upsert_object _ _ _ _ (pull_conn ld))
         as [e|pconn] eqn:Hpl; simpl; [done|].
  all: destruct (insert_tags _ _ _) as [e|ld1] eqn:Hins; simpl; [done|].
  all: intros [= <-]; right; right.
  all: eexists object_id, _, _, s, cconn, pconn, ld1.
  all: by rewrite ?Hc, ?Hpl.
Qed.

(** ** C1: the counters partition the scanned rows *)

Lemma resolve_images_partition image_map row object_id s p ps s' :
  resolve_images image_map row object_id s = (p, ps, s') → same_partition s s'.
Proof.
  unfold resolve_images, same_partition.
  destruct (image_map !! object_id) as [[??]|]; [by intros [= <- <- <-]|].
  destruct (_ || _); by intros [= <- <- <-].
Qed.

Lemma flag_counters_partition pd hl s : same_partition s (flag_counters pd hl s).
Proof.
  unfold flag_counters, same_partition. by repeat case_bool_decide.
Qed.

Lemma insert_tags_stats object_id row_tags ld ld' :
  insert_tags object_id row_tags ld = inr ld' → stats ld' = stats ld.
Proof.
  revert ld. induction row_tags as [|tag row_tags IH]; intros ld; simpl.
  - by intros [= <-].
  - destruct (get_or_create_tag_id (catalog_conn ld) _ tag)
      as [|[[cid cconn] ccache]]; [done|].
    simpl.
    destruct (get_or_create_tag_id (pull_conn ld) _ tag)
      as [|[[pid pconn] pcache]]; [done|].
    simpl.
    destruct (execute_insert_object_tag object_id cid cconn) as [|?]; [done|].
    simpl.
    destruct (execute_insert_object_tag object_id pid pconn) as [|?]; [done|].
    simpl.
    intros H. by apply IH in H.
Qed.

Lemma commit_batch_stats ld : stats (commit_batch ld) = stats ld.
Proof. unfold commit_batch. by case_bool_decide. Qed.

Lemma process_row_counted_once image_map row ld ld' :
  process_row image_map row ld = inr ld' → counted_once (stats ld) (stats ld').
Proof.
  unfold counted_once. intros H.
  apply process_row_inv in H
    as [(_ & _ & ->)|[(o & p & ps & s & _ & _ & Hres & ->)
                     |(o & p & ps & s & cc & pc & ld1 & _ & Hres & _ & _ & Hins & ->)]].
  - simpl. lia.
  - apply resolve_images_partition in Hres as (? & ? & ? & ?). simpl in *. lia.
  - apply resolve_images_partition in Hres as (? & ? & ? & ?).
    apply insert_tags_stats in Hins. simpl in Hins.
    rewrite commit_batch_stats. simpl. rewrite Hins.
    destruct (flag_counters_partition
                (parse_bool_int (row_get row "Is Public Domain"))
                (parse_bool_int (row_get row "Is Highlight")) s) as (? & ? & ? & ?).
    simpl in *. lia.
Qed.

Lemma load_rows_balanced image_map rows ld ld' :
  load_rows image_map rows ld = (ld', None) →
  balanced (stats ld) →
  balanced (stats ld')
  ∧ rows_scanned (stats ld') = rows_scanned (stats ld) + Z.of_nat (length rows).
Proof.
  revert ld. induction rows as [|row rows IH]; intros ld; simpl.
  - intros [= <-]. split; [done | lia].
  - destruct (process_row image_map row ld) as [e|ld1] eqn:Hrow; [done|].
    intros H Hb. apply process_row_counted_once in Hrow as Hone.
    destruct (IH ld1 H) as [Hb' Hn].
    + unfold balanced, counted_once in *. lia.
    + split; [done|]. unfold counted_once in Hone. lia.
Qed.

(** The loader that [try_body] returns, when it returns counts. *)
Lemma try_body_inr env image_map build_id csv_path cache_db_path csv ld counts :
  try_body env image_map build_id csv_path cache_db_path csv = (ld, inr counts) →
  ∃ ld1,
    load_rows image_map (csv_rows csv)
      {| catalog_conn :=
           begin (commit (insert_build_info
                            (build_info_items build_id (clock env) csv_path cache_db_path)
                            (connect init_catalog_schema "init_catalog_schema")));
         pull_conn :=
           begin (commit (insert_build_info
                            (build_info_items build_id (clock env) csv_path cache_db_path)
                            (connect init_pull_schema "init_pull_schema")));
         catalog_tag_cache := ∅; pull_tag_cache := ∅;
         stats := BuildStats_init |} = (ld1, None)
    ∧ csv_fault csv = None ∧ finalize_fault env = None
    ∧ stats ld = stats ld1
    ∧ conn_disk (catalog_conn ld)
      = add_indexes catalog_indexes (conn_db (catalog_conn ld1))
    ∧ conn_disk (pull_conn ld)
      = add_indexes pull_indexes
          (set_extra (group_by_tag_id (join_object_tags (conn_db (pull_conn ld1))))
             (conn_db (pull_conn ld1)))
    ∧ counts
      = {| catalog_object_count := sql_count_objects (conn_db (catalog_conn ld1));
           catalog_tag_count := sql_count_tags (conn_db (catalog_conn ld1));
           pull_object_count := sql_count_objects (conn_db (pull_conn ld1));
           pull_tag_count := sql_count_tags (conn_db (pull_conn ld1)) |}.
Proof.
  unfold try_body.
  destruct (load_rows _ _ _) as [ld1 raised] eqn:Hload.
  destruct raised as [e|]; [done|].
  destruct (csv_fault csv) as [e|]; [done|].
  destruct (finalize_fault env) as [e|]; [done|].
  intros [= <- <-]. exists ld1. by repeat split.
Qed.

(** What a build that returns a manifest has done. *)
Lemma build_master_dbs_inr env csv_path cache_db_path output_root w w' manifest :
  build_master_dbs env csv_path cache_db_path output_root w = (w', inr manifest) →
  ∃ csv image_map ld counts,
    csv_file env = Some csv
    ∧ load_image_map (cache_db env) = inr image_map
    ∧ releases w !! strftime_build_id (clock env) = None
    ∧ try_body env image_map (strftime_build_id (clock env))
        csv_path cache_db_path csv = (ld, inr counts)
    ∧ m_stats manifest = stats ld
    ∧ m_build_id manifest = strftime_build_id (clock env)
    ∧ out_sha256 (m_catalog_master_db manifest)
      = sha256_file (CatalogFile (conn_disk (catalog_conn ld)))
    ∧ out_sha256 (m_pull_master_db manifest)
      = sha256_file (PullFile (conn_disk (pull_conn ld)))
    ∧ releases w' !! strftime_build_id (clock env)
      = Some (<["manifest.json"%string := JsonFile manifest]>
               (<["checksums.txt"%string :=
                    TextFile (checksums_txt
                                (sha256_file (CatalogFile (conn_disk (catalog_conn ld))))
                                (sha256_file (PullFile (conn_disk (pull_conn ld)))))]>
                  (<["pull_master.db"%string := PullFile (conn_disk (pull_conn ld))]>
                     {["catalog_master.db"%string :=
                         CatalogFile (conn_disk (catalog_conn ld))]}))).
Proof.
  unfold build_master_dbs.
  destruct (csv_file env) as [csv|]; [|done].
  destruct (load_image_map (cache_db env)) as [e|image_map]; [done|].
  destruct (releases w !! _) eqn:Hrel; [done|].
  destruct (try_body _ _ _ _ _ _) as [ld [e|counts]] eqn:Hbody; [done|].
  unfold publish_current_release.
  match goal with |- context [releases ?x !! ?k] =>
    destruct (releases x !! k) as [src|] eqn:Hsrc end.
  2: { destruct (current _); simpl in *; done. }
  destruct (copytree (copy_faults env) src) as [copied complete] eqn:Hcopy.
  destruct complete; [|done].
  intros [= <- <-]. exists csv, image_map, ld, counts.
  repeat split; try done.
  simpl. destruct (current _); simpl; by rewrite lookup_insert_eq.
Qed.

(** C1. Every build that completes (returns its manifest) reports counters
    with rows_scanned = rows_with_images + rows_skipped_no_images
    + rows_skipped_bad_object_id; rows_scanned is the number of rows of the
    input; and every row that is processed adds one to rows_scanned and one
    to exactly one of the three other counters. *)
Theorem build_stats_partition env csv_path cache_db_path output_root w w' manifest :
  build_master_dbs env csv_path cache_db_path output_root w = (w', inr manifest) →
  rows_scanned (m_stats manifest)
  = rows_with_images (m_stats manifest)
    + rows_skipped_no_images (m_stats manifest)
    + rows_skipped_bad_object_id (m_stats manifest)
  ∧ (∃ csv, csv_file env = Some csv
            ∧ rows_scanned (m_stats manifest) = Z.of_nat (length (csv_rows csv)))
  ∧ (∀ image_map row ld ld',
        process_row image_map row ld = inr ld' →
        counted_once (stats ld) (stats ld')).
Proof.
  intros (csv & image_map & ld & counts & Hcsv & _ & _ & Hbody & -> & _)%build_master_dbs_inr.
  apply try_body_inr in Hbody as (ld1 & Hload & _ & _ & -> & _).
  apply load_rows_balanced in Hload as [Hb Hn]; [|by unfold balanced].
  split; [done|]. split; [by exists csv|].
  intros ????. apply process_row_counted_once.
Qed.

(** ** The tag dictionary *)

Section TagDictionary.
Context {O X : Type}.
Implicit Types (db : Db O X) (conn : Conn O X) (cache : gmap pystr Z).

Lemma filter_none {A} (P : A → Prop) `{!∀ x, Decision (P x)} (l : list A) :
  (∀ x, x ∈ l → ¬ P x) → filter P l = [].
Proof.
  induction l as [|x l IH]; [done|]. intros Hall.
  rewrite filter_cons_False by (apply Hall; left).
  apply IH. intros y Hy. apply Hall. by right.
Qed.

Lemma unique_row (l : list (Z * pystr)) tag_id v :
  NoDup l.*2 → (tag_id, v) ∈ l → filter (λ t, t.2 = v) l = [(tag_id, v)].
Proof.
  induction l as [|[i w] l IH]; simpl; [by intros _ ?%elem_of_nil|].
  intros [Hw Hnd]%NoDup_cons [[= <- <-]|Hin]%elem_of_cons.
  - rewrite filter_cons_True by done. f_equal.
    apply filter_none. intros [j u] Hju Hu. simpl in Hu. subst u.
    apply Hw, list_elem_of_fmap. by exists (j, v).
  - rewrite filter_cons_False; [by apply IH|].
    simpl. intros Hv. subst w. apply Hw, list_elem_of_fmap. by exists (tag_id, v).
Qed.

Lemma sql_select_tag_id_Some value db tag_id :
  sql_select_tag_id value db = Some tag_id → (tag_id, value) ∈ tags db.
Proof.
  unfold sql_select_tag_id.
  destruct (filter _ (tags db)) as [|[i w] l] eqn:E; [done|].
  intros [= <-].
  assert ((i, w) ∈ filter (λ t, t.2 = value) (tags db)) as Hin
    by (rewrite E; left).
  apply list_elem_of_filter in Hin as [Hw Hin]. simpl in Hw. by subst.
Qed.

Lemma sql_select_tag_id_None value db :
  sql_select_tag_id value db = None → value ∉ (tags db).*2.
Proof.
  unfold sql_select_tag_id.
  destruct (filter _ (tags db)) as [|[i w] l] eqn:E; [|done].
  intros _ ([i v] & -> & Hin)%list_elem_of_fmap.
  assert ((i, v) ∈ filter (λ t, t.2 = v) (tags db)) as Hf
    by (by apply list_elem_of_filter).
  simpl in E. rewrite E in Hf. by apply elem_of_nil in Hf.
Qed.

Lemma sql_select_tag_id_unique value db tag_id :
  NoDup (tags db).*2 → (tag_id, value) ∈ tags db →
  sql_select_tag_id value db = Some tag_id.
Proof.
  intros Hnd Hin. unfold sql_select_tag_id.
  by rewrite (unique_row _ tag_id value Hnd Hin).
Qed.

(** The two ways [get_or_create_tag_id] returns. *)
Lemma get_or_create_tag_id_inv conn cache value tag_id conn' cache' :
  get_or_create_tag_id conn cache value = inr (tag_id, conn', cache') →
  (cache !! value = Some tag_id ∧ conn' = conn ∧ cache' = cache)
  ∨ (cache !! value = None
     ∧ cache' = <[value := tag_id]> cache
     ∧ conn' = execute (StmtSelectTag value) id
                 (execute (StmtInsertTag value)
                    (sql_insert_or_ignore_tag value) conn)
     ∧ sql_select_tag_id value (sql_insert_or_ignore_tag value (conn_db conn))
       = Some tag_id).
Proof.
  unfold get_or_create_tag_id.
  destruct (cache !! value) as [i|] eqn:Hc; [intros [= <- <- <-]; by left|].
  simpl.
  destruct (sql_select_tag_id value _) as [i|] eqn:Hsel; [|done].
  intros [= <- <- <-]. right. by repeat split.
Qed.

(** [INSERT OR IGNORE INTO tags] keeps the dictionary well formed and leaves
    exactly one row for the value. *)
Lemma sql_insert_or_ignore_tag_spec value db cache :
  tag_dict_inv db cache →
  ∃ tag_id,
    sql_select_tag_id value (sql_insert_or_ignore_tag value db) = Some tag_id
    ∧ tag_dict_inv (sql_insert_or_ignore_tag value db) (<[value := tag_id]> cache)
    ∧ same_but_tags db (sql_insert_or_ignore_tag value db)
    ∧ (sql_insert_or_ignore_tag value db = db
       ∨ ((value ∉ (tags db).*2)
          ∧ tag_id = Z.of_nat (length (tags db)) + 1
          ∧ tags (sql_insert_or_ignore_tag value db) = tags db ++ [(tag_id, value)]
          ∧ tag_seq (sql_insert_or_ignore_tag value db) = tag_id)).
Proof.
  intros (Hsound & Hnd & Hids & Hseq). unfold sql_insert_or_ignore_tag.
  destruct (sql_select_tag_id value db) as [i|] eqn:Hsel.
  - exists i. split; [done|]. split; [|split; [done | by left]].
    split; [|done]. intros v j. rewrite lookup_insert.
    case_decide as Hv; [|apply Hsound].
    intros [= <-]. subst v. by apply sql_select_tag_id_Some.
  - apply sql_select_tag_id_None in Hsel as Hfresh.
    exists (tag_seq db + 1).
    assert (NoDup (tags db ++ [(tag_seq db + 1, value)]).*2) as Hnd'.
    { rewrite fmap_app. apply NoDup_app. split; [done|]. split.
      - intros v Hv [->|[]%elem_of_nil]%elem_of_cons. done.
      - apply NoDup_singleton. }
    split.
    { apply sql_select_tag_id_unique; [done|]. simpl.
      apply elem_of_app. right. left. }
    split.
    { split; [|split; [done|split]].
      - intros v j. rewrite lookup_insert. simpl.
        case_decide as Hv.
        + intros [= <-]. subst v. apply elem_of_app. right. left.
        + intros Hc. apply elem_of_app. left. by apply Hsound.
      - simpl. rewrite fmap_app, length_app, Hids. simpl.
        rewrite Nat2Z.inj_add, seqZ_app by lia. f_equal.
        rewrite Hseq. change (Z.of_nat 1) with 1.
        rewrite seqZ_cons, seqZ_nil by lia. f_equal. lia.
      - simpl. rewrite length_app. simpl. lia. }
    split; [done|]. right. split; [done|]. split; [lia|]. by split.
Qed.

End TagDictionary.

Section TagDictionaryCalls.
Context {O X : Type}.
Implicit Types (db : Db O X) (conn : Conn O X) (cache : gmap pystr Z).

Lemma get_or_create_tag_id_spec conn cache value :
  tag_dict_inv (conn_db conn) cache →
  ∃ tag_id conn' cache',
    get_or_create_tag_id conn cache value = inr (tag_id, conn', cache')
    ∧ tag_dict_inv (conn_db conn') cache'
    ∧ cache ⊆ cache'
    ∧ cache' !! value = Some tag_id
    ∧ same_but_tags (conn_db conn) (conn_db conn')
    ∧ conn_disk conn' = conn_disk conn
    ∧ (tags (conn_db conn') = tags (conn_db conn)
       ∨ ((value ∉ (tags (conn_db conn)).*2)
          ∧ tag_id = Z.of_nat (length (tags (conn_db conn))) + 1
          ∧ tags (conn_db conn') = tags (conn_db conn) ++ [(tag_id, value)]
          ∧ tag_seq (conn_db conn') = tag_id)).
Proof.
  intros Hinv. unfold get_or_create_tag_id.
  destruct (cache !! value) as [i|] eqn:Hc.
  - exists i, conn, cache. do 6 (split; [done|]). by left.
  - destruct (sql_insert_or_ignore_tag_spec value _ _ Hinv)
      as (i & Hsel & Hinv' & Hsame & Hcases).
    exists i. eexists _, _. simpl. rewrite Hsel. split; [done|]. simpl.
    split; [done|]. split; [by apply insert_subseteq|].
    split; [by rewrite lookup_insert_eq|]. split; [done|]. split; [done|].
    destruct Hcases as [->|?]; [by left | by right].
Qed.

Lemma tag_dict_inv_rows db cache value tag_id :
  tag_dict_inv db cache → cache !! value = Some tag_id →
  tag_rows value db = [(tag_id, value)].
Proof.
  intros (Hsound & Hnd & _) Hc. apply unique_row; [done|]. by apply Hsound.
Qed.

(** C6. On a dictionary of a build (the cache holds ids of rows of [tags],
    no value occurs twice), [get_or_create_tag_id] returns an id and leaves
    exactly one row for the value, carrying that id.  In every later state
    of that dictionary (the cache only grows) a call for the same value
    returns the same id and changes neither the cache nor the connection:
    no statement is executed, the tables and the statement log are the
    same; there is still exactly one row for the value; and the
    association the loader then writes for an existing object is the pair
    of the object and that id. *)
Theorem get_or_create_tag_id_idempotent conn cache value :
  tag_dict_inv (conn_db conn) cache →
  ∃ tag_id conn1 cache1,
    get_or_create_tag_id conn cache value = inr (tag_id, conn1, cache1)
    ∧ tag_dict_inv (conn_db conn1) cache1
    ∧ tag_rows value (conn_db conn1) = [(tag_id, value)]
    ∧ ∀ conn2 cache2,
        tag_dict_inv (conn_db conn2) cache2 → cache1 ⊆ cache2 →
        get_or_create_tag_id conn2 cache2 value = inr (tag_id, conn2, cache2)
        ∧ tag_rows value (conn_db conn2) = [(tag_id, value)]
        ∧ ∀ object_id,
            is_Some (objects (conn_db conn2) !! object_id) →
            ∃ conn3,
              execute_insert_object_tag object_id tag_id conn2 = inr conn3
              ∧ (object_id, tag_id) ∈ object_tags (conn_db conn3)
              ∧ tags (conn_db conn3) = tags (conn_db conn2).
Proof.
  intros Hinv.
  destruct (get_or_create_tag_id_spec conn cache value Hinv)
    as (tag_id & conn1 & cache1 & Hcall & Hinv1 & _ & Hc1 & _).
  exists tag_id, conn1, cache1. split; [done|]. split; [done|].
  split; [by eapply tag_dict_inv_rows|].
  intros conn2 cache2 Hinv2 Hsub.
  assert (cache2 !! value = Some tag_id) as Hc2
    by (by eapply lookup_weaken).
  split; [unfold get_or_create_tag_id; by rewrite Hc2|].
  split; [by eapply tag_dict_inv_rows|].
  intros object_id Hobj. unfold execute_insert_object_tag,
    sql_insert_or_ignore_object_tag.
  destruct Hinv2 as (Hsound & _).
  case_decide as Hin; simpl.
  - eexists. split; [done|]. by simpl.
  - rewrite decide_True.
    + eexists. split; [done|]. simpl. split; [|done].
      apply elem_of_app. right. left.
    + split; [done|]. apply list_elem_of_fmap. exists (tag_id, value).
      split; [done|]. by apply Hsound.
Qed.

End TagDictionaryCalls.

(** ** Statements on objects and associations *)

Section Statements.
Context {O X : Type}.
Implicit Types (db : Db O X) (conn : Conn O X) (cache : gmap pystr Z).

Lemma execute_upsert_object_inv object_id b e (o : O) conn conn' :
  execute_upsert_object object_id b e o conn = inr conn' →
  conn_db conn' = sql_insert_or_replace_object object_id o (conn_db conn)
  ∧ conn_disk conn' = conn_disk conn.
Proof.
  unfold execute_upsert_object. destruct (_ && _); [|done]. by intros [= <-].
Qed.

Lemma sql_insert_or_replace_object_tables object_id (o : O) db :
  let db' := sql_insert_or_replace_object object_id o db in
  build_info db' = build_info db ∧ tags db' = tags db
  ∧ tag_seq db' = tag_seq db ∧ extra db' = extra db ∧ indexes db' = indexes db
  ∧ objects db' = <[object_id := o]> (objects db)
  ∧ object_tags db'
    = (if decide (object_id ∈ dom (objects db))
       then filter (λ ot, ot.1 ≠ object_id) (object_tags db)
       else object_tags db).
Proof.
  unfold sql_insert_or_replace_object.
  destruct (objects db !! object_id) as [old|] eqn:Hold; simpl.
  - rewrite decide_True; [done|]. apply elem_of_dom. by eexists.
  - rewrite decide_False; [done|]. by apply not_elem_of_dom.
Qed.

Lemma sql_insert_or_replace_object_inv object_id (o : O) db cache :
  tag_dict_inv db cache → fk_inv db →
  tag_dict_inv (sql_insert_or_replace_object object_id o db) cache
  ∧ fk_inv (sql_insert_or_replace_object object_id o db).
Proof.
  intros Hdict Hfk.
  destruct (sql_insert_or_replace_object_tables object_id o db)
    as (_ & Htags & Hseq & _ & _ & Hobj & Hot).
  split.
  - unfold tag_dict_inv in *. by rewrite Htags, Hseq.
  - intros oid tid Hin. rewrite Htags, Hobj.
    assert ((oid, tid) ∈ object_tags db) as Hin'.
    { rewrite Hot in Hin. case_decide; [|done].
      by apply list_elem_of_filter in Hin as [_ ?]. }
    destruct (Hfk _ _ Hin') as [Ho Ht]. split; [|done].
    apply lookup_insert_is_Some'. by right.
Qed.

Lemma execute_insert_object_tag_inv object_id tag_id conn conn' :
  execute_insert_object_tag object_id tag_id conn = inr conn' →
  build_info (conn_db conn') = build_info (conn_db conn)
  ∧ tags (conn_db conn') = tags (conn_db conn)
  ∧ tag_seq (conn_db conn') = tag_seq (conn_db conn)
  ∧ extra (conn_db conn') = extra (conn_db conn)
  ∧ indexes (conn_db conn') = indexes (conn_db conn)
  ∧ objects (conn_db conn') = objects (conn_db conn)
  ∧ conn_disk conn' = conn_disk conn
  ∧ object_tags (conn_db conn')
    = (if decide ((object_id, tag_id) ∈ object_tags (conn_db conn))
       then object_tags (conn_db conn)
       else object_tags (conn_db conn) ++ [(object_id, tag_id)])
  ∧ ((object_id, tag_id) ∈ object_tags (conn_db conn)
     ∨ (is_Some (objects (conn_db conn) !! object_id)
        ∧ tag_id ∈ (tags (conn_db conn)).*1)).
Proof.
  unfold execute_insert_object_tag, sql_insert_or_ignore_object_tag.
  case_decide as Hin; simpl.
  - intros [= <-]. simpl. do 8 (split; [done|]). by left.
  - case_decide as Hfk; simpl; [|done].
    intros [= <-]. simpl. do 8 (split; [done|]). by right.
Qed.

Lemma execute_insert_object_tag_fk object_id tag_id conn conn' cache :
  execute_insert_object_tag object_id tag_id conn = inr conn' →
  tag_dict_inv (conn_db conn) cache → fk_inv (conn_db conn) →
  tag_dict_inv (conn_db conn') cache ∧ fk_inv (conn_db conn').
Proof.
  intros (_ & Htags & Hseq & _ & _ & Hobj & _ & Hot & Hcase)%execute_insert_object_tag_inv
    Hdict Hfk.
  split.
  - unfold tag_dict_inv in *. by rewrite Htags, Hseq.
  - intros oid tid. rewrite Hot, Htags, Hobj.
    case_decide as Hin; [apply Hfk|].
    intros [Hin'|[= -> ->]%list_elem_of_singleton]%elem_of_app; [by apply Hfk|].
    by destruct Hcase.
Qed.

Lemma sql_select_tag_id_lockstep {O' X'} db (db2 : Db O' X') value :
  tags db = tags db2 → sql_select_tag_id value db = sql_select_tag_id value db2.
Proof. unfold sql_select_tag_id. by intros ->. Qed.

Lemma sql_insert_or_ignore_tag_lockstep {O' X'} db (db2 : Db O' X') value :
  tags db = tags db2 → tag_seq db = tag_seq db2 →
  tags (sql_insert_or_ignore_tag value db) = tags (sql_insert_or_ignore_tag value db2)
  ∧ tag_seq (sql_insert_or_ignore_tag value db)
    = tag_seq (sql_insert_or_ignore_tag value db2).
Proof.
  intros Htags Hseq. unfold sql_insert_or_ignore_tag.
  rewrite (sql_select_tag_id_lockstep db db2 value Htags).
  destruct (sql_select_tag_id value db2); simpl; [done|].
  by rewrite Htags, Hseq.
Qed.

(** The outcome of a call on the dictionary is a function of the cache,
    of [tags] and of its sequence: two schemas that agree on them get the
    same id and agree afterwards. *)
Lemma get_or_create_tag_id_lockstep {O' X'} conn (conn2 : Conn O' X') cache value :
  tags (conn_db conn) = tags (conn_db conn2) →
  tag_seq (conn_db conn) = tag_seq (conn_db conn2) →
  match get_or_create_tag_id conn cache value,
        get_or_create_tag_id conn2 cache value with
  | inr (tag_id, conn', cache'), inr (tag_id2, conn2', cache2') =>
      tag_id = tag_id2 ∧ cache' = cache2'
      ∧ tags (conn_db conn') = tags (conn_db conn2')
      ∧ tag_seq (conn_db conn') = tag_seq (conn_db conn2')
  | inl _, inl _ => True
  | _, _ => False
  end.
Proof.
  intros Htags Hseq. unfold get_or_create_tag_id.
  destruct (cache !! value) as [i|]; [done|]. simpl.
  destruct (sql_insert_or_ignore_tag_lockstep _ _ value Htags Hseq)
    as [Htags' Hseq'].
  rewrite (sql_select_tag_id_lockstep _ _ value Htags').
  by destruct (sql_select_tag_id value _).
Qed.

End Statements.

(** ** The loader invariant *)

(** One turn of the loop over the tags of a row. *)
Lemma insert_tags_cons_inv object_id tag row_tags ld ld' :
  insert_tags object_id (tag :: row_tags) ld = inr ld' →
  loader_inv ld →
  ∃ ld1,
    insert_tags object_id row_tags ld1 = inr ld'
    ∧ loader_inv ld1
    ∧ objects (conn_db (catalog_conn ld1)) = objects (conn_db (catalog_conn ld))
    ∧ objects (conn_db (pull_conn ld1)) = objects (conn_db (pull_conn ld))
    ∧ (tags (conn_db (catalog_conn ld1))).*2
      = (if decide (tag ∈ (tags (conn_db (catalog_conn ld))).*2)
         then (tags (conn_db (catalog_conn ld))).*2
         else (tags (conn_db (catalog_conn ld))).*2 ++ [tag])
    ∧ build_info (conn_db (catalog_conn ld1))
      = build_info (conn_db (catalog_conn ld))
    ∧ build_info (conn_db (pull_conn ld1)) = build_info (conn_db (pull_conn ld)).
Proof.
  simpl.
  intros Hrun (Hdc & Hdp & Hfc & Hfp & Htags & Hseq & Hcache & Hot & Hdom & Hpd).
  rewrite Hcache in Hrun, Hdc.
  pose proof (get_or_create_tag_id_lockstep (catalog_conn ld) (pull_conn ld)
                (pull_tag_cache ld) tag Htags Hseq) as Hlock.
  destruct (get_or_create_tag_id_spec (catalog_conn ld) _ tag Hdc)
    as (cid & cconn & ccache & Hc & Hdc' & _ & Hcc & Hsc & _ & Hgrow).
  destruct (get_or_create_tag_id_spec (pull_conn ld) _ tag Hdp)
    as (pid & pconn & pcache & Hp & Hdp' & _ & _ & Hsp & _ & _).
  rewrite Hc, Hp in Hrun, Hlock. simpl in Hrun.
  destruct Hlock as (<- & <- & Htags' & Hseq').
  destruct Hsc as (Hbc & Hobjc & Hotc & _). destruct Hsp as (Hbp & Hobjp & Hotp & _).
  destruct (execute_insert_object_tag object_id cid cconn) as [|cconn'] eqn:Hic;
    [done|]. simpl in Hrun.
  destruct (execute_insert_object_tag object_id cid pconn) as [|pconn'] eqn:Hip;
    [done|]. simpl in Hrun.
  assert (fk_inv (conn_db cconn)) as Hfc'.
  { intros o t. rewrite Hotc, Hobjc. intros [? Ht]%Hfc. split; [done|].
    revert Ht. clear -Hc. intros Ht.
    apply get_or_create_tag_id_inv in Hc as [(_ & -> & _)|(_ & _ & -> & _)];
      [done|]. simpl. unfold sql_insert_or_ignore_tag.
    destruct (sql_select_tag_id _ _); [done|]. simpl.
    rewrite fmap_app. apply elem_of_app. by left. }
  assert (fk_inv (conn_db pconn)) as Hfp'.
  { intros o t. rewrite Hotp, Hobjp. intros [? Ht]%Hfp. split; [done|].
    revert Ht. clear -Hp. intros Ht.
    apply get_or_create_tag_id_inv in Hp as [(_ & -> & _)|(_ & _ & -> & _)];
      [done|]. simpl. unfold sql_insert_or_ignore_tag.
    destruct (sql_select_tag_id _ _); [done|]. simpl.
    rewrite fmap_app. apply elem_of_app. by left. }
  destruct (execute_insert_object_tag_fk _ _ _ _ _ Hic Hdc' Hfc') as [Hdc2 Hfc2].
  destruct (execute_insert_object_tag_fk _ _ _ _ _ Hip Hdp' Hfp') as [Hdp2 Hfp2].
  apply execute_insert_object_tag_inv in Hic
    as (Hbc2 & Htc & Hsqc & _ & _ & Hoc & _ & Hotc2 & _).
  apply execute_insert_object_tag_inv in Hip
    as (Hbp2 & Htp & Hsqp & _ & _ & Hop & _ & Hotp2 & _).
  eexists. split; [exact Hrun|]. simpl.
  split; [|split; [congruence|split; [congruence|split; [|split; congruence]]]].
  - unfold loader_inv. simpl.
    do 4 (split; [done|]). split; [congruence|]. split; [congruence|].
    split; [done|]. split.
    { rewrite Hotc2, Hotp2, Hotc, Hotp, Hot. by case_decide. }
    split; [by rewrite Hoc, Hop, Hobjc, Hobjp|].
    intros o obj. rewrite Hop, Hobjp. apply Hpd.
  - rewrite Htc. destruct Hgrow as [Hsame|(Hfresh & _ & Happ & _)].
    + rewrite Hsame. rewrite decide_True; [done|].
      destruct Hdc' as (Hsound & _). apply Hsound in Hcc. rewrite Hsame in Hcc.
      apply list_elem_of_fmap. by exists (cid, tag).
    + rewrite Happ, fmap_app. by rewrite decide_False.
Qed.

Lemma insert_tags_inv object_id row_tags ld ld' :
  insert_tags object_id row_tags ld = inr ld' →
  loader_inv ld →
  loader_inv ld'
  ∧ objects (conn_db (catalog_conn ld')) = objects (conn_db (catalog_conn ld))
  ∧ objects (conn_db (pull_conn ld')) = objects (conn_db (pull_conn ld))
  ∧ (tags (conn_db (catalog_conn ld'))).*2
    = first_occurrences (tags (conn_db (catalog_conn ld))).*2 row_tags
  ∧ build_info (conn_db (catalog_conn ld')) = build_info (conn_db (catalog_conn ld))
  ∧ build_info (conn_db (pull_conn ld')) = build_info (conn_db (pull_conn ld)).
Proof.
  revert ld. induction row_tags as [|tag row_tags IH]; intros ld.
  { by intros [= <-]. }
  intros Hrun Hinv.
  destruct (insert_tags_cons_inv _ _ _ _ _ Hrun Hinv)
    as (ld1 & Hrun1 & Hinv1 & Hoc & Hop & Hvals & Hbc & Hbp).
  destruct (IH _ Hrun1 Hinv1) as (Hinv' & Hoc' & Hop' & Hvals' & Hbc' & Hbp').
  split; [done|]. split; [congruence|]. split; [congruence|].
  split; [|split; congruence].
  simpl. by rewrite Hvals', Hvals.
Qed.

Lemma parse_bool_int_bool raw : parse_bool_int raw = 0 ∨ parse_bool_int raw = 1.
Proof.
  unfold parse_bool_int. destruct raw; [|by left].
  case_bool_decide; [by right | by left].
Qed.

Lemma commit_batch_db ld :
  conn_db (catalog_conn (commit_batch ld)) = conn_db (catalog_conn ld)
  ∧ conn_db (pull_conn (commit_batch ld)) = conn_db (pull_conn ld)
  ∧ catalog_tag_cache (commit_batch ld) = catalog_tag_cache ld
  ∧ pull_tag_cache (commit_batch ld) = pull_tag_cache ld.
Proof. unfold commit_batch. by case_bool_decide. Qed.

Lemma first_occurrences_app seen values values' :
  first_occurrences seen (values ++ values')
  = first_occurrences (first_occurrences seen values) values'.
Proof.
  revert seen. induction values as [|v values IH]; intros seen; [done|].
  simpl. apply IH.
Qed.

Lemma process_row_loader_inv image_map row ld ld' :
  process_row image_map row ld = inr ld' →
  loader_inv ld →
  loader_inv ld'
  ∧ dom (objects (conn_db (catalog_conn ld')))
    = dom (objects (conn_db (catalog_conn ld))) ∪ accepted_ids image_map [row]
  ∧ (tags (conn_db (catalog_conn ld'))).*2
    = first_occurrences (tags (conn_db (catalog_conn ld))).*2
        (accepted_tags image_map row)
  ∧ build_info (conn_db (catalog_conn ld')) = build_info (conn_db (catalog_conn ld))
  ∧ build_info (conn_db (pull_conn ld')) = build_info (conn_db (pull_conn ld)).
Proof.
  intros Hrow Hinv. unfold accepted_ids, accepted_tags. simpl.
  apply process_row_inv in Hrow
    as [(_ & -> & ->)|[(o & p & ps & s & _ & -> & _ & ->)
                     |(o & p & ps & s & cc & pc & ld1 & -> & _ & Huc & Hup & Hins & ->)]].
  - split; [done|]. simpl. split; [by rewrite union_empty_r_L | done].
  - split; [done|]. simpl. split; [by rewrite union_empty_r_L | done].
  - apply execute_upsert_object_inv in Huc as [Hcdb _].
    apply execute_upsert_object_inv in Hup as [Hpdb _].
    destruct Hinv as (Hdc & Hdp & Hfc & Hfp & Htags & Hseq & Hcache & Hot & Hdom & Hpd).
    destruct (sql_insert_or_replace_object_inv o
                (catalog_object row row
                   (parse_bool_int (row_get row "Is Public Domain"))
                   (parse_bool_int (row_get row "Is Highlight")) p ps)
                _ _ Hdc Hfc) as [Hdc1 Hfc1].
    destruct (sql_insert_or_replace_object_inv o
                (pull_object row (parse_bool_int (row_get row "Is Public Domain")) p ps)
                _ _ Hdp Hfp) as [Hdp1 Hfp1].
    destruct (sql_insert_or_replace_object_tables o
                (catalog_object row row
                   (parse_bool_int (row_get row "Is Public Domain"))
                   (parse_bool_int (row_get row "Is Highlight")) p ps)
                (conn_db (catalog_conn ld)))
      as (Hbc & Htc & Hsc & _ & _ & Hoc & Hotc).
    destruct (sql_insert_or_replace_object_tables o
                (pull_object row (parse_bool_int (row_get row "Is Public Domain")) p ps)
                (conn_db (pull_conn ld)))
      as (Hbp & Htp & Hsp & _ & _ & Hop & Hotp).
    rewrite <- Hcdb in *. rewrite <- Hpdb in *.
    apply insert_tags_inv in Hins as (Hinv1 & Hobjc & Hobjp & Hvals & Hbc1 & Hbp1).
    + simpl in Hobjc, Hobjp, Hvals, Hbc1, Hbp1.
      destruct (commit_batch_db (set_stats (incr_rows_with_images (stats ld1)) ld1))
        as (Hc1 & Hc2 & Hc3 & Hc4).
      split; [|split; [|split; [|split]]].
      * unfold loader_inv. rewrite Hc1, Hc2, Hc3, Hc4. apply Hinv1.
      * rewrite Hc1. simpl. rewrite Hobjc, Hoc, dom_insert_L, union_empty_r_L.
        apply union_comm_L.
      * rewrite Hc1. simpl. by rewrite Hvals, Htc.
      * rewrite Hc1. simpl. congruence.
      * rewrite Hc2. simpl. congruence.
    + unfold loader_inv. simpl.
      do 4 (split; [done|]). split; [congruence|]. split; [congruence|].
      split; [done|]. split.
      { rewrite Hotc, Hotp, Hot, Hdom. by case_decide. }
      split; [by rewrite Hoc, Hop, !dom_insert_L, Hdom|].
      intros oid obj. rewrite Hop, lookup_insert.
      destruct (decide (o = oid)); [|intros Hl; exact (Hpd _ _ Hl)].
      intros [= <-]. simpl.
      apply parse_bool_int_bool.
Qed.

Lemma load_rows_loader_inv image_map rows ld ld' :
  load_rows image_map rows ld = (ld', None) →
  loader_inv ld →
  loader_inv ld'
  ∧ dom (objects (conn_db (catalog_conn ld')))
    = dom (objects (conn_db (catalog_conn ld))) ∪ accepted_ids image_map rows
  ∧ (tags (conn_db (catalog_conn ld'))).*2
    = first_occurrences (tags (conn_db (catalog_conn ld))).*2
        (concat (accepted_tags image_map <$> rows))
  ∧ build_info (conn_db (catalog_conn ld')) = build_info (conn_db (catalog_conn ld))
  ∧ build_info (conn_db (pull_conn ld')) = build_info (conn_db (pull_conn ld)).
Proof.
  revert ld. induction rows as [|row rows IH]; intros ld; simpl.
  - intros [= <-] ?. split; [done|]. unfold accepted_ids. simpl.
    split; [by rewrite union_empty_r_L | done].
  - destruct (process_row image_map row ld) as [e|ld1] eqn:Hrow; [done|].
    intros Hload Hinv.
    apply process_row_loader_inv in Hrow as (Hinv1 & Hdom1 & Hv1 & Hbc1 & Hbp1);
      [|done].
    apply IH in Hload as (Hinv' & Hdom' & Hv' & Hbc' & Hbp'); [|done].
    split; [done|]. split; [|split; [|split; congruence]].
    + rewrite Hdom', Hdom1. unfold accepted_ids. simpl.
      destruct (accepted_id image_map row); simpl;
        by rewrite union_empty_r_L, <- ?(assoc_L (∪)).
    + by rewrite Hv', Hv1, first_occurrences_app.
Qed.

Lemma initial_loader_inv build_info : loader_inv (initial_loader build_info).
Proof.
  unfold loader_inv, tag_dict_inv, fk_inv, pd_bool. simpl.
  repeat split; try done; try apply NoDup_nil_2;
    match goal with
    | H : _ ∈ [] |- _ => by apply elem_of_nil in H
    | |- _ => by intros ?? ?%elem_of_nil
    end.
Qed.

(** ** The two databases of a completed build *)

Lemma build_tables env csv_path cache_db_path output_root w w' manifest :
  build_master_dbs env csv_path cache_db_path output_root w = (w', inr manifest) →
  ∃ csv image_map ld dir,
    csv_file env = Some csv
    ∧ load_image_map (cache_db env) = inr image_map
    ∧ load_rows image_map (csv_rows csv)
        (initial_loader (build_info_items (strftime_build_id (clock env))
                           (clock env) csv_path cache_db_path))
      = (ld, None)
    ∧ loader_inv ld
    ∧ dom (objects (conn_db (catalog_conn ld))) = accepted_ids image_map (csv_rows csv)
    ∧ (tags (conn_db (catalog_conn ld))).*2
      = first_occurrences [] (concat (accepted_tags image_map <$> csv_rows csv))
    ∧ releases w' !! m_build_id manifest = Some dir
    ∧ dir !! "catalog_master.db"%string
      = Some (CatalogFile (add_indexes catalog_indexes (conn_db (catalog_conn ld))))
    ∧ dir !! "pull_master.db"%string
      = Some (PullFile (finalized_pull_db (conn_db (pull_conn ld))))
    ∧ m_stats manifest = stats ld
    ∧ out_sha256 (m_catalog_master_db manifest)
      = sha256_file
          (CatalogFile (add_indexes catalog_indexes (conn_db (catalog_conn ld))))
    ∧ out_sha256 (m_pull_master_db manifest)
      = sha256_file (PullFile (finalized_pull_db (conn_db (pull_conn ld))))
    ∧ m_build_id manifest = strftime_build_id (clock env)
    ∧ releases w !! m_build_id manifest = None
    ∧ build_info (conn_db (catalog_conn ld))
      = build_info_items (strftime_build_id (clock env)) (clock env)
          csv_path cache_db_path
    ∧ build_info (conn_db (pull_conn ld))
      = build_info_items (strftime_build_id (clock env)) (clock env)
          csv_path cache_db_path.
Proof.
  intros (csv & image_map & ld & counts & Hcsv & Himg & Hfresh & Hbody & Hst & Hid
          & Hsc & Hsp & Hrel)%build_master_dbs_inr.
  apply try_body_inr in Hbody
    as (ld1 & Hload & _ & _ & Hst1 & Hcat & Hpull & _).
  destruct (load_rows_loader_inv _ _ _ _ Hload (initial_loader_inv _))
    as (Hinv & Hdom & Hvals & Hbc & Hbp).
  exists csv, image_map, ld1. eexists.
  do 4 (split; [done|]). split.
  { rewrite Hdom. simpl. by rewrite dom_empty_L, union_empty_l_L. }
  split; [done|].
  split; [by rewrite Hid|]. rewrite Hsc, Hsp, Hst, Hst1, Hcat, Hpull, Hid.
  by repeat split.
Qed.

(** C2. In the release of a completed build, the [objects] table of the
    catalog database and that of the pull database have the same set of
    [object_id]s, and it is the set of ids of the input rows that pass the
    id filter and the image filter. *)
Theorem build_object_ids_equal env csv_path cache_db_path output_root w w' manifest :
  build_master_dbs env csv_path cache_db_path output_root w = (w', inr manifest) →
  ∃ dir catalog_db pull_db csv image_map,
    releases w' !! m_build_id manifest = Some dir
    ∧ dir !! "catalog_master.db"%string = Some (CatalogFile catalog_db)
    ∧ dir !! "pull_master.db"%string = Some (PullFile pull_db)
    ∧ dom (objects catalog_db) = dom (objects pull_db)
    ∧ csv_file env = Some csv
    ∧ load_image_map (cache_db env) = inr image_map
    ∧ dom (objects catalog_db) = accepted_ids image_map (csv_rows csv).
Proof.
  intros (csv & image_map & ld & dir & Hcsv & Himg & _ & Hinv & Hdom & _ & Hrel
          & Hc & Hp & _)%build_tables.
  destruct Hinv as (_ & _ & _ & _ & _ & _ & _ & _ & Hdoms & _).
  exists dir. eexists _, _. exists csv, image_map.
  do 3 (split; [done|]). simpl. by rewrite <- Hdoms.
Qed.

(** C10. In the release of a completed build, the [tags] tables of the two
    databases are the same list of rows (same values, same id for each
    value); the ids are 1, 2, ... in table order, no value occurs twice, and
    the values are, in table order, the tag values of the accepted rows in
    the order of their first occurrence. *)
Theorem build_tags_tables_equal env csv_path cache_db_path output_root w w' manifest :
  build_master_dbs env csv_path cache_db_path output_root w = (w', inr manifest) →
  ∃ dir catalog_db pull_db,
    releases w' !! m_build_id manifest = Some dir
    ∧ dir !! "catalog_master.db"%string = Some (CatalogFile catalog_db)
    ∧ dir !! "pull_master.db"%string = Some (PullFile pull_db)
    ∧ tags catalog_db = tags pull_db
    ∧ (tags catalog_db).*1 = seqZ 1 (Z.of_nat (length (tags catalog_db)))
    ∧ NoDup (tags catalog_db).*2
    ∧ ∃ csv image_map,
        csv_file env = Some csv
        ∧ load_image_map (cache_db env) = inr image_map
        ∧ (tags catalog_db).*2
          = first_occurrences []
              (concat (accepted_tags image_map <$> csv_rows csv)).
Proof.
  intros (csv & image_map & ld & dir & Hcsv & Himg & _ & Hinv & _ & Hvals & Hrel
          & Hc & Hp & _)%build_tables.
  destruct Hinv as ((_ & Hnd & Hids & _) & _ & _ & _ & Htags & _).
  exists dir. eexists _, _. do 6 (split; [done|]).
  by exists csv, image_map.
Qed.

(** ** C8: tag statistics *)

Lemma group_by_tag_id_fold (joined : list (Z * Z)) (groups : gmap Z TagStat) tag_id :
  foldl (λ groups row,
           let g := default zero_stat (groups !! row.1) in
           <[row.1 := {| object_count := object_count g + 1;
                         public_domain_count := public_domain_count g + row.2 |}]>
             groups) groups joined !! tag_id
  = match filter (λ row, row.1 = tag_id) joined with
    | [] => groups !! tag_id
    | rows =>
        Some {| object_count :=
                  object_count (default zero_stat (groups !! tag_id))
                  + Z.of_nat (length rows);
                public_domain_count :=
                  public_domain_count (default zero_stat (groups !! tag_id))
                  + sum_list rows.*2 |}
    end.
Proof.
  revert groups. induction joined as [|[t pd] joined IH]; intros groups; [done|].
  simpl foldl. rewrite IH. rewrite filter_cons. simpl.
  destruct (decide (t = tag_id)) as [->|Hne].
  - rewrite lookup_insert_eq. simpl.
    destruct (filter _ joined) as [|r rows]; simpl.
    + f_equal. f_equal; lia.
    + f_equal. f_equal; lia.
  - by rewrite lookup_insert_ne.
Qed.

Lemma omap_cons_eq {A B} (f : A → option B) (x : A) (l : list A) :
  omap f (x :: l) = match f x with Some y => y :: omap f l | None => omap f l end.
Proof. done. Qed.

Lemma join_object_tags_rows (db : PullDb) tag_id :
  fk_inv db → pd_bool db →
  length (filter (λ row, row.1 = tag_id) (join_object_tags db))
  = length (filter (λ ot, ot.2 = tag_id) (object_tags db))
  ∧ sum_list (filter (λ row, row.1 = tag_id) (join_object_tags db)).*2
    = Z.of_nat (length (filter (λ ot, ot.2 = tag_id ∧ public_domain_object db ot.1)
                          (object_tags db))).
Proof.
  intros Hfk Hpd. unfold join_object_tags.
  assert (∀ ot, ot ∈ object_tags db → is_Some (objects db !! ot.1)) as Hall.
  { intros [o t] Hin. by apply Hfk in Hin as [? _]. }
  induction (object_tags db) as [|[o t] l IH]; [done|].
  destruct (Hall (o, t)) as [obj Hobj]; [left|]. simpl in Hobj.
  destruct IH as [IH1 IH2]; [intros ot Hot; apply Hall; by right|].
  rewrite omap_cons_eq. simpl (_.1). rewrite Hobj. simpl.
  rewrite !filter_cons. simpl.
  destruct (decide (t = tag_id)) as [->|Hne].
  - simpl. split; [by rewrite IH1|].
    destruct (Hpd _ _ Hobj) as [Hz|Hz]; rewrite Hz.
    + rewrite decide_False; [by rewrite <- IH2|].
      intros [_ Hp]. unfold public_domain_object in Hp.
      rewrite Hobj in Hp. simpl in Hp. congruence.
    + rewrite decide_True;
        [simpl length; rewrite Nat2Z.inj_succ, <- IH2; apply Z.add_1_l|].
      split; [done|]. unfold public_domain_object.
      rewrite Hobj. simpl. congruence.
  - rewrite decide_False by (by intros [? _]). done.
Qed.

(** C8. In the pull database of a completed build, every tag id that occurs
    in [object_tags] has a row in [tag_stats] whose [object_count] is the
    number of [object_tags] rows with that tag id and whose
    [public_domain_count] is the number of those rows whose object has
    [is_public_domain = 1]; a tag id that does not occur has no row.  The
    table released is the one the finalization computed from the final
    tables. *)
Theorem build_tag_stats env csv_path cache_db_path output_root w w' manifest :
  build_master_dbs env csv_path cache_db_path output_root w = (w', inr manifest) →
  ∃ dir pull_db,
    releases w' !! m_build_id manifest = Some dir
    ∧ dir !! "pull_master.db"%string = Some (PullFile pull_db)
    ∧ ∀ tag_id,
        extra pull_db !! tag_id
        = if decide (tag_id ∈ (object_tags pull_db).*2)
          then Some {| object_count :=
                         Z.of_nat (length (filter (λ ot, ot.2 = tag_id)
                                             (object_tags pull_db)));
                       public_domain_count :=
                         Z.of_nat (length (filter
                                             (λ ot, ot.2 = tag_id
                                                    ∧ public_domain_object pull_db ot.1)
                                             (object_tags pull_db))) |}
          else None.
Proof.
  intros (csv & image_map & ld & dir & _ & _ & _ & Hinv & _ & _ & Hrel & _ & Hp & _)
    %build_tables.
  destruct Hinv as (_ & _ & _ & Hfk & _ & _ & _ & _ & _ & Hpd).
  exists dir. eexists. do 2 (split; [done|]). intros tag_id.
  set (db := conn_db (pull_conn ld)) in *.
  change (extra (finalized_pull_db db)) with (group_by_tag_id (join_object_tags db)).
  change (object_tags (finalized_pull_db db)) with (object_tags db).
  assert (∀ o, public_domain_object (finalized_pull_db db) o
               ↔ public_domain_object db o) as Hsame by done.
  unfold group_by_tag_id. rewrite (group_by_tag_id_fold _ ∅ tag_id).
  destruct (join_object_tags_rows db tag_id Hfk Hpd) as [Hlen Hsum].
  destruct (filter (λ row, row.1 = tag_id) (join_object_tags db)) as [|r rows] eqn:E.
  - rewrite lookup_empty. rewrite decide_False; [done|].
    intros ([o t] & -> & Hin)%list_elem_of_fmap. simpl in Hlen.
    assert ((o, t) ∈ filter (λ ot, ot.2 = t) (object_tags db)) as Hf
      by (by apply list_elem_of_filter).
    destruct (filter (λ ot, ot.2 = t) (object_tags db)); [|done].
    by apply elem_of_nil in Hf.
  - rewrite lookup_empty. simpl default. rewrite decide_True.
    + f_equal. f_equal; [by rewrite <- Hlen|]. rewrite Hsum. done.
    + destruct (filter (λ ot, ot.2 = tag_id) (object_tags db)) as [|[o t] l] eqn:E2;
        [done|].
      assert ((o, t) ∈ filter (λ ot, ot.2 = tag_id) (object_tags db)) as Hf
        by (rewrite E2; left).
      apply list_elem_of_filter in Hf as [Ht Hin]. simpl in Ht. subst t.
      apply list_elem_of_fmap. by exists (o, tag_id).
Qed.

(** ** C3: failure of the pass or of the finalization *)


(** C3. If the [try] block raises (a row of the pass, the reader, or the
    finalization), the build returns that exception; both connections are
    closed, then the release directory with the two database files is
    removed; nothing else happens: no checksum listing and no manifest are
    written, nothing is copied, [releases], [current] and [CURRENT_BUILD]
    are as before the build. *)
Theorem build_failure_cleanup env csv_path cache_db_path output_root w
    csv image_map ld e :
  csv_file env = Some csv →
  load_image_map (cache_db env) = inr image_map →
  releases w !! strftime_build_id (clock env) = None →
  try_body env image_map (strftime_build_id (clock env))
    csv_path cache_db_path csv = (ld, inl e) →
  ∃ w',
    build_master_dbs env csv_path cache_db_path output_root w = (w', inl e)
    ∧ releases w' !! strftime_build_id (clock env) = None
    ∧ releases w' = releases w
    ∧ current w' = current w
    ∧ current_build w' = current_build w
    ∧ trace w'
      = trace w
        ++ [EvMkdirRelease (strftime_build_id (clock env));
            EvClose "catalog_master.db"; EvClose "pull_master.db";
            EvRmtreeRelease (strftime_build_id (clock env));
            EvClose "catalog_master.db"; EvClose "pull_master.db"].
Proof.
  intros Hcsv Himg Hrel Hbody. unfold build_master_dbs.
  rewrite Hcsv, Himg, Hrel, Hbody. eexists. split; [done|]. simpl.
  split; [by rewrite lookup_delete_eq|].
  split; [|split; [done|split; [done|]]].
  - rewrite delete_insert_eq, delete_insert_eq. by apply delete_id.
  - by rewrite <- app_assoc.
Qed.

(** ** C4: the publish step *)

Lemma copytree_complete faults (src copied : Dir) :
  copytree faults src = (copied, true) → copied = src.
Proof.
  unfold copytree. intros [= <- Hall%bool_decide_eq_true].
  apply map_filter_id. intros name f Hf. simpl.
  rewrite Forall_forall in Hall. intros Hin%Hall. congruence.
Qed.

(** C4 (as the code has it). The publish step removes [current] if it
    exists, then copies the release into its place, and writes the marker
    only after a copy that completed: whenever the marker is written,
    [current] is the whole release and the marker names the build; the
    effects occur in that order.  When the step fails, the marker is as
    before, and [current] holds the entries that could be copied (nothing
    is cleaned up). *)
Theorem publish_marker_after_copy faults release_dir build_id w w' r :
  publish_current_release faults release_dir build_id w = (w', r) →
  releases w' = releases w
  ∧ match r with
    | inr _ =>
        current w' = releases w !! release_dir
        ∧ is_Some (current w')
        ∧ current_build w' = Some (build_id ++ [10%N])
        ∧ trace w'
          = trace w
            ++ rmtree_events (current w)
            ++ [EvCopytree release_dir; EvWriteMarker build_id]
    | inl _ =>
        current_build w' = current_build w
        ∧ (EvWriteMarker build_id ∉ drop (length (trace w)) (trace w'))
        ∧ match releases w !! release_dir with
          | None => current w' = None
          | Some src =>
              current w' = Some (filter (λ kv, kv.1 ∉ faults) src)
              ∧ trace w'
                = trace w
                  ++ rmtree_events (current w)
                  ++ [EvCopytree release_dir]
          end
    end.
Proof.
  unfold publish_current_release.
  set (w0 := match current w with
             | Some _ => log [EvRmtreeCurrent] (set_current None w)
             | None => w
             end).
  assert (releases w0 = releases w) as Hr0 by (unfold w0; by destruct (current w)).
  assert (current_build w0 = current_build w) as Hb0
    by (unfold w0; by destruct (current w)).
  assert (trace w0 = trace w ++ rmtree_events (current w)) as Ht0.
  { unfold w0. destruct (current w); simpl; [done | by rewrite app_nil_r]. }
  assert (current w0 = None) as Hc0.
  { unfold w0. by destruct (current w) eqn:E. }
  clearbody w0. rewrite Hr0.
  destruct (releases w !! release_dir) as [src|].
  - destruct (copytree faults src) as [copied complete] eqn:Hcopy.
    destruct complete; intros [= <- <-]; simpl.
    + apply copytree_complete in Hcopy as ->.
      split; [done|]. split; [done|]. split; [by eexists|]. split; [done|].
      by rewrite Ht0, <- !app_assoc.
    + split; [done|]. split; [done|]. rewrite Ht0, <- app_assoc, drop_app_length.
      split; [|injection Hcopy as <- _; done].
      intros [Hin|[[=]|[]%elem_of_nil]%elem_of_cons]%elem_of_app.
      by destruct (current w); [apply list_elem_of_singleton in Hin
                               |apply elem_of_nil in Hin].
  - intros [= <- <-]. split; [done|]. split; [done|]. split; [|done].
    rewrite Ht0, drop_app_length.
    intros Hin.
    by destruct (current w); [apply list_elem_of_singleton in Hin
                             |apply elem_of_nil in Hin].
Qed.

(** ** C5: what two builds on the same input share *)

Section Erase.
Context {O X : Type}.

Lemma execute_upsert_object_erase object_id b e (o : O) conn :
  execute_upsert_object object_id b e o (erase_conn conn)
  = sum_map id (@erase_conn O X) (execute_upsert_object object_id b e o conn).
Proof.
  unfold execute_upsert_object. destruct (_ && _); [|done]. simpl.
  unfold execute, erase_conn. simpl. f_equal. f_equal.
  unfold sql_insert_or_replace_object. simpl.
  by destruct (objects (conn_db conn) !! object_id).
Qed.

Lemma sql_insert_or_ignore_tag_erase value (db : Db O X) :
  sql_insert_or_ignore_tag value (erase_build_info db)
  = erase_build_info (sql_insert_or_ignore_tag value db).
Proof.
  unfold sql_insert_or_ignore_tag.
  change (sql_select_tag_id value (erase_build_info db))
    with (sql_select_tag_id value db).
  by destruct (sql_select_tag_id value db).
Qed.

Lemma get_or_create_tag_id_erase conn cache value :
  get_or_create_tag_id (erase_conn conn) cache value
  = sum_map id (λ r : Z * Conn O X * gmap pystr Z,
                  (r.1.1, erase_conn r.1.2, r.2))
      (get_or_create_tag_id conn cache value).
Proof.
  unfold get_or_create_tag_id. destruct (cache !! value); [done|]. simpl.
  rewrite sql_insert_or_ignore_tag_erase.
  change (sql_select_tag_id value (erase_build_info ?db))
    with (sql_select_tag_id value db).
  destruct (sql_select_tag_id value _); [|done]. simpl.
  unfold execute, erase_conn. simpl.
  by rewrite sql_insert_or_ignore_tag_erase.
Qed.

Lemma execute_insert_object_tag_erase object_id tag_id conn :
  execute_insert_object_tag object_id tag_id (erase_conn conn)
  = sum_map id (@erase_conn O X) (execute_insert_object_tag object_id tag_id conn).
Proof.
  unfold execute_insert_object_tag, sql_insert_or_ignore_object_tag. simpl.
  repeat case_decide; done.
Qed.

End Erase.

Lemma insert_tags_erase object_id row_tags ld :
  insert_tags object_id row_tags (erase_loader ld)
  = sum_map id erase_loader (insert_tags object_id row_tags ld).
Proof.
  revert ld. induction row_tags as [|tag row_tags IH]; intros ld; [done|].
  simpl. rewrite !get_or_create_tag_id_erase.
  destruct (get_or_create_tag_id (catalog_conn ld) _ tag)
    as [|[[cid cconn] ccache]]; [done|]. simpl.
  destruct (get_or_create_tag_id (pull_conn ld) _ tag)
    as [|[[pid pconn] pcache]]; [done|]. simpl.
  rewrite !execute_insert_object_tag_erase.
  destruct (execute_insert_object_tag object_id cid cconn) as [|cconn']; [done|].
  simpl.
  destruct (execute_insert_object_tag object_id pid pconn) as [|pconn']; [done|].
  simpl. apply (IH {| catalog_conn := cconn'; pull_conn := pconn';
                      catalog_tag_cache := ccache; pull_tag_cache := pcache;
                      stats := stats ld |}).
Qed.

Lemma commit_batch_erase ld :
  commit_batch (erase_loader ld) = erase_loader (commit_batch ld).
Proof. unfold commit_batch. simpl. by case_bool_decide. Qed.

Lemma process_row_erase image_map row ld :
  process_row image_map row (erase_loader ld)
  = sum_map id erase_loader (process_row image_map row ld).
Proof.
  unfold process_row.
  destruct (parse_int_or_none (row_get row "Object ID")) as [object_id|]; [|done].
  simpl stats.
  destruct (resolve_images image_map row object_id _) as [[p ps] s].
  destruct (negb (Py.truthy p) && negb (Py.truthy ps)); [done|].
  destruct (json_dumps row) as [|metadata_json]; [done|]. simpl.
  rewrite !execute_upsert_object_erase.
  destruct (execute_upsert_object _ _ _ _ (catalog_conn ld)) as [|cconn]; [done|].
  simpl.
  destruct (execute_upsert_object _ _ _ _ (pull_conn ld)) as [|pconn]; [done|].
  simpl.
  match goal with |- context [insert_tags ?o ?ts ?l] =>
    change l with (erase_loader
                     {| catalog_conn := cconn; pull_conn := pconn;
                        catalog_tag_cache := catalog_tag_cache ld;
                        pull_tag_cache := pull_tag_cache ld;
                        stats := stats l |})
  end.
  rewrite insert_tags_erase.
  destruct (insert_tags _ _ _) as [|ld1]; [done|]. simpl.
  f_equal. apply (commit_batch_erase (set_stats _ ld1)).
Qed.

Lemma load_rows_erase image_map rows ld :
  load_rows image_map rows (erase_loader ld)
  = (erase_loader (load_rows image_map rows ld).1,
     (load_rows image_map rows ld).2).
Proof.
  revert ld. induction rows as [|row rows IH]; intros ld; [done|].
  simpl. rewrite process_row_erase.
  destruct (process_row image_map row ld) as [|ld1]; [done|]. simpl. apply IH.
Qed.

Lemma initial_loader_erase build_info build_info' :
  erase_loader (initial_loader build_info)
  = erase_loader (initial_loader build_info').
Proof. done. Qed.

Lemma erase_build_info_eq {O X} (db db' : Db O X) :
  erase_build_info db = erase_build_info db' →
  build_info db = build_info db' → db = db'.
Proof.
  destruct db, db'. unfold erase_build_info, set_build_info. simpl.
  intros [= -> -> -> -> -> ->] ->. done.
Qed.

(** C5 (as the code has it). Two completed builds on the same rows and the
    same image cache report the same counters, and their databases are the
    same except for the [build_info] rows (build id, timestamp, source
    paths): the same objects, tags, associations, tag statistics and
    indexes.  The digests recorded for two such files are equal when their
    [build_info] rows are equal too; they cannot be when the second build
    runs where the release of the first exists (the same output root):
    the build ids then differ, and so do the two catalog files and the two
    pull files. *)
Theorem build_reproducible_up_to_build_info
    env1 csv_path1 cache_db_path1 output_root1 w1 w1' manifest1
    env2 csv_path2 cache_db_path2 output_root2 w2 w2' manifest2 :
  csv_file env1 = csv_file env2 →
  cache_db env1 = cache_db env2 →
  build_master_dbs env1 csv_path1 cache_db_path1 output_root1 w1
  = (w1', inr manifest1) →
  build_master_dbs env2 csv_path2 cache_db_path2 output_root2 w2
  = (w2', inr manifest2) →
  m_stats manifest1 = m_stats manifest2
  ∧ ∃ dir1 dir2 catalog1 catalog2 pull1 pull2,
      releases w1' !! m_build_id manifest1 = Some dir1
      ∧ releases w2' !! m_build_id manifest2 = Some dir2
      ∧ dir1 !! "catalog_master.db"%string = Some (CatalogFile catalog1)
      ∧ dir2 !! "catalog_master.db"%string = Some (CatalogFile catalog2)
      ∧ dir1 !! "pull_master.db"%string = Some (PullFile pull1)
      ∧ dir2 !! "pull_master.db"%string = Some (PullFile pull2)
      ∧ erase_build_info catalog1 = erase_build_info catalog2
      ∧ erase_build_info pull1 = erase_build_info pull2
      ∧ (build_info catalog1 = build_info catalog2 →
         out_sha256 (m_catalog_master_db manifest1)
         = out_sha256 (m_catalog_master_db manifest2))
      ∧ (build_info pull1 = build_info pull2 →
         out_sha256 (m_pull_master_db manifest1)
         = out_sha256 (m_pull_master_db manifest2))
      ∧ (is_Some (releases w2 !! m_build_id manifest1) →
         m_build_id manifest1 ≠ m_build_id manifest2
         ∧ catalog1 ≠ catalog2 ∧ pull1 ≠ pull2).
Proof.
  intros Hcsv Hcache
    (csv & image_map & ld1 & dir1 & Hcsv1 & Himg1 & Hload1 & _ & _ & _ & Hrel1 & Hc1
     & Hp1 & Hst1 & Hsc1 & Hsp1 & Hid1 & _ & Hbc1 & Hbp1)%build_tables
    (csv' & image_map' & ld2 & dir2 & Hcsv2 & Himg2 & Hload2 & _ & _ & _ & Hrel2 & Hc2
     & Hp2 & Hst2 & Hsc2 & Hsp2 & Hid2 & Hfresh2 & Hbc2 & Hbp2)%build_tables.
  assert (csv' = csv) as -> by congruence.
  assert (image_map' = image_map) as -> by congruence.
  assert (erase_loader ld1 = erase_loader ld2) as Herase.
  { pose proof (load_rows_erase image_map (csv_rows csv) (initial_loader
       (build_info_items (strftime_build_id (clock env1)) (clock env1)
          csv_path1 cache_db_path1))) as E1.
    pose proof (load_rows_erase image_map (csv_rows csv) (initial_loader
       (build_info_items (strftime_build_id (clock env2)) (clock env2)
          csv_path2 cache_db_path2))) as E2.
    rewrite Hload1 in E1. rewrite Hload2 in E2.
    rewrite (initial_loader_erase _ (build_info_items
               (strftime_build_id (clock env2)) (clock env2)
               csv_path2 cache_db_path2)) in E1.
    rewrite E2 in E1. by apply (f_equal fst) in E1. }
  assert (erase_build_info (conn_db (catalog_conn ld1))
          = erase_build_info (conn_db (catalog_conn ld2))) as Hec
    by apply (f_equal (λ ld, conn_db (catalog_conn ld)) Herase).
  assert (erase_build_info (conn_db (pull_conn ld1))
          = erase_build_info (conn_db (pull_conn ld2))) as Hep
    by apply (f_equal (λ ld, conn_db (pull_conn ld)) Herase).
  assert (erase_build_info
            (add_indexes catalog_indexes (conn_db (catalog_conn ld1)))
          = erase_build_info
              (add_indexes catalog_indexes (conn_db (catalog_conn ld2)))) as Hfc.
  { change (add_indexes catalog_indexes (erase_build_info (conn_db (catalog_conn ld1)))
            = add_indexes catalog_indexes
                (erase_build_info (conn_db (catalog_conn ld2)))).
    by rewrite Hec. }
  assert (erase_build_info (finalized_pull_db (conn_db (pull_conn ld1)))
          = erase_build_info (finalized_pull_db (conn_db (pull_conn ld2)))) as Hfp.
  { change (finalized_pull_db (erase_build_info (conn_db (pull_conn ld1)))
            = finalized_pull_db (erase_build_info (conn_db (pull_conn ld2)))).
    by rewrite Hep. }
  split; [rewrite Hst1, Hst2; apply (f_equal stats Herase)|].
  exists dir1, dir2. eexists _, _, _, _.
  do 6 (split; [done|]). split; [done|]. split; [done|].
  split; [|split].
  - intros Hbi. rewrite Hsc1, Hsc2. do 2 f_equal. by apply erase_build_info_eq.
  - intros Hbi. rewrite Hsp1, Hsp2. do 2 f_equal. by apply erase_build_info_eq.
  - intros Hexists.
    assert (m_build_id manifest1 ≠ m_build_id manifest2) as Hne.
    { intros Heq. rewrite Heq, Hfresh2 in Hexists. by destruct Hexists. }
    split; [done|]. rewrite Hid1, Hid2 in Hne.
    split; intros Heq.
    + apply (f_equal build_info) in Heq. simpl in Heq.
      rewrite Hbc1, Hbc2 in Heq. apply (f_equal head) in Heq. simpl in Heq.
      congruence.
    + apply (f_equal build_info) in Heq. simpl in Heq.
      rewrite Hbp1, Hbp2 in Heq. apply (f_equal head) in Heq. simpl in Heq.
      congruence.
Qed.

(** * Further properties *)

(** ** The row normalizer *)

Lemma lstrip_app_space (pre s : pystr) :
  Forall (λ c, Py.isspace c = true) pre → Py.lstrip (pre ++ s) = Py.lstrip s.
Proof. induction 1 as [|c pre Hc _ IH]; [done|]. simpl. by rewrite Hc. Qed.

Lemma lstrip_app (s t : pystr) :
  Py.lstrip (s ++ t)
  = match Py.lstrip s with [] => Py.lstrip t | _ => Py.lstrip s ++ t end.
Proof. induction s as [|c s IH]; [done|]. simpl. by destruct (Py.isspace c). Qed.

Lemma lstrip_space (s : pystr) :
  Forall (λ c, Py.isspace c = true) s → Py.lstrip s = [].
Proof. induction 1 as [|c s Hc _ IH]; [done|]. simpl. by rewrite Hc. Qed.

Lemma rstrip_app_space (s suf : pystr) :
  Forall (λ c, Py.isspace c = true) suf → Py.rstrip (s ++ suf) = Py.rstrip s.
Proof.
  intros Hsuf. unfold Py.rstrip. rewrite reverse_app, lstrip_app_space; [done|].
  rewrite Forall_forall in Hsuf |- *. intros c Hc. apply Hsuf.
  by apply elem_of_reverse.
Qed.

(** Whitespace around a string does not change what [strip] returns. *)
Lemma strip_padded (pre s suf : pystr) :
  Forall (λ c, Py.isspace c = true) pre → Forall (λ c, Py.isspace c = true) suf →
  Py.strip (pre ++ s ++ suf) = Py.strip s.
Proof.
  intros Hpre Hsuf. unfold Py.strip. rewrite lstrip_app_space by done.
  rewrite lstrip_app. destruct (Py.lstrip s) as [|c m] eqn:E.
  - by rewrite lstrip_space.
  - by rewrite rstrip_app_space.
Qed.

Lemma strip_idemp (s : pystr) : Py.strip (Py.strip s) = Py.strip s.
Proof.
  destruct (strip_spec s) as (pre & suf & Heq & Hpre & Hsuf & _).
  rewrite <- (strip_padded pre (Py.strip s) suf) by done. by rewrite <- Heq.
Qed.

Lemma strip_space (s : pystr) :
  Forall (λ c, Py.isspace c = true) s ↔ Py.strip s = [].
Proof.
  split.
  - intros Hs. unfold Py.strip. by rewrite lstrip_space.
  - intros E. destruct (strip_spec s) as (pre & suf & Heq & Hpre & Hsuf & _).
    rewrite Heq, E. apply Forall_app. by split.
Qed.

Lemma strip_sublist (s : pystr) c : c ∈ Py.strip s → c ∈ s.
Proof.
  destruct (strip_spec s) as (pre & suf & Heq & _). intros Hc.
  rewrite Heq. apply elem_of_app. right. apply elem_of_app. by left.
Qed.

(** X1. [text] of an absent field is the empty string; its result has no
    whitespace at either end; applying it again changes nothing; and
    whitespace around the field does not change the result. *)
Theorem text_trimmed_idempotent :
  text None = [] ∧ text (Some []) = []
  ∧ ∀ raw : option pystr,
      text (Some (text raw)) = text raw
      ∧ (∀ c, head (text raw) = Some c → Py.isspace c = false)
      ∧ (∀ c, last (text raw) = Some c → Py.isspace c = false)
      ∧ ∀ s pre suf,
          raw = Some s →
          Forall (λ c, Py.isspace c = true) pre →
          Forall (λ c, Py.isspace c = true) suf →
          text (Some (pre ++ s ++ suf)) = text raw.
Proof.
  split; [done|]. split; [done|]. intros raw. unfold text. simpl.
  split; [apply strip_idemp|].
  destruct (strip_spec (default [] raw)) as (pre & suf & _ & _ & _ & Hhd & Hlast).
  split; [done|]. split; [done|].
  intros s pre' suf' -> Hpre Hsuf. simpl. by apply strip_padded.
Qed.

(** X2. [parse_int_or_none] returns [None] for an absent field and for a
    field that is empty or only whitespace, whatever [int] does; every
    other field is trimmed and then given to [int], so whitespace around a
    field does not change the result. *)
Theorem parse_int_or_none_blank_and_padding :
  parse_int_or_none None = None
  ∧ ∀ raw : pystr,
      (Forall (λ c, Py.isspace c = true) raw → parse_int_or_none (Some raw) = None)
      ∧ (¬ Forall (λ c, Py.isspace c = true) raw →
         parse_int_or_none (Some raw) = py_int (Py.strip raw))
      ∧ ∀ pre suf,
          Forall (λ c, Py.isspace c = true) pre →
          Forall (λ c, Py.isspace c = true) suf →
          parse_int_or_none (Some (pre ++ raw ++ suf)) = parse_int_or_none (Some raw).
Proof.
  split; [done|]. intros raw. unfold parse_int_or_none. split; [|split].
  - intros Hs. apply strip_space in Hs. by rewrite Hs.
  - intros Hs. destruct (Py.strip raw) eqn:E; [|done].
    destruct Hs. by apply strip_space.
  - intros pre suf Hpre Hsuf. by rewrite strip_padded.
Qed.

(** X3. [parse_bool_int] returns 0 or 1: 0 for an absent field, and 1
    exactly when the field, trimmed and in lower case, is one of "1",
    "true", "t", "yes", "y"; whitespace around the field does not change
    the result. *)
Theorem parse_bool_int_values :
  parse_bool_int None = 0
  ∧ ∀ raw : pystr,
      (parse_bool_int (Some raw) = 0 ∨ parse_bool_int (Some raw) = 1)
      ∧ (parse_bool_int (Some raw) = 1
         ↔ py_lower (Py.strip raw)
           ∈ [Py.lit "1"; Py.lit "true"; Py.lit "t"; Py.lit "yes"; Py.lit "y"])
      ∧ ∀ pre suf,
          Forall (λ c, Py.isspace c = true) pre →
          Forall (λ c, Py.isspace c = true) suf →
          parse_bool_int (Some (pre ++ raw ++ suf)) = parse_bool_int (Some raw).
Proof.
  split; [done|]. intros raw. split; [apply parse_bool_int_bool|].
  unfold parse_bool_int. split.
  - case_bool_decide as Hin; [by split|]. split; [done|]. intros Hin'. by destruct Hin.
  - intros pre suf Hpre Hsuf. by rewrite strip_padded.
Qed.

Lemma split_no_sep_id sep (p : pystr) : sep ∉ p → Py.split sep p = [p].
Proof.
  induction p as [|c p IH]; [done|]. intros Hp. simpl.
  destruct (N.eqb_spec c sep) as [->|Hne]; [by destruct Hp; left|].
  rewrite IH; [done|]. intros Hin. apply Hp. by right.
Qed.

Lemma split_app_sep sep (p t : pystr) :
  sep ∉ p → Py.split sep (p ++ sep :: t) = p :: Py.split sep t.
Proof.
  induction p as [|c p IH]; intros Hp; simpl.
  - by rewrite N.eqb_refl.
  - destruct (N.eqb_spec c sep) as [->|Hne]; [by destruct Hp; left|].
    rewrite IH; [done|]. intros Hin. apply Hp. by right.
Qed.

(** [split] inverts [join] on segments that do not hold the separator. *)
Lemma split_join sep (segs : list pystr) :
  segs ≠ [] → Forall (λ seg, sep ∉ seg) segs →
  Py.split sep (Py.join sep segs) = segs.
Proof.
  induction segs as [|p segs IH]; [done|]. intros _ [Hp Hsegs]%Forall_cons.
  destruct segs as [|q segs]; [by apply split_no_sep_id|].
  change (Py.join sep (p :: q :: segs)) with (p ++ sep :: Py.join sep (q :: segs)).
  rewrite split_app_sep by done. by rewrite IH.
Qed.

Lemma parse_tags_no_sep (raw t : pystr) : t ∈ parse_tags (Some raw) → 124%N ∉ t.
Proof.
  intros (_ & seg & Hseg & ->)%parse_tags_elem_of Hin.
  apply strip_sublist in Hin.
  pose proof (split_no_sep 124%N raw) as Hall.
  rewrite Forall_forall in Hall. by apply (Hall seg).
Qed.

Lemma filter_all {A} (P : A → Prop) `{!∀ x, Decision (P x)} (l : list A) :
  Forall P l → filter P l = l.
Proof.
  induction 1 as [|x l Hx _ IH]; [done|]. by rewrite filter_cons_True, IH.
Qed.

(** X4. The list [parse_tags] returns is a fixed point: joined with "|"
    and parsed again it is returned unchanged; and the result depends only
    on which segments the input has, not on their order or repetition. *)
Theorem parse_tags_canonical :
  (∀ raw : pystr,
     parse_tags (Some (Py.join 124%N (parse_tags (Some raw)))) = parse_tags (Some raw))
  ∧ (∀ segs segs' : list pystr,
       segs ≠ [] → segs' ≠ [] →
       Forall (λ seg, 124%N ∉ seg) segs → Forall (λ seg, 124%N ∉ seg) segs' →
       (∀ seg, seg ∈ segs ↔ seg ∈ segs') →
       parse_tags (Some (Py.join 124%N segs)) = parse_tags (Some (Py.join 124%N segs'))).
Proof.
  split.
  - intros raw. destruct (parse_tags (Some raw)) as [|t0 ts] eqn:E; [done|].
    rewrite <- E.
    assert (Py.split 124%N (Py.join 124%N (parse_tags (Some raw)))
            = parse_tags (Some raw)) as Hsplit.
    { apply split_join; [by rewrite E|]. apply Forall_forall.
      intros t. apply parse_tags_no_sep. }
    unfold parse_tags at 1. rewrite Hsplit.
    assert (Py.strip <$> parse_tags (Some raw) = parse_tags (Some raw)) as ->.
    { rewrite <- (list_fmap_id (parse_tags (Some raw))) at 2.
      apply Forall_fmap_ext_1, Forall_forall.
      intros t (_ & seg & _ & ->)%parse_tags_elem_of. apply strip_idemp. }
    rewrite filter_all.
    2: { apply Forall_forall. intros t (Ht & _)%parse_tags_elem_of. by destruct t. }
    unfold parse_tags, Py.sorted.
    do 2 f_equal.
    match goal with
    | |- list_to_set (merge_sort _ (elements ?S)) = _ =>
        etransitivity; [|apply (list_to_set_elements_L S)]
    end.
    apply list_to_set_perm_L, merge_sort_Permutation.
  - intros segs segs' Hne Hne' Hsep Hsep' Hiff. unfold parse_tags.
    rewrite !split_join by done. do 2 f_equal. apply set_eq. intros t.
    rewrite !elem_of_list_to_set, !list_elem_of_filter, !list_elem_of_fmap.
    split; intros [Ht (seg & -> & Hseg)]; (split; [done|]); exists seg;
      (split; [done|]); by apply Hiff.
Qed.

(** ** The tables, row by row *)

Lemma last_accepted_cons image_map row rows object_id :
  last_accepted image_map (row :: rows) object_id
  = match last_accepted image_map rows object_id with
    | Some r => Some r
    | None => if decide (accepted_id image_map row = Some object_id)
              then Some row else None
    end.
Proof.
  unfold last_accepted. rewrite filter_cons.
  destruct (decide (accepted_id image_map row = Some object_id));
    [|by destruct (last _)].
  destruct (filter _ rows) as [|y l']; [done|]. rewrite last_cons.
  by destruct (last (y :: l')).
Qed.

Lemma last_accepted_accepted image_map rows object_id row :
  last_accepted image_map rows object_id = Some row →
  row ∈ rows ∧ accepted_id image_map row = Some object_id.
Proof.
  unfold last_accepted. intros Hlast.
  assert (row ∈ filter (λ row, accepted_id image_map row = Some object_id) rows)
    as [? ?]%list_elem_of_filter; [|done].
  apply last_Some in Hlast as (l' & ->). apply elem_of_app. right. left.
Qed.

(** A row that is written passed [json.dumps] and the binding of its
    integers. *)
Lemma process_row_writable image_map row ld ld' object_id :
  process_row image_map row ld = inr ld' →
  accepted_id image_map row = Some object_id →
  row_writable row object_id.
Proof.
  unfold process_row, accepted_id, row_writable.
  destruct (parse_int_or_none (row_get row "Object ID")) as [o|] eqn:Hid;
    simpl; [|done].
  pose proof (resolve_images_pair image_map row o
                (incr_rows_scanned (stats ld)) BuildStats_init) as [Hp Hs].
  destruct (resolve_images image_map row o (incr_rows_scanned (stats ld)))
    as [[p ps] s].
  destruct (resolve_images image_map row o BuildStats_init) as [[p' ps'] s'].
  simpl in Hp, Hs. subst p' ps'.
  destruct (Py.truthy p || Py.truthy ps) eqn:Himg; [|done].
  intros Hrun [= <-].
  assert (negb (Py.truthy p) && negb (Py.truthy ps) = false) as Hskip
    by (by destruct (Py.truthy p), (Py.truthy ps)).
  rewrite Hskip in Hrun.
  unfold json_dumps in Hrun.
  destruct (negb (bool_decide (restkey row = []))
            && negb (bool_decide (fields row = ∅))) eqn:Hjson; [done|].
  simpl in Hrun. unfold execute_upsert_object in Hrun.
  destruct (sqlite_int_ok o
            && sqlite_opt_int_ok (parse_int_or_none (row_get row "Object Begin Date"))
            && sqlite_opt_int_ok (parse_int_or_none (row_get row "Object End Date")))
    eqn:Hints; [|by simpl in Hrun].
  apply andb_true_iff in Hints as [[? ?]%andb_true_iff ?].
  split; [|done].
  apply andb_false_iff in Hjson as [Hr|Hf].
  - left. apply negb_false_iff, bool_decide_eq_true in Hr. done.
  - right. apply negb_false_iff, bool_decide_eq_true in Hf. done.
Qed.

(** The two upserts of a row keep the loader invariant. *)
Lemma upserts_loader_inv ld object_id b e (co : CatalogObject) (po : PullObject)
    cconn pconn s :
  loader_inv ld →
  p_is_public_domain po = 0 ∨ p_is_public_domain po = 1 →
  execute_upsert_object object_id b e co (catalog_conn ld) = inr cconn →
  execute_upsert_object object_id b e po (pull_conn ld) = inr pconn →
  loader_inv {| catalog_conn := cconn; pull_conn := pconn;
                catalog_tag_cache := catalog_tag_cache ld;
                pull_tag_cache := pull_tag_cache ld; stats := s |}.
Proof.
  intros Hinv Hpo Huc Hup.
  apply execute_upsert_object_inv in Huc as [Hcdb _].
  apply execute_upsert_object_inv in Hup as [Hpdb _].
  destruct Hinv as (Hdc & Hdp & Hfc & Hfp & Htags & Hseq & Hcache & Hot & Hdom & Hpd).
  destruct (sql_insert_or_replace_object_inv object_id co _ _ Hdc Hfc) as [Hdc1 Hfc1].
  destruct (sql_insert_or_replace_object_inv object_id po _ _ Hdp Hfp) as [Hdp1 Hfp1].
  destruct (sql_insert_or_replace_object_tables object_id co (conn_db (catalog_conn ld)))
    as (Hbc & Htc & Hsc & _ & _ & Hoc & Hotc).
  destruct (sql_insert_or_replace_object_tables object_id po (conn_db (pull_conn ld)))
    as (Hbp & Htp & Hsp & _ & _ & Hop & Hotp).
  rewrite <- Hcdb in *. rewrite <- Hpdb in *.
  unfold loader_inv. simpl.
  do 4 (split; [done|]). split; [congruence|]. split; [congruence|].
  split; [done|]. split.
  { rewrite Hotc, Hotp, Hot, Hdom. by case_decide. }
  split; [by rewrite Hoc, Hop, !dom_insert_L, Hdom|].
  intros oid obj. rewrite Hop, lookup_insert.
  destruct (decide (object_id = oid)); [|intros Hl; exact (Hpd _ _ Hl)].
  by intros [= <-].
Qed.

(** *** The tags of an object *)

Section QueryLemmas.
Context {O X : Type}.
Implicit Types (db : Db O X).

Lemma unique_row_id (l : list (Z * pystr)) tag_id v :
  NoDup l.*1 → (tag_id, v) ∈ l → filter (λ t, t.1 = tag_id) l = [(tag_id, v)].
Proof.
  induction l as [|[i w] l IH]; simpl; [by intros _ ?%elem_of_nil|].
  intros [Hi Hnd]%NoDup_cons [[= <- <-]|Hin]%elem_of_cons.
  - rewrite filter_cons_True by done. f_equal.
    apply filter_none. intros [j u] Hju Hj. simpl in Hj. subst j.
    apply Hi, list_elem_of_fmap. by exists (tag_id, u).
  - rewrite filter_cons_False; [by apply IH|].
    simpl. intros Hj. subst i. apply Hi, list_elem_of_fmap. by exists (tag_id, v).
Qed.

Lemma omap_ext_Forall {A B} (f g : A → option B) (l : list A) :
  Forall (λ x, f x = g x) l → omap f l = omap g l.
Proof.
  induction 1 as [|x l Hx _ IH]; [done|].
  rewrite !omap_cons_eq, Hx, IH. done.
Qed.

(** Rows appended to [tags] do not change the values of the associations
    that are there. *)
Lemma object_tag_values_ext db db' more object_id :
  fk_inv db → tags db' = tags db ++ more → object_tags db' = object_tags db →
  object_tag_values db' object_id = object_tag_values db object_id.
Proof.
  intros Hfk Htags Hot. unfold object_tag_values. rewrite Hot, Htags.
  apply omap_ext_Forall, Forall_forall.
  intros [o t] [_ Hin]%list_elem_of_filter. simpl.
  destruct (Hfk _ _ Hin) as [_ ([t' v] & Ht & Hv)%list_elem_of_fmap].
  simpl in Ht. subst t'. rewrite filter_app.
  destruct (filter (λ t0, t0.1 = t) (tags db)) as [|x l] eqn:E; [|done].
  assert ((t, v) ∈ filter (λ t0, t0.1 = t) (tags db)) as Hf
    by (by apply list_elem_of_filter).
  rewrite E in Hf. by apply elem_of_nil in Hf.
Qed.

(** One more association. *)
Lemma object_tag_values_snoc db db' o tag_id v object_id :
  NoDup (tags db).*1 → (tag_id, v) ∈ tags db →
  tags db' = tags db → object_tags db' = object_tags db ++ [(o, tag_id)] →
  object_tag_values db' object_id
  = object_tag_values db object_id ++ (if decide (object_id = o) then [v] else []).
Proof.
  intros Hnd Hin Htags Hot. unfold object_tag_values.
  rewrite Hot, Htags, filter_app, omap_app. f_equal.
  rewrite filter_cons, filter_nil. simpl.
  destruct (decide (o = object_id)) as [->|Hne].
  - rewrite decide_True by done. rewrite omap_cons_eq. simpl.
    by rewrite (unique_row_id _ tag_id v Hnd Hin).
  - by rewrite decide_False by done.
Qed.

Lemma object_tag_values_elem db o tag_id v :
  NoDup (tags db).*1 → (tag_id, v) ∈ tags db → (o, tag_id) ∈ object_tags db →
  v ∈ object_tag_values db o.
Proof.
  intros Hnd Hin Hot. unfold object_tag_values.
  apply list_elem_of_omap. exists (o, tag_id). split.
  - by apply list_elem_of_filter.
  - simpl. by rewrite (unique_row_id _ tag_id v Hnd Hin).
Qed.

Lemma object_tag_values_absent db object_id :
  fk_inv db → objects db !! object_id = None → object_tag_values db object_id = [].
Proof.
  intros Hfk Hno. unfold object_tag_values.
  rewrite filter_none; [done|].
  intros [o t] Hin Ho. simpl in Ho. subst o.
  destruct (Hfk _ _ Hin) as [[? Hsome] _]. congruence.
Qed.

(** [INSERT OR REPLACE INTO objects] leaves the replaced object without
    tags, and the other objects with theirs. *)
Lemma sql_insert_or_replace_object_values db o (obj : O) object_id :
  fk_inv db →
  object_tag_values (sql_insert_or_replace_object o obj db) object_id
  = if decide (object_id = o) then [] else object_tag_values db object_id.
Proof.
  intros Hfk.
  destruct (sql_insert_or_replace_object_tables o obj db)
    as (_ & Htags & _ & _ & _ & _ & Hot).
  unfold object_tag_values at 1. rewrite Htags, Hot.
  destruct (decide (object_id = o)) as [->|Hne].
  - rewrite filter_none; [done|].
    intros [o' t] Hin Ho. simpl in Ho. subst o'.
    case_decide as Hdom.
    + by apply list_elem_of_filter in Hin as [? _].
    + destruct (Hfk _ _ Hin) as [Hsome _]. by apply elem_of_dom in Hsome.
  - unfold object_tag_values. f_equal. case_decide; [|done].
    rewrite list_filter_filter. apply list_filter_iff.
    intros [o' t]. simpl. split; [by intros [? _]|]. intros ->. done.
Qed.

End QueryLemmas.

Lemma parse_tags_NoDup raw : NoDup (parse_tags raw).
Proof.
  destruct raw as [raw|]; [|apply NoDup_nil_2].
  unfold parse_tags, Py.sorted. rewrite merge_sort_Permutation.
  apply NoDup_elements.
Qed.

Lemma insert_tags_cons_bind object_id tag row_tags ld :
  insert_tags object_id (tag :: row_tags) ld
  = insert_tags object_id [tag] ld ≫= insert_tags object_id row_tags.
Proof.
  simpl.
  destruct (get_or_create_tag_id (catalog_conn ld) _ tag)
    as [|[[cid cconn] ccache]]; [done|]. simpl.
  destruct (get_or_create_tag_id (pull_conn ld) _ tag)
    as [|[[pid pconn] pcache]]; [done|]. simpl.
  destruct (execute_insert_object_tag object_id cid cconn) as [|?]; [done|]. simpl.
  by destruct (execute_insert_object_tag object_id pid pconn) as [|?].
Qed.

(** One turn of the loop over the tags of a row, on the catalog tables. *)
Lemma insert_tags_one object_id tag ld ld1 :
  insert_tags object_id [tag] ld = inr ld1 →
  loader_inv ld →
  loader_inv ld1
  ∧ ∃ tag_id more,
      (tag_id, tag) ∈ tags (conn_db (catalog_conn ld1))
      ∧ tags (conn_db (catalog_conn ld1)) = tags (conn_db (catalog_conn ld)) ++ more
      ∧ object_tags (conn_db (catalog_conn ld1))
        = (if decide ((object_id, tag_id) ∈ object_tags (conn_db (catalog_conn ld)))
           then object_tags (conn_db (catalog_conn ld))
           else object_tags (conn_db (catalog_conn ld)) ++ [(object_id, tag_id)]).
Proof.
  intros Hrun Hinv.
  destruct (insert_tags_cons_inv _ _ _ _ _ Hrun Hinv) as (ld0 & Hnil & Hinv1 & _).
  simpl in Hnil. injection Hnil as ->. split; [done|].
  simpl in Hrun. destruct Hinv as (Hdc & _).
  destruct (get_or_create_tag_id_spec (catalog_conn ld) _ tag Hdc)
    as (cid & cconn & ccache & Hc & Hdc' & _ & Hcc & Hsc & _ & Hgrow).
  rewrite Hc in Hrun. simpl in Hrun.
  destruct (get_or_create_tag_id (pull_conn ld) _ tag)
    as [|[[pid pconn] pcache]]; [done|]. simpl in Hrun.
  destruct (execute_insert_object_tag object_id cid cconn) as [|cconn'] eqn:Hic;
    [done|]. simpl in Hrun.
  destruct (execute_insert_object_tag object_id pid pconn) as [|pconn'] eqn:Hip;
    [done|]. simpl in Hrun.
  injection Hrun as <-. simpl.
  apply execute_insert_object_tag_inv in Hic
    as (_ & Htc & _ & _ & _ & _ & _ & Hotc & _).
  destruct Hsc as (_ & _ & Hotsame & _).
  destruct Hdc' as (Hsound & _). apply Hsound in Hcc.
  exists cid.
  exists (match decide (tags (conn_db cconn) = tags (conn_db (catalog_conn ld))) with
          | left _ => []
          | right _ => [(cid, tag)]
          end).
  rewrite Htc, Hotc, Hotsame. split; [done|]. split; [|done].
  destruct Hgrow as [Hsame|(_ & _ & Happ & _)].
  - rewrite decide_True by done. by rewrite app_nil_r.
  - rewrite decide_False; [done|]. rewrite Happ. intros Heq.
    apply (f_equal length) in Heq. rewrite length_app in Heq. simpl in Heq. lia.
Qed.

(** The loop over the tags of a row appends their values, in order, to the
    tags of the object, and leaves the other objects alone. *)
Lemma insert_tags_values object_id row_tags ld ld' done :
  insert_tags object_id row_tags ld = inr ld' →
  loader_inv ld →
  object_tag_values (conn_db (catalog_conn ld)) object_id = done →
  NoDup (done ++ row_tags) →
  object_tag_values (conn_db (catalog_conn ld')) object_id = done ++ row_tags
  ∧ ∀ id, id ≠ object_id →
      object_tag_values (conn_db (catalog_conn ld')) id
      = object_tag_values (conn_db (catalog_conn ld)) id.
Proof.
  revert ld done. induction row_tags as [|tag row_tags IH]; intros ld done.
  { intros [= <-] _ <- _. by rewrite app_nil_r. }
  rewrite insert_tags_cons_bind.
  destruct (insert_tags object_id [tag] ld) as [|ld1] eqn:Hone; [done|].
  simpl. intros Hrun Hinv Hdone Hnd.
  destruct (insert_tags_one _ _ _ _ Hone Hinv)
    as (Hinv1 & tag_id & more & Hin & Htags & Hot).
  assert (fk_inv (conn_db (catalog_conn ld))) as Hfk by apply Hinv.
  assert (NoDup (tags (conn_db (catalog_conn ld1))).*1) as Hids.
  { destruct Hinv1 as ((_ & _ & -> & _) & _). apply NoDup_seqZ. }
  set (mid := set_tags (tags (conn_db (catalog_conn ld1)))
                (tag_seq (conn_db (catalog_conn ld1)))
                (conn_db (catalog_conn ld))).
  assert (∀ id, object_tag_values mid id
                = object_tag_values (conn_db (catalog_conn ld)) id) as Hmid.
  { intros id. by apply (object_tag_values_ext _ mid more). }
  case_decide as Hdup.
  { exfalso. apply NoDup_app in Hnd as (_ & Hdisj & _).
    apply (Hdisj tag); [|left]. rewrite <- Hdone, <- Hmid.
    by apply (object_tag_values_elem mid _ tag_id). }
  assert (∀ id, object_tag_values (conn_db (catalog_conn ld1)) id
                = object_tag_values (conn_db (catalog_conn ld)) id
                  ++ (if decide (id = object_id) then [tag] else [])) as Hstep.
  { intros id. rewrite <- Hmid.
    by apply (object_tag_values_snoc mid _ object_id tag_id). }
  destruct (IH ld1 (done ++ [tag]) Hrun Hinv1) as [Hvals Hothers].
  - by rewrite Hstep, decide_True, Hdone.
  - by rewrite <- app_assoc.
  - split; [by rewrite Hvals, <- app_assoc|].
    intros id Hne. rewrite Hothers, Hstep by done.
    by rewrite decide_False, app_nil_r.
Qed.

Lemma row_images_resolved image_map row object_id s p ps s' :
  resolve_images image_map row object_id s = (p, ps, s') →
  row_images image_map row object_id = (p, ps).
Proof.
  intros Hres. unfold row_images.
  destruct (resolve_images_pair image_map row object_id s BuildStats_init) as [Hp Hs].
  rewrite Hres in Hp, Hs. simpl in Hp, Hs.
  destruct (resolve_images image_map row object_id BuildStats_init) as [[??]?].
  simpl in *. congruence.
Qed.

(** What one row does to the tables: a row that is written replaces the
    object of its id in both schemas and gives it its own tags; any other
    object, and every object when the row is skipped, stays as it is. *)
Lemma process_row_tables image_map row ld ld' object_id :
  process_row image_map row ld = inr ld' →
  loader_inv ld →
  objects (conn_db (catalog_conn ld')) !! object_id
  = (if decide (accepted_id image_map row = Some object_id)
     then Some (row_catalog_object image_map row object_id)
     else objects (conn_db (catalog_conn ld)) !! object_id)
  ∧ objects (conn_db (pull_conn ld')) !! object_id
    = (if decide (accepted_id image_map row = Some object_id)
       then Some (row_pull_object image_map row object_id)
       else objects (conn_db (pull_conn ld)) !! object_id)
  ∧ object_tag_values (conn_db (catalog_conn ld')) object_id
    = (if decide (accepted_id image_map row = Some object_id)
       then parse_tags (row_get row "Tags")
       else object_tag_values (conn_db (catalog_conn ld)) object_id).
Proof.
  intros Hrow Hinv.
  apply process_row_inv in Hrow
    as [(_ & -> & ->)|[(o & p & ps & s & _ & -> & _ & ->)
                     |(o & p & ps & s & cc & pc & ld1 & -> & Hres & Huc & Hup & Hins & ->)]].
  - by rewrite decide_False.
  - by rewrite decide_False.
  - apply row_images_resolved in Hres.
    assert (loader_inv
              {| catalog_conn := cc; pull_conn := pc;
                 catalog_tag_cache := catalog_tag_cache ld;
                 pull_tag_cache := pull_tag_cache ld;
                 stats := flag_counters
                            (parse_bool_int (row_get row "Is Public Domain"))
                            (parse_bool_int (row_get row "Is Highlight")) s |})
      as Hinv0.
    { eapply upserts_loader_inv; [exact Hinv| |exact Huc|exact Hup].
      simpl. apply parse_bool_int_bool. }
    apply execute_upsert_object_inv in Huc as [Hcdb _].
    apply execute_upsert_object_inv in Hup as [Hpdb _].
    destruct (sql_insert_or_replace_object_tables o
                (catalog_object row row
                   (parse_bool_int (row_get row "Is Public Domain"))
                   (parse_bool_int (row_get row "Is Highlight")) p ps)
                (conn_db (catalog_conn ld)))
      as (_ & _ & _ & _ & _ & Hoc & _).
    destruct (sql_insert_or_replace_object_tables o
                (pull_object row (parse_bool_int (row_get row "Is Public Domain")) p ps)
                (conn_db (pull_conn ld)))
      as (_ & _ & _ & _ & _ & Hop & _).
    assert (fk_inv (conn_db (catalog_conn ld))) as Hfk by apply Hinv.
    pose proof (sql_insert_or_replace_object_values (conn_db (catalog_conn ld)) o
                  (catalog_object row row
                     (parse_bool_int (row_get row "Is Public Domain"))
                     (parse_bool_int (row_get row "Is Highlight")) p ps)) as Hvals0.
    rewrite <- Hcdb in Hoc, Hvals0. rewrite <- Hpdb in Hop.
    destruct (insert_tags_inv _ _ _ _ Hins Hinv0) as (_ & Hobjc & Hobjp & _).
    destruct (insert_tags_values o _ _ _ [] Hins Hinv0) as [Hvals Hothers].
    { simpl. by rewrite Hvals0, decide_True. }
    { apply parse_tags_NoDup. }
    simpl in Hobjc, Hobjp, Hvals, Hothers.
    destruct (commit_batch_db (set_stats (incr_rows_with_images (stats ld1)) ld1))
      as (Hc1 & Hc2 & _).
    rewrite Hc1, Hc2. simpl. rewrite Hobjc, Hobjp, Hoc, Hop.
    unfold row_catalog_object, row_pull_object.
    destruct (decide (o = object_id)) as [->|Hne].
    + rewrite !decide_True by done. rewrite !lookup_insert_eq, Hres. done.
    + rewrite !decide_False by congruence. rewrite !lookup_insert_ne by done.
      split; [done|]. split; [done|].
      rewrite Hothers by done. rewrite Hvals0 by done. by rewrite decide_False.
Qed.

(** The tables after the pass: every id holds what the last row written
    under it gave it. *)
Lemma load_rows_tables image_map rows ld ld' object_id :
  load_rows image_map rows ld = (ld', None) →
  loader_inv ld →
  objects (conn_db (catalog_conn ld')) !! object_id
  = match last_accepted image_map rows object_id with
    | Some row => Some (row_catalog_object image_map row object_id)
    | None => objects (conn_db (catalog_conn ld)) !! object_id
    end
  ∧ objects (conn_db (pull_conn ld')) !! object_id
    = match last_accepted image_map rows object_id with
      | Some row => Some (row_pull_object image_map row object_id)
      | None => objects (conn_db (pull_conn ld)) !! object_id
      end
  ∧ object_tag_values (conn_db (catalog_conn ld')) object_id
    = match last_accepted image_map rows object_id with
      | Some row => parse_tags (row_get row "Tags")
      | None => object_tag_values (conn_db (catalog_conn ld)) object_id
      end.
Proof.
  revert ld. induction rows as [|row rows IH]; intros ld; simpl.
  { by intros [= <-] _. }
  destruct (process_row image_map row ld) as [e|ld1] eqn:Hrow; [done|].
  intros Hload Hinv.
  destruct (process_row_tables _ _ _ _ object_id Hrow Hinv) as (Hc1 & Hp1 & Hv1).
  apply process_row_loader_inv in Hrow as (Hinv1 & _); [|done].
  destruct (IH _ Hload Hinv1) as (Hc & Hp & Hv).
  rewrite last_accepted_cons, Hc, Hp, Hv, Hc1, Hp1, Hv1.
  destruct (last_accepted image_map rows object_id); [done|].
  by case_decide.
Qed.

(** All rows written by a pass that completed were writable. *)
Lemma load_rows_writable image_map rows ld ld' row object_id :
  load_rows image_map rows ld = (ld', None) →
  row ∈ rows → accepted_id image_map row = Some object_id →
  row_writable row object_id.
Proof.
  revert ld. induction rows as [|r rows IH]; intros ld; simpl.
  { by intros _ ?%elem_of_nil. }
  destruct (process_row image_map r ld) as [e|ld1] eqn:Hrow; [done|].
  intros Hload [->|Hin]%elem_of_cons Hacc.
  - by eapply process_row_writable.
  - by eapply IH.
Qed.

(** ** The released tables as a function of the input *)

Lemma build_final_tables env csv_path cache_db_path output_root w w' manifest :
  build_master_dbs env csv_path cache_db_path output_root w = (w', inr manifest) →
  ∃ csv image_map ld dir,
    csv_file env = Some csv
    ∧ load_image_map (cache_db env) = inr image_map
    ∧ loader_inv ld
    ∧ load_rows image_map (csv_rows csv)
        (initial_loader (build_info_items (strftime_build_id (clock env))
                           (clock env) csv_path cache_db_path))
      = (ld, None)
    ∧ releases w' !! m_build_id manifest = Some dir
    ∧ dir !! "catalog_master.db"%string
      = Some (CatalogFile (add_indexes catalog_indexes (conn_db (catalog_conn ld))))
    ∧ dir !! "pull_master.db"%string
      = Some (PullFile (finalized_pull_db (conn_db (pull_conn ld))))
    ∧ ∀ object_id,
        objects (conn_db (catalog_conn ld)) !! object_id
        = (λ row, row_catalog_object image_map row object_id)
            <$> last_accepted image_map (csv_rows csv) object_id
        ∧ objects (conn_db (pull_conn ld)) !! object_id
          = (λ row, row_pull_object image_map row object_id)
              <$> last_accepted image_map (csv_rows csv) object_id
        ∧ object_tag_values (conn_db (catalog_conn ld)) object_id
          = from_option (λ row, parse_tags (row_get row "Tags")) []
              (last_accepted image_map (csv_rows csv) object_id).
Proof.
  intros (csv & image_map & ld & dir & Hcsv & Himg & Hload & Hinv & _ & _ & Hrel
          & Hc & Hp & _)%build_tables.
  exists csv, image_map, ld, dir. do 7 (split; [done|]). intros object_id.
  destruct (load_rows_tables _ _ _ _ object_id Hload (initial_loader_inv _))
    as (Hoc & Hop & Hv).
  rewrite Hoc, Hop, Hv.
  by destruct (last_accepted image_map (csv_rows csv) object_id).
Qed.

(** X5. In the release of a completed build, the row of [objects] under an
    id is, in both databases, the one written for the last input row that
    passes the filters with that id: a later row with the same id replaces
    an earlier one; an id that no accepted row has is absent. *)
Theorem build_objects_last_row_wins env csv_path cache_db_path output_root w w' manifest :
  build_master_dbs env csv_path cache_db_path output_root w = (w', inr manifest) →
  ∃ dir catalog_db pull_db csv image_map,
    releases w' !! m_build_id manifest = Some dir
    ∧ dir !! "catalog_master.db"%string = Some (CatalogFile catalog_db)
    ∧ dir !! "pull_master.db"%string = Some (PullFile pull_db)
    ∧ csv_file env = Some csv
    ∧ load_image_map (cache_db env) = inr image_map
    ∧ ∀ object_id,
        objects catalog_db !! object_id
        = (λ row, row_catalog_object image_map row object_id)
            <$> last_accepted image_map (csv_rows csv) object_id
        ∧ objects pull_db !! object_id
          = (λ row, row_pull_object image_map row object_id)
              <$> last_accepted image_map (csv_rows csv) object_id.
Proof.
  intros (csv & image_map & ld & dir & Hcsv & Himg & _ & _ & Hrel & Hc & Hp & Htab)
           %build_final_tables.
  exists dir. eexists _, _. exists csv, image_map. do 5 (split; [done|]).
  intros object_id. destruct (Htab object_id) as (Hoc & Hop & _). by split.
Qed.

(** X6. In the release of a completed build, the [objects] table of the
    pull database is the [objects] table of the catalog database restricted
    to the columns the pull schema has: the same ids, and for each id the
    same title, artist, dates, department, classification, medium, public
    domain flag and image URLs. *)
Theorem build_pull_objects_projection env csv_path cache_db_path output_root
    w w' manifest :
  build_master_dbs env csv_path cache_db_path output_root w = (w', inr manifest) →
  ∃ dir catalog_db pull_db,
    releases w' !! m_build_id manifest = Some dir
    ∧ dir !! "catalog_master.db"%string = Some (CatalogFile catalog_db)
    ∧ dir !! "pull_master.db"%string = Some (PullFile pull_db)
    ∧ objects pull_db = pull_projection <$> objects catalog_db.
Proof.
  intros (csv & image_map & ld & dir & Hcsv & Himg & _ & _ & Hrel & Hc & Hp & Htab)
           %build_final_tables.
  exists dir. eexists _, _. do 3 (split; [done|]). simpl.
  apply map_eq. intros object_id. rewrite lookup_fmap.
  destruct (Htab object_id) as (-> & -> & _).
  by destruct (last_accepted image_map (csv_rows csv) object_id).
Qed.

Lemma resolve_images_trimmed image_cache image_map row object_id :
  load_image_map (Some image_cache) = inr image_map →
  trimmed (row_images image_map row object_id).1
  ∧ trimmed (row_images image_map row object_id).2.
Proof.
  intros Hmap. unfold row_images, resolve_images, trimmed.
  destruct (image_map !! object_id) as [[p ps]|] eqn:Hentry; simpl.
  - destruct (load_image_map_entry _ _ _ _ _ Hmap Hentry)
      as (r & _ & _ & _ & -> & ->).
    split; apply strip_idemp.
  - unfold text. split; apply strip_idemp.
Qed.

Lemma accepted_id_images image_map row object_id :
  accepted_id image_map row = Some object_id →
  (row_images image_map row object_id).1 ≠ []
  ∨ (row_images image_map row object_id).2 ≠ [].
Proof.
  unfold accepted_id, row_images.
  destruct (parse_int_or_none (row_get row "Object ID")) as [o|]; simpl; [|done].
  destruct (resolve_images image_map row o BuildStats_init) as [[p ps] s] eqn:Hres.
  destruct (Py.truthy p || Py.truthy ps) eqn:Himg; [|done].
  intros [= ->]. rewrite Hres. simpl.
  destruct p; [|by left]. destruct ps; [done|by right].
Qed.

(** X7. Every row of [objects] in the catalog database of a completed
    build has a non-empty [primary_image] or [primary_image_small]; its
    text columns have no whitespace at their ends; its two flags are 0 or
    1; its id and its two dates fit SQLite's 64-bit INTEGER; and the input
    row kept in [metadata_json] has no surplus field beside named
    fields. *)
Theorem build_objects_well_formed env csv_path cache_db_path output_root w w' manifest :
  build_master_dbs env csv_path cache_db_path output_root w = (w', inr manifest) →
  ∃ dir catalog_db,
    releases w' !! m_build_id manifest = Some dir
    ∧ dir !! "catalog_master.db"%string = Some (CatalogFile catalog_db)
    ∧ ∀ object_id c,
        objects catalog_db !! object_id = Some c →
        (c_primary_image c ≠ [] ∨ c_primary_image_small c ≠ [])
        ∧ Forall trimmed
            [c_title c; c_artist_display_name c; c_artist_display_bio c;
             c_artist_nationality c; c_artist_begin_date c; c_artist_end_date c;
             c_object_date c; c_department c; c_classification c;
             c_object_name c; c_medium c; c_culture c; c_country c;
             c_link_resource c; c_primary_image c; c_primary_image_small c]
        ∧ (c_is_public_domain c = 0 ∨ c_is_public_domain c = 1)
        ∧ (c_is_highlight c = 0 ∨ c_is_highlight c = 1)
        ∧ sqlite_int_ok object_id = true
        ∧ sqlite_opt_int_ok (c_object_begin_date c) = true
        ∧ sqlite_opt_int_ok (c_object_end_date c) = true
        ∧ (restkey (c_metadata_json c) = [] ∨ fields (c_metadata_json c) = ∅).
Proof.
  intros (csv & image_map & ld & dir & Hcsv & Himg & _ & Hload & Hrel & Hc & _ & Htab)
           %build_final_tables.
  exists dir. eexists. do 2 (split; [done|]). simpl. intros object_id c.
  destruct (Htab object_id) as (-> & _).
  destruct (last_accepted image_map (csv_rows csv) object_id) as [row|] eqn:Hlast;
    [|done].
  intros [= <-]. apply last_accepted_accepted in Hlast as [Hin Hacc].
  destruct (load_rows_writable _ _ _ _ _ _ Hload Hin Hacc) as (Hjson & Hid & Hb & He).
  destruct (cache_db env) as [image_cache|] eqn:Hcache; [|done].
  destruct (resolve_images_trimmed _ _ row object_id Himg) as [Ht1 Ht2].
  unfold row_catalog_object, catalog_object. simpl.
  split; [by apply accepted_id_images|].
  split; [|split; [apply parse_bool_int_bool|split; [apply parse_bool_int_bool|done]]].
  repeat (apply Forall_cons; split; [first [exact Ht1 | exact Ht2 | apply strip_idemp]|]).
  apply Forall_nil_2.
Qed.

(** X8. In the release of a completed build, the tags of an object (the
    values of the [tags] rows its [object_tags] rows reference, in table
    order) are, in both databases, the normalized tags of the last input
    row written under its id, in their order; the associations an earlier
    row with the same id had are gone. *)
Theorem build_object_tags_of_last_row env csv_path cache_db_path output_root
    w w' manifest :
  build_master_dbs env csv_path cache_db_path output_root w = (w', inr manifest) →
  ∃ dir catalog_db pull_db csv image_map,
    releases w' !! m_build_id manifest = Some dir
    ∧ dir !! "catalog_master.db"%string = Some (CatalogFile catalog_db)
    ∧ dir !! "pull_master.db"%string = Some (PullFile pull_db)
    ∧ csv_file env = Some csv
    ∧ load_image_map (cache_db env) = inr image_map
    ∧ ∀ object_id,
        object_tag_values catalog_db object_id
        = from_option (λ row, parse_tags (row_get row "Tags")) []
            (last_accepted image_map (csv_rows csv) object_id)
        ∧ object_tag_values pull_db object_id
          = object_tag_values catalog_db object_id.
Proof.
  intros (csv & image_map & ld & dir & Hcsv & Himg & Hinv & _ & Hrel & Hc & Hp & Htab)
           %build_final_tables.
  exists dir. eexists _, _. exists csv, image_map. do 5 (split; [done|]).
  intros object_id. destruct (Htab object_id) as (_ & _ & Hv).
  destruct Hinv as (_ & _ & _ & _ & Htags & _ & _ & Hot & _).
  split; [exact Hv|]. unfold object_tag_values. simpl. by rewrite Htags, Hot.
Qed.

(** ** The counters, class by class *)

Lemma accepted_id_Some image_map row object_id :
  accepted_id image_map row = Some object_id →
  parse_int_or_none (row_get row "Object ID") = Some object_id.
Proof.
  unfold accepted_id.
  destruct (parse_int_or_none (row_get row "Object ID")) as [o|]; simpl; [|done].
  destruct (resolve_images image_map row o BuildStats_init) as [[p ps] s].
  destruct (Py.truthy p || Py.truthy ps); [|done]. by intros [= ->].
Qed.

Lemma accepted_id_truthy image_map row object_id s :
  parse_int_or_none (row_get row "Object ID") = Some object_id →
  accepted_id image_map row
  = if Py.truthy (resolve_images image_map row object_id s).1.1
       || Py.truthy (resolve_images image_map row object_id s).1.2
    then Some object_id else None.
Proof.
  intros Hid. unfold accepted_id. rewrite Hid. simpl.
  destruct (resolve_images_pair image_map row object_id s BuildStats_init) as [-> ->].
  by destruct (resolve_images image_map row object_id BuildStats_init) as [[p ps] s'].
Qed.

Lemma flag_counters_eq pd hl s :
  pd = 0 ∨ pd = 1 → hl = 0 ∨ hl = 1 →
  flag_counters pd hl s
  = Build_BuildStats (rows_scanned s) (rows_with_images s)
      (rows_skipped_no_images s) (rows_skipped_bad_object_id s)
      (rows_public_domain s + pd) (rows_highlight s + hl)
      (rows_with_images_from_cache s) (rows_with_images_from_csv_fallback s).
Proof.
  intros [->| ->] [->| ->]; unfold flag_counters; simpl;
    destruct s; unfold incr_rows_public_domain, incr_rows_highlight; simpl;
    f_equal; lia.
Qed.

Lemma indicator_True (P : Prop) `{!Decision P} : P → indicator P = 1.
Proof. intros HP. unfold indicator. by rewrite decide_True. Qed.

Lemma indicator_False (P : Prop) `{!Decision P} : ¬ P → indicator P = 0.
Proof. intros HP. unfold indicator. by rewrite decide_False. Qed.

Ltac indicators :=
  repeat match goal with
         | |- context [@indicator ?P ?d] =>
             first [ rewrite (@indicator_True P d) by solve [tauto | intuition lia]
                   | rewrite (@indicator_False P d) by solve [tauto | intuition lia] ]
         end.

(** What one row adds to each counter. *)
Lemma process_row_stats image_map row ld ld' :
  process_row image_map row ld = inr ld' →
  rows_scanned (stats ld') = rows_scanned (stats ld) + 1
  ∧ rows_skipped_bad_object_id (stats ld')
    = rows_skipped_bad_object_id (stats ld) + indicator (bad_object_id row)
  ∧ rows_with_images (stats ld')
    = rows_with_images (stats ld) + indicator (written image_map row)
  ∧ rows_skipped_no_images (stats ld')
    = rows_skipped_no_images (stats ld)
      + indicator (¬ bad_object_id row ∧ ¬ written image_map row)
  ∧ rows_public_domain (stats ld')
    = rows_public_domain (stats ld)
      + indicator (written image_map row
                   ∧ parse_bool_int (row_get row "Is Public Domain") = 1)
  ∧ rows_highlight (stats ld')
    = rows_highlight (stats ld)
      + indicator (written image_map row
                   ∧ parse_bool_int (row_get row "Is Highlight") = 1)
  ∧ rows_with_images_from_cache (stats ld')
    = rows_with_images_from_cache (stats ld) + indicator (cache_hit image_map row)
  ∧ rows_with_images_from_csv_fallback (stats ld')
    = rows_with_images_from_csv_fallback (stats ld)
      + indicator (written image_map row ∧ ¬ cache_hit image_map row).
Proof.
  intros Hrow.
  apply process_row_inv in Hrow
    as [(Hid & Hacc & ->)|[(o & p & ps & s & Hid & Hacc & Hres & ->)
                         |(o & p & ps & s & cc & pc & ld1 & Hacc & Hres & _ & _ & Hins & ->)]].
  - assert (bad_object_id row) as Hb by done.
    assert (¬ written image_map row) as Hw
      by (unfold written; rewrite Hacc; by intros [? ?]).
    assert (¬ cache_hit image_map row) as Hc
      by (unfold cache_hit; rewrite Hid; by intros [? ?]).
    simpl. indicators. repeat split; lia.
  - assert (¬ bad_object_id row) as Hb by (unfold bad_object_id; congruence).
    assert (¬ written image_map row) as Hw
      by (unfold written; rewrite Hacc; by intros [? ?]).
    rewrite (accepted_id_truthy _ _ _ (incr_rows_scanned (stats ld)) Hid), Hres
      in Hacc. simpl in Hacc.
    unfold resolve_images in Hres.
    destruct (image_map !! o) as [[p' ps']|] eqn:Hm.
    + assert (cache_hit image_map row) as Hc
        by (unfold cache_hit; rewrite Hid; simpl; by rewrite Hm).
      injection Hres as _ _ <-. simpl. indicators. repeat split; lia.
    + assert (¬ cache_hit image_map row) as Hc
        by (unfold cache_hit; rewrite Hid; simpl; rewrite Hm; by intros [? ?]).
      injection Hres as Hp Hps Hs. rewrite Hp, Hps in Hs.
      destruct (Py.truthy p || Py.truthy ps); [done|]. subst s.
      simpl. indicators. repeat split; lia.
  - assert (written image_map row) as Hw by (unfold written; by rewrite Hacc).
    apply accepted_id_Some in Hacc as Hid.
    assert (¬ bad_object_id row) as Hb by (unfold bad_object_id; congruence).
    rewrite (accepted_id_truthy _ _ _ (incr_rows_scanned (stats ld)) Hid), Hres
      in Hacc. simpl in Hacc.
    rewrite commit_batch_stats. simpl.
    rewrite (insert_tags_stats _ _ _ _ Hins). simpl.
    rewrite flag_counters_eq by apply parse_bool_int_bool. simpl.
    destruct (parse_bool_int_bool (row_get row "Is Public Domain")) as [Hpd|Hpd];
      destruct (parse_bool_int_bool (row_get row "Is Highlight")) as [Hhl|Hhl];
      rewrite Hpd, Hhl; unfold resolve_images in Hres;
      (destruct (image_map !! o) as [[p' ps']|] eqn:Hm;
       [ assert (cache_hit image_map row) as Hc
           by (unfold cache_hit; rewrite Hid; simpl; by rewrite Hm);
         injection Hres as _ _ <-
       | assert (¬ cache_hit image_map row) as Hc
           by (unfold cache_hit; rewrite Hid; simpl; rewrite Hm; by intros [? ?]);
         injection Hres as Hp Hps Hs; rewrite Hp, Hps in Hs;
         destruct (Py.truthy p || Py.truthy ps); [|done]; subst s ]);
      simpl; indicators; repeat split; lia.
Qed.

Lemma count_rows_cons (P : Row → Prop) `{!∀ row, Decision (P row)} row rows :
  count_rows P (row :: rows) = indicator (P row) + count_rows P rows.
Proof.
  unfold count_rows, indicator. rewrite filter_cons.
  destruct (decide (P row)); simpl; lia.
Qed.

Lemma load_rows_counts image_map rows ld ld' :
  load_rows image_map rows ld = (ld', None) →
  rows_scanned (stats ld') = rows_scanned (stats ld) + Z.of_nat (length rows)
  ∧ rows_skipped_bad_object_id (stats ld')
    = rows_skipped_bad_object_id (stats ld) + count_rows bad_object_id rows
  ∧ rows_with_images (stats ld')
    = rows_with_images (stats ld) + count_rows (written image_map) rows
  ∧ rows_skipped_no_images (stats ld')
    = rows_skipped_no_images (stats ld)
      + count_rows (λ row, ¬ bad_object_id row ∧ ¬ written image_map row) rows
  ∧ rows_public_domain (stats ld')
    = rows_public_domain (stats ld)
      + count_rows (λ row, written image_map row
                           ∧ parse_bool_int (row_get row "Is Public Domain") = 1) rows
  ∧ rows_highlight (stats ld')
    = rows_highlight (stats ld)
      + count_rows (λ row, written image_map row
                           ∧ parse_bool_int (row_get row "Is Highlight") = 1) rows
  ∧ rows_with_images_from_cache (stats ld')
    = rows_with_images_from_cache (stats ld) + count_rows (cache_hit image_map) rows
  ∧ rows_with_images_from_csv_fallback (stats ld')
    = rows_with_images_from_csv_fallback (stats ld)
      + count_rows (λ row, written image_map row ∧ ¬ cache_hit image_map row) rows.
Proof.
  revert ld. induction rows as [|row rows IH]; intros ld; simpl.
  { intros [= <-]. unfold count_rows. simpl. repeat split; lia. }
  destruct (process_row image_map row ld) as [e|ld1] eqn:Hrow; [done|].
  intros Hload.
  apply process_row_stats in Hrow as (H1 & H2 & H3 & H4 & H5 & H6 & H7 & H8).
  apply IH in Hload as (I1 & I2 & I3 & I4 & I5 & I6 & I7 & I8).
  rewrite !count_rows_cons. repeat split; lia.
Qed.

Lemma build_counted env csv_path cache_db_path output_root w w' manifest :
  build_master_dbs env csv_path cache_db_path output_root w = (w', inr manifest) →
  ∃ csv image_map,
    csv_file env = Some csv
    ∧ load_image_map (cache_db env) = inr image_map
    ∧ counted image_map (csv_rows csv) (m_stats manifest).
Proof.
  intros (csv & image_map & ld & dir & Hcsv & Himg & Hload & _ & _ & _ & _
          & _ & _ & -> & _)%build_tables.
  exists csv, image_map. do 2 (split; [done|]).
  apply load_rows_counts in Hload. simpl in Hload. unfold counted.
  destruct Hload as (H1 & H2 & H3 & H4 & H5 & H6 & H7 & H8).
  repeat split; lia.
Qed.

(** X9. In the manifest of a completed build each counter is the number of
    input rows of its class: rows_scanned of all rows;
    rows_skipped_bad_object_id of the rows whose "Object ID" does not parse;
    rows_with_images of the rows that are written; rows_skipped_no_images
    of the rows with an id that are not written; rows_public_domain and
    rows_highlight of the written rows with the flag;
    rows_with_images_from_cache of the rows whose id has an entry in the
    image map, written or not; rows_with_images_from_csv_fallback of the
    written rows whose id has none. *)
Theorem build_counters_count_classes env csv_path cache_db_path output_root
    w w' manifest :
  build_master_dbs env csv_path cache_db_path output_root w = (w', inr manifest) →
  ∃ csv image_map,
    csv_file env = Some csv
    ∧ load_image_map (cache_db env) = inr image_map
    ∧ rows_scanned (m_stats manifest) = Z.of_nat (length (csv_rows csv))
    ∧ rows_skipped_bad_object_id (m_stats manifest)
      = count_rows bad_object_id (csv_rows csv)
    ∧ rows_with_images (m_stats manifest)
      = count_rows (written image_map) (csv_rows csv)
    ∧ rows_skipped_no_images (m_stats manifest)
      = count_rows (λ row, ¬ bad_object_id row ∧ ¬ written image_map row)
          (csv_rows csv)
    ∧ rows_public_domain (m_stats manifest)
      = count_rows (λ row, written image_map row
                           ∧ parse_bool_int (row_get row "Is Public Domain") = 1)
          (csv_rows csv)
    ∧ rows_highlight (m_stats manifest)
      = count_rows (λ row, written image_map row
                           ∧ parse_bool_int (row_get row "Is Highlight") = 1)
          (csv_rows csv)
    ∧ rows_with_images_from_cache (m_stats manifest)
      = count_rows (cache_hit image_map) (csv_rows csv)
    ∧ rows_with_images_from_csv_fallback (m_stats manifest)
      = count_rows (λ row, written image_map row ∧ ¬ cache_hit image_map row)
          (csv_rows csv).
Proof.
  intros (csv & image_map & Hcsv & Himg & Hcounted)%build_counted.
  exists csv, image_map. do 2 (split; [done|]). exact Hcounted.
Qed.

Lemma count_rows_nonneg (P : Row → Prop) `{!∀ row, Decision (P row)} rows :
  0 ≤ count_rows P rows.
Proof. unfold count_rows. lia. Qed.

Lemma count_rows_le (P Q R S : Row → Prop)
    `{!∀ row, Decision (P row), !∀ row, Decision (Q row),
      !∀ row, Decision (R row), !∀ row, Decision (S row)} rows :
  (∀ row, indicator (P row) + indicator (Q row)
          ≤ indicator (R row) + indicator (S row)) →
  count_rows P rows + count_rows Q rows ≤ count_rows R rows + count_rows S rows.
Proof.
  intros Hrow. induction rows as [|row rows IH]; [done|].
  rewrite !count_rows_cons. specialize (Hrow row). lia.
Qed.

Lemma cache_hit_not_bad image_map row : cache_hit image_map row → ¬ bad_object_id row.
Proof.
  unfold cache_hit, bad_object_id. intros [x Hx] Hbad. by rewrite Hbad in Hx.
Qed.

Lemma written_not_bad image_map row : written image_map row → ¬ bad_object_id row.
Proof.
  unfold written, bad_object_id. intros [o Ho] Hbad.
  apply accepted_id_Some in Ho. congruence.
Qed.

Lemma count_rows_False rows : count_rows (λ _, False) rows = 0.
Proof.
  induction rows as [|row rows IH]; [done|].
  rewrite count_rows_cons, IH. by rewrite indicator_False by tauto.
Qed.

(** X10. The counters of a completed build are not negative, and:
    rows_public_domain, rows_highlight and rows_with_images_from_csv_fallback
    are at most rows_with_images; every written row got its images from
    the cache or from the CSV, so rows_with_images is at most the sum of
    the two source counters; and that sum is at most rows_with_images +
    rows_skipped_no_images, the difference being the rows whose cache
    entry holds no URL. *)
Theorem build_counters_bounds env csv_path cache_db_path output_root w w' manifest :
  build_master_dbs env csv_path cache_db_path output_root w = (w', inr manifest) →
  (0 ≤ rows_scanned (m_stats manifest)
   ∧ 0 ≤ rows_with_images (m_stats manifest)
   ∧ 0 ≤ rows_skipped_no_images (m_stats manifest)
   ∧ 0 ≤ rows_skipped_bad_object_id (m_stats manifest)
   ∧ 0 ≤ rows_public_domain (m_stats manifest)
   ∧ 0 ≤ rows_highlight (m_stats manifest)
   ∧ 0 ≤ rows_with_images_from_cache (m_stats manifest)
   ∧ 0 ≤ rows_with_images_from_csv_fallback (m_stats manifest))
  ∧ rows_public_domain (m_stats manifest) ≤ rows_with_images (m_stats manifest)
  ∧ rows_highlight (m_stats manifest) ≤ rows_with_images (m_stats manifest)
  ∧ rows_with_images_from_csv_fallback (m_stats manifest)
    ≤ rows_with_images (m_stats manifest)
  ∧ rows_with_images (m_stats manifest)
    ≤ rows_with_images_from_cache (m_stats manifest)
      + rows_with_images_from_csv_fallback (m_stats manifest)
  ∧ rows_with_images_from_cache (m_stats manifest)
    + rows_with_images_from_csv_fallback (m_stats manifest)
    ≤ rows_with_images (m_stats manifest) + rows_skipped_no_images (m_stats manifest).
Proof.
  intros (csv & image_map & _ & _ & Hcounted)%build_counted.
  destruct Hcounted as (-> & -> & -> & -> & -> & -> & -> & ->).
  split.
  { repeat split; first [apply count_rows_nonneg | lia]. }
  pose proof (count_rows_False (csv_rows csv)) as Hzero.
  split; [|split; [|split; [|split]]].
  - pose proof (count_rows_le
                  (λ row, written image_map row
                          ∧ parse_bool_int (row_get row "Is Public Domain") = 1)
                  (λ _, False) (written image_map) (λ _, False) (csv_rows csv)) as Hle.
    rewrite Hzero in Hle. rewrite !Z.add_0_r in Hle. apply Hle.
    intros row. unfold indicator. repeat case_decide; first [lia | exfalso; tauto].
  - pose proof (count_rows_le
                  (λ row, written image_map row
                          ∧ parse_bool_int (row_get row "Is Highlight") = 1)
                  (λ _, False) (written image_map) (λ _, False) (csv_rows csv)) as Hle.
    rewrite Hzero in Hle. rewrite !Z.add_0_r in Hle. apply Hle.
    intros row. unfold indicator. repeat case_decide; first [lia | exfalso; tauto].
  - pose proof (count_rows_le
                  (λ row, written image_map row ∧ ¬ cache_hit image_map row)
                  (λ _, False) (written image_map) (λ _, False) (csv_rows csv)) as Hle.
    rewrite Hzero in Hle. rewrite !Z.add_0_r in Hle. apply Hle.
    intros row. unfold indicator. repeat case_decide; first [lia | exfalso; tauto].
  - pose proof (count_rows_le (written image_map) (λ _, False)
                  (cache_hit image_map)
                  (λ row, written image_map row ∧ ¬ cache_hit image_map row)
                  (csv_rows csv)) as Hle.
    rewrite Hzero in Hle. rewrite !Z.add_0_r in Hle. apply Hle.
    intros row. unfold indicator. repeat case_decide; first [lia | exfalso; tauto].
  - apply (count_rows_le (cache_hit image_map)
             (λ row, written image_map row ∧ ¬ cache_hit image_map row)
             (written image_map)
             (λ row, ¬ bad_object_id row ∧ ¬ written image_map row)).
    intros row. pose proof (cache_hit_not_bad image_map row).
    unfold indicator. repeat case_decide; first [lia | exfalso; tauto].
Qed.

(** ** Rows that are skipped, rows that raise *)

(** A row that is skipped does not raise. *)
Lemma process_row_skipped image_map row ld :
  accepted_id image_map row = None →
  ∃ ld', process_row image_map row ld = inr ld'.
Proof.
  intros Hacc. unfold process_row.
  destruct (parse_int_or_none (row_get row "Object ID")) as [o|] eqn:Hid;
    [|by eexists].
  rewrite (accepted_id_truthy _ _ _ (incr_rows_scanned (stats ld)) Hid) in Hacc.
  destruct (resolve_images image_map row o (incr_rows_scanned (stats ld)))
    as [[p ps] s]. simpl in Hacc.
  destruct (Py.truthy p), (Py.truthy ps); try done. simpl. by eexists.
Qed.

(** X11. A row that does not pass the id filter and the image filter is
    never an error, whatever else it holds: it is counted as scanned, and
    both connections (tables, committed content, statement log) and both
    tag caches are left as they were. *)
Theorem process_row_skipped_untouched image_map row ld :
  accepted_id image_map row = None →
  ∃ ld',
    process_row image_map row ld = inr ld'
    ∧ catalog_conn ld' = catalog_conn ld
    ∧ pull_conn ld' = pull_conn ld
    ∧ catalog_tag_cache ld' = catalog_tag_cache ld
    ∧ pull_tag_cache ld' = pull_tag_cache ld
    ∧ rows_scanned (stats ld') = rows_scanned (stats ld) + 1
    ∧ rows_with_images (stats ld') = rows_with_images (stats ld).
Proof.
  intros Hacc. unfold process_row.
  destruct (parse_int_or_none (row_get row "Object ID")) as [o|] eqn:Hid.
  2: { eexists. split; [done|]. by simpl. }
  rewrite (accepted_id_truthy _ _ _ (incr_rows_scanned (stats ld)) Hid) in Hacc.
  pose proof (resolve_images_partition image_map row o (incr_rows_scanned (stats ld)))
    as Hpart.
  destruct (resolve_images image_map row o (incr_rows_scanned (stats ld)))
    as [[p ps] s]. simpl in Hacc.
  destruct (Hpart p ps s eq_refl) as (Hs & Hw & _).
  destruct (Py.truthy p), (Py.truthy ps); try done. simpl.
  eexists. split; [done|]. simpl. by rewrite Hs, Hw.
Qed.

(** The loop over the tags of a row does not raise on a loader of the
    build, once the object is there. *)
Lemma insert_tags_total object_id row_tags ld :
  loader_inv ld →
  is_Some (objects (conn_db (catalog_conn ld)) !! object_id) →
  ∃ ld', insert_tags object_id row_tags ld = inr ld'.
Proof.
  revert ld. induction row_tags as [|tag row_tags IH]; intros ld Hinv Hobj.
  { by eexists. }
  rewrite insert_tags_cons_bind.
  assert (∃ ld1, insert_tags object_id [tag] ld = inr ld1) as [ld1 Hone].
  { simpl.
    destruct Hinv as (Hdc & Hdp & _ & _ & _ & _ & _ & _ & Hdom & _).
    destruct (get_or_create_tag_id_spec (catalog_conn ld) _ tag Hdc)
      as (cid & cconn & ccache & -> & (Hsc & _) & _ & Hcc & (_ & Hoc & _) & _).
    destruct (get_or_create_tag_id_spec (pull_conn ld) _ tag Hdp)
      as (pid & pconn & pcache & -> & (Hsp & _) & _ & Hpc & (_ & Hop & _) & _).
    simpl.
    assert (is_Some (objects (conn_db cconn) !! object_id)) as Hobjc
      by (by rewrite Hoc).
    assert (is_Some (objects (conn_db pconn) !! object_id)) as Hobjp.
    { rewrite Hop. apply elem_of_dom. rewrite <- Hdom. by apply elem_of_dom. }
    assert (cid ∈ (tags (conn_db cconn)).*1) as Hcid.
    { apply list_elem_of_fmap. exists (cid, tag). split; [done|]. by apply Hsc. }
    assert (pid ∈ (tags (conn_db pconn)).*1) as Hpid.
    { apply list_elem_of_fmap. exists (pid, tag). split; [done|]. by apply Hsp. }
    assert (∃ c, execute_insert_object_tag object_id cid cconn = inr c) as [c ->].
    { unfold execute_insert_object_tag, sql_insert_or_ignore_object_tag.
      case_decide; [by eexists|]. rewrite decide_True by done. by eexists. }
    simpl.
    assert (∃ c, execute_insert_object_tag object_id pid pconn = inr c) as [c' ->].
    { unfold execute_insert_object_tag, sql_insert_or_ignore_object_tag.
      case_decide; [by eexists|]. rewrite decide_True by done. by eexists. }
    simpl. by eexists. }
  rewrite Hone. simpl.
  destruct (insert_tags_inv _ _ _ _ Hone Hinv) as (Hinv1 & Hoc1 & _).
  apply IH; [done|]. by rewrite Hoc1.
Qed.

Lemma json_dumps_cases row :
  (restkey row ≠ [] ∧ fields row ≠ ∅ ∧ json_dumps row = inl TypeError)
  ∨ ((restkey row = [] ∨ fields row = ∅) ∧ json_dumps row = inr row).
Proof.
  unfold json_dumps.
  destruct (decide (restkey row = [])) as [Hr|Hr].
  { right. split; [by left|]. by rewrite bool_decide_eq_true_2. }
  destruct (decide (fields row = ∅)) as [Hf|Hf].
  { right. split; [by right|].
    rewrite (bool_decide_eq_true_2 (fields row = ∅)) by done.
    by rewrite andb_false_r. }
  left. do 2 (split; [done|]). by rewrite !bool_decide_eq_false_2.
Qed.

(** When a row raises, and what. *)
Lemma process_row_inl image_map row ld e :
  loader_inv ld →
  process_row image_map row ld = inl e
  ↔ ∃ object_id,
      accepted_id image_map row = Some object_id
      ∧ ((restkey row ≠ [] ∧ fields row ≠ ∅ ∧ e = TypeError)
         ∨ ((restkey row = [] ∨ fields row = ∅)
            ∧ sqlite_int_ok object_id
              && sqlite_opt_int_ok (parse_int_or_none (row_get row "Object Begin Date"))
              && sqlite_opt_int_ok (parse_int_or_none (row_get row "Object End Date"))
              = false
            ∧ e = OverflowError)).
Proof.
  intros Hinv.
  destruct (accepted_id image_map row) as [o|] eqn:Hacc.
  2: { destruct (process_row_skipped image_map row ld Hacc) as (ld' & ->).
       split; [done|]. by intros (o & ? & _). }
  apply accepted_id_Some in Hacc as Hid.
  rewrite (accepted_id_truthy _ _ _ (incr_rows_scanned (stats ld)) Hid) in Hacc.
  unfold process_row. rewrite Hid.
  destruct (resolve_images image_map row o (incr_rows_scanned (stats ld)))
    as [[p ps] s]. simpl in Hacc.
  destruct (Py.truthy p || Py.truthy ps) eqn:Himg; [|done]. clear Hacc.
  assert (negb (Py.truthy p) && negb (Py.truthy ps) = false) as ->
    by (by destruct (Py.truthy p), (Py.truthy ps)).
  destruct (json_dumps_cases row) as [(Hr & Hf & ->)|(Hjson & ->)]; simpl.
  { split.
    - intros [= <-]. exists o. split; [done|]. by left.
    - intros (o' & [= <-] & [(_ & _ & ->)|([?|?] & _)]); done. }
  destruct (sqlite_int_ok o
            && sqlite_opt_int_ok (parse_int_or_none (row_get row "Object Begin Date"))
            && sqlite_opt_int_ok (parse_int_or_none (row_get row "Object End Date")))
    eqn:Hints.
  2: { unfold execute_upsert_object. rewrite Hints. simpl. split.
       - intros [= <-]. exists o. split; [done|]. right. by rewrite Hints.
       - intros (o' & [= <-] & [(? & ? & ->)|(_ & _ & ->)]); [tauto|done]. }
  set (co := catalog_object row row _ _ p ps).
  set (po := pull_object row _ p ps).
  set (s1 := if bool_decide (parse_bool_int (row_get row "Is Highlight") ≠ 0)
             then _ else _).
  destruct (execute_upsert_object o
              (parse_int_or_none (row_get row "Object Begin Date"))
              (parse_int_or_none (row_get row "Object End Date")) co (catalog_conn ld))
    as [?|cconn] eqn:Huc;
    [unfold execute_upsert_object in Huc; by rewrite Hints in Huc|].
  destruct (execute_upsert_object o
              (parse_int_or_none (row_get row "Object Begin Date"))
              (parse_int_or_none (row_get row "Object End Date")) po (pull_conn ld))
    as [?|pconn] eqn:Hup;
    [unfold execute_upsert_object in Hup; by rewrite Hints in Hup|].
  simpl.
  assert (loader_inv {| catalog_conn := cconn; pull_conn := pconn;
                        catalog_tag_cache := catalog_tag_cache ld;
                        pull_tag_cache := pull_tag_cache ld; stats := s1 |}) as Hinv0.
  { eapply upserts_loader_inv; [exact Hinv| |exact Huc|exact Hup].
    simpl. apply parse_bool_int_bool. }
  destruct (insert_tags_total o (parse_tags (row_get row "Tags")) _ Hinv0)
    as [ld1 ->].
  { simpl. apply execute_upsert_object_inv in Huc as [-> _].
    destruct (sql_insert_or_replace_object_tables o co (conn_db (catalog_conn ld)))
      as (_ & _ & _ & _ & _ & -> & _).
    apply lookup_insert_is_Some'. by left. }
  simpl. split; [done|].
  intros (o' & [= <-] & [(? & ? & _)|(_ & Hno & _)]); [tauto|].
  by rewrite Hints in Hno.
Qed.

(** X12. On a loader of the build, a row raises exactly when it passes
    the filters and cannot be written: the error is [TypeError] when the
    row has a surplus field ([json.dumps] cannot sort the key [None] among
    the header names), and otherwise [OverflowError], its id or one of its
    two dates not fitting SQLite's 64-bit INTEGER.  The error branch of
    [get_or_create_tag_id] and a foreign key violation do not occur. *)
Theorem process_row_raises image_map row ld :
  loader_inv ld →
  match process_row image_map row ld with
  | inl e =>
      ∃ object_id,
        accepted_id image_map row = Some object_id
        ∧ ¬ row_writable row object_id
        ∧ e = (if decide (restkey row ≠ [] ∧ fields row ≠ ∅)
               then TypeError else OverflowError)
  | inr _ =>
      ∀ object_id,
        accepted_id image_map row = Some object_id → row_writable row object_id
  end.
Proof.
  intros Hinv. destruct (process_row image_map row ld) as [e|ld'] eqn:Hrow.
  - apply process_row_inl in Hrow as (o & Hacc & Hcases); [|done].
    exists o. split; [done|].
    destruct Hcases as [(Hr & Hf & ->)|(Hj & Hints & ->)].
    + rewrite decide_True by done. split; [|done]. by intros ([?|?] & _).
    + rewrite decide_False by (intros [? ?]; by destruct Hj).
      split; [|done]. intros (_ & H1 & H2 & H3). by rewrite H1, H2, H3 in Hints.
  - intros o Hacc. by eapply process_row_writable.
Qed.

(** ** The outcomes of a build *)

(** The publish step on a release that exists. *)
Lemma publish_current_release_cases faults release_dir build_id w src :
  releases w !! release_dir = Some src →
  publish_current_release faults release_dir build_id w
  = if bool_decide (Forall (λ name, src !! name = None) faults)
    then ({| releases := releases w; current := Some src;
             current_build := Some (build_id ++ [10%N]);
             trace := trace w ++ rmtree_events (current w)
                      ++ [EvCopytree release_dir; EvWriteMarker build_id] |},
          inr ())
    else ({| releases := releases w;
             current := Some (filter (λ kv, kv.1 ∉ faults) src);
             current_build := current_build w;
             trace := trace w ++ rmtree_events (current w)
                      ++ [EvCopytree release_dir] |},
          inl ShutilError).
Proof.
  intros Hsrc. unfold publish_current_release.
  assert (releases (match current w with
                    | Some _ => log [EvRmtreeCurrent] (set_current None w)
                    | None => w
                    end) !! release_dir = Some src) as ->
    by (by destruct (current w)).
  destruct (copytree faults src) as [copied complete] eqn:Hcopy.
  unfold copytree in Hcopy. injection Hcopy as <- <-.
  case_bool_decide as Hall.
  - rewrite map_filter_id.
    2: { intros name f Hname Hin. simpl in Hin.
         rewrite Forall_forall in Hall. specialize (Hall _ Hin). congruence. }
    destruct (current w); simpl; unfold log, set_current_build, set_current; simpl;
      by rewrite <- ?app_assoc, ?app_nil_r.
  - destruct (current w); simpl; unfold log, set_current; simpl;
      by rewrite <- ?app_assoc, ?app_nil_r.
Qed.

(** A completed build: the manifest it returns and the world it leaves. *)
Lemma build_master_dbs_inr_world env csv_path cache_db_path output_root w w' manifest :
  build_master_dbs env csv_path cache_db_path output_root w = (w', inr manifest) →
  ∃ csv image_map ld counts,
    csv_file env = Some csv
    ∧ load_image_map (cache_db env) = inr image_map
    ∧ try_body env image_map (strftime_build_id (clock env))
        csv_path cache_db_path csv
      = (ld, inr counts)
    ∧ manifest
      = {| m_build_id := strftime_build_id (clock env);
           m_generated_at_utc := isoformat (clock env);
           m_inputs_csv := path_str csv_path;
           m_inputs_image_cache_db := path_str cache_db_path;
           m_catalog_master_db :=
             {| out_path :=
                  path_str ((output_root
                             ++ [Py.lit "releases"; strftime_build_id (clock env)])
                            ++ [Py.lit "catalog_master.db"]);
                out_sha256 := sha256_file (CatalogFile (conn_disk (catalog_conn ld)));
                out_bytes := st_size (CatalogFile (conn_disk (catalog_conn ld)));
                out_objects := catalog_object_count counts;
                out_tags := catalog_tag_count counts |};
           m_pull_master_db :=
             {| out_path :=
                  path_str ((output_root
                             ++ [Py.lit "releases"; strftime_build_id (clock env)])
                            ++ [Py.lit "pull_master.db"]);
                out_sha256 := sha256_file (PullFile (conn_disk (pull_conn ld)));
                out_bytes := st_size (PullFile (conn_disk (pull_conn ld)));
                out_objects := pull_object_count counts;
                out_tags := pull_tag_count counts |};
           m_stats := stats ld |}
    ∧ releases w !! strftime_build_id (clock env) = None
    ∧ releases w'
      = <[strftime_build_id (clock env) :=
            release_files (conn_disk (catalog_conn ld)) (conn_disk (pull_conn ld))
              manifest]> (releases w)
    ∧ current w'
      = Some (release_files (conn_disk (catalog_conn ld)) (conn_disk (pull_conn ld))
                manifest)
    ∧ current_build w' = Some (strftime_build_id (clock env) ++ [10%N])
    ∧ trace w'
      = trace w ++ release_events (strftime_build_id (clock env))
        ++ rmtree_events (current w)
        ++ [EvCopytree (strftime_build_id (clock env));
            EvWriteMarker (strftime_build_id (clock env))].
Proof.
  unfold build_master_dbs.
  destruct (csv_file env) as [csv|]; [|done].
  destruct (load_image_map (cache_db env)) as [e|image_map]; [done|].
  destruct (releases w !! _) eqn:Hrel; [done|].
  destruct (try_body _ _ _ _ _ _) as [ld [e|counts]] eqn:Hbody; [done|].
  erewrite publish_current_release_cases; [|simpl; apply lookup_insert_eq].
  case_bool_decide; [|done].
  intros [= <- <-]. exists csv, image_map, ld, counts. simpl.
  do 5 (split; [done|]). rewrite !insert_insert_eq.
  do 3 (split; [done|]). unfold release_events. by rewrite <- !app_assoc.
Qed.

(** A completed build, from the pass over the rows to the world. *)
Lemma build_master_dbs_completed env csv_path cache_db_path output_root w w' manifest :
  build_master_dbs env csv_path cache_db_path output_root w = (w', inr manifest) →
  ∃ csv image_map ld catalog_db pull_db,
    csv_file env = Some csv
    ∧ load_image_map (cache_db env) = inr image_map
    ∧ load_rows image_map (csv_rows csv)
        (initial_loader (build_info_items (strftime_build_id (clock env))
                           (clock env) csv_path cache_db_path))
      = (ld, None)
    ∧ loader_inv ld
    ∧ catalog_db = add_indexes catalog_indexes (conn_db (catalog_conn ld))
    ∧ pull_db = finalized_pull_db (conn_db (pull_conn ld))
    ∧ manifest
      = {| m_build_id := strftime_build_id (clock env);
           m_generated_at_utc := isoformat (clock env);
           m_inputs_csv := path_str csv_path;
           m_inputs_image_cache_db := path_str cache_db_path;
           m_catalog_master_db :=
             {| out_path :=
                  path_str ((output_root
                             ++ [Py.lit "releases"; strftime_build_id (clock env)])
                            ++ [Py.lit "catalog_master.db"]);
                out_sha256 := sha256_file (CatalogFile catalog_db);
                out_bytes := st_size (CatalogFile catalog_db);
                out_objects := sql_count_objects catalog_db;
                out_tags := sql_count_tags catalog_db |};
           m_pull_master_db :=
             {| out_path :=
                  path_str ((output_root
                             ++ [Py.lit "releases"; strftime_build_id (clock env)])
                            ++ [Py.lit "pull_master.db"]);
                out_sha256 := sha256_file (PullFile pull_db);
                out_bytes := st_size (PullFile pull_db);
                out_objects := sql_count_objects pull_db;
                out_tags := sql_count_tags pull_db |};
           m_stats := stats ld |}
    ∧ releases w !! strftime_build_id (clock env) = None
    ∧ releases w'
      = <[strftime_build_id (clock env) := release_files catalog_db pull_db manifest]>
          (releases w)
    ∧ current w' = Some (release_files catalog_db pull_db manifest)
    ∧ current_build w' = Some (strftime_build_id (clock env) ++ [10%N])
    ∧ trace w'
      = trace w ++ release_events (strftime_build_id (clock env))
        ++ rmtree_events (current w)
        ++ [EvCopytree (strftime_build_id (clock env));
            EvWriteMarker (strftime_build_id (clock env))].
Proof.
  intros (csv & image_map & ld & counts & Hcsv & Himg & Hbody & Hm & Hfresh & Hrel
          & Hcur & Hmark & Htrace)%build_master_dbs_inr_world.
  apply try_body_inr in Hbody
    as (ld1 & Hload & _ & _ & Hst & Hcat & Hpull & Hcounts).
  change {| catalog_conn := _; pull_conn := _; catalog_tag_cache := ∅;
            pull_tag_cache := ∅; stats := BuildStats_init |}
    with (initial_loader (build_info_items (strftime_build_id (clock env))
                            (clock env) csv_path cache_db_path)) in Hload.
  destruct (load_rows_loader_inv _ _ _ _ Hload (initial_loader_inv _)) as (Hinv & _).
  exists csv, image_map, ld1.
  exists (add_indexes catalog_indexes (conn_db (catalog_conn ld1))),
         (finalized_pull_db (conn_db (pull_conn ld1))).
  split; [exact Hcsv|]. split; [exact Himg|]. split; [exact Hload|].
  split; [exact Hinv|]. split; [done|]. split; [done|].
  rewrite Hcat, Hpull, Hst, Hcounts in Hm. rewrite Hcat, Hpull in Hrel, Hcur.
  split; [exact Hm|]. split; [exact Hfresh|]. split; [exact Hrel|].
  split; [exact Hcur|]. split; [exact Hmark|]. exact Htrace.
Qed.

Lemma size_list_to_set_le (l : list Z) :
  (size (list_to_set (C := gset Z) l) ≤ length l)%nat.
Proof.
  induction l as [|x l IH]; [by rewrite list_to_set_nil, size_empty|].
  rewrite list_to_set_cons, size_union_alt, size_singleton. simpl.
  assert (size (list_to_set (C := gset Z) l ∖ {[x]})
          ≤ size (list_to_set (C := gset Z) l))%nat
    by (apply subseteq_size, subseteq_difference_l; done).
  lia.
Qed.

Lemma length_omap_accepted image_map rows :
  Z.of_nat (length (omap (accepted_id image_map) rows))
  = count_rows (written image_map) rows.
Proof.
  induction rows as [|row rows IH]; [done|].
  rewrite count_rows_cons, omap_cons_eq. unfold written at 1.
  destruct (accepted_id image_map row) as [o|] eqn:Hacc.
  - rewrite indicator_True by done. simpl. lia.
  - rewrite indicator_False by (by intros [? ?]). lia.
Qed.

(** X13. The manifest of a completed build records, for each database,
    the number of rows of its [objects] table and of its [tags] table as
    released.  The two databases have the same counts: the number of
    distinct ids among the written rows, which is at most rows_with_images,
    and the number of distinct tag values among their tags. *)
Theorem build_manifest_counts env csv_path cache_db_path output_root w w' manifest :
  build_master_dbs env csv_path cache_db_path output_root w = (w', inr manifest) →
  ∃ dir catalog_db pull_db csv image_map,
    releases w' !! m_build_id manifest = Some dir
    ∧ dir !! "catalog_master.db"%string = Some (CatalogFile catalog_db)
    ∧ dir !! "pull_master.db"%string = Some (PullFile pull_db)
    ∧ csv_file env = Some csv
    ∧ load_image_map (cache_db env) = inr image_map
    ∧ out_objects (m_catalog_master_db manifest) = Z.of_nat (size (objects catalog_db))
    ∧ out_objects (m_pull_master_db manifest) = Z.of_nat (size (objects pull_db))
    ∧ out_tags (m_catalog_master_db manifest) = Z.of_nat (length (tags catalog_db))
    ∧ out_tags (m_pull_master_db manifest) = Z.of_nat (length (tags pull_db))
    ∧ out_objects (m_catalog_master_db manifest)
      = out_objects (m_pull_master_db manifest)
    ∧ out_tags (m_catalog_master_db manifest) = out_tags (m_pull_master_db manifest)
    ∧ out_objects (m_catalog_master_db manifest)
      = Z.of_nat (size (accepted_ids image_map (csv_rows csv)))
    ∧ out_tags (m_catalog_master_db manifest)
      = Z.of_nat (length (first_occurrences []
                            (concat (accepted_tags image_map <$> csv_rows csv))))
    ∧ out_objects (m_catalog_master_db manifest) ≤ rows_with_images (m_stats manifest).
Proof.
  intros Hbuild.
  destruct (build_counted _ _ _ _ _ _ _ Hbuild) as (csv0 & image_map0 & Hcsv0 & Himg0
                                                     & _ & _ & Hwi & _).
  destruct (build_master_dbs_completed _ _ _ _ _ _ _ Hbuild)
    as (csv & image_map & ld & catalog_db & pull_db & Hcsv & Himg & Hload & Hinv
        & -> & -> & -> & _ & Hrel & _).
  rewrite Hcsv in Hcsv0. injection Hcsv0 as <-.
  rewrite Himg in Himg0. injection Himg0 as <-.
  destruct (load_rows_loader_inv _ _ _ _ Hload (initial_loader_inv _))
    as (_ & Hdom & Hvals & _).
  simpl in Hdom, Hvals. rewrite dom_empty_L, union_empty_l_L in Hdom.
  destruct Hinv as (_ & _ & _ & _ & Htags & _ & _ & _ & Hdoms & _).
  eexists. eexists _, _. exists csv, image_map. simpl in *.
  split; [by rewrite Hrel, lookup_insert_eq|].
  split; [done|]. split; [done|]. do 2 (split; [done|]).
  unfold sql_count_objects, sql_count_tags. simpl.
  do 4 (split; [done|]).
  assert (size (objects (conn_db (catalog_conn ld)))
          = size (objects (conn_db (pull_conn ld)))) as Hsize
    by (by rewrite <- !size_dom, Hdoms).
  split; [by rewrite Hsize|]. split; [by rewrite Htags|].
  split; [by rewrite <- Hdom, size_dom|].
  split; [by rewrite <- Hvals, length_fmap|].
  rewrite Hwi, <- length_omap_accepted, <- size_dom, Hdom.
  unfold accepted_ids.
  pose proof (size_list_to_set_le (omap (accepted_id image_map) (csv_rows csv))).
  lia.
Qed.

(** X14. A completed build leaves, under the build id, a release directory
    of exactly four files: the two databases, checksums.txt listing the
    digests of these two files as the manifest records them, and
    manifest.json holding the manifest that is returned; the sizes and
    digests in the manifest are those of the two files as released.
    [current] then is a copy of that directory, the marker holds the build
    id and a newline, and the other releases are as before. *)
Theorem build_release_published env csv_path cache_db_path output_root w w' manifest :
  build_master_dbs env csv_path cache_db_path output_root w = (w', inr manifest) →
  ∃ catalog_db pull_db,
    releases w !! m_build_id manifest = None
    ∧ releases w'
      = <[m_build_id manifest := release_files catalog_db pull_db manifest]> (releases w)
    ∧ dom (release_files catalog_db pull_db manifest)
      = {["catalog_master.db"; "pull_master.db"; "checksums.txt";
          "manifest.json"]}%string
    ∧ current w' = Some (release_files catalog_db pull_db manifest)
    ∧ current_build w' = Some (m_build_id manifest ++ [10%N])
    ∧ out_sha256 (m_catalog_master_db manifest) = sha256_file (CatalogFile catalog_db)
    ∧ out_sha256 (m_pull_master_db manifest) = sha256_file (PullFile pull_db)
    ∧ out_bytes (m_catalog_master_db manifest) = st_size (CatalogFile catalog_db)
    ∧ out_bytes (m_pull_master_db manifest) = st_size (PullFile pull_db).
Proof.
  intros (csv & image_map & ld & catalog_db & pull_db & _ & _ & _ & _
          & _ & _ & Hm & Hfresh & Hrel & Hcur & Hmark & _)%build_master_dbs_completed.
  exists catalog_db, pull_db.
  assert (m_build_id manifest = strftime_build_id (clock env)) as ->
    by (by rewrite Hm).
  do 2 (split; [done|]). split.
  { unfold release_files. rewrite !dom_insert_L, dom_singleton_L. set_solver. }
  do 2 (split; [done|]). by rewrite Hm.
Qed.

(** X15. The effects of a completed build occur in this order: the release
    directory is created; both connections are closed; checksums.txt is
    written, then manifest.json; then the publish step removes [current]
    if there is one, copies the release, and writes the marker last. *)
Theorem build_effects_in_order env csv_path cache_db_path output_root w w' manifest :
  build_master_dbs env csv_path cache_db_path output_root w = (w', inr manifest) →
  trace w'
  = trace w
    ++ [EvMkdirRelease (m_build_id manifest);
        EvClose "catalog_master.db"; EvClose "pull_master.db";
        EvWriteChecksums (m_build_id manifest);
        EvWriteManifest (m_build_id manifest)]
    ++ rmtree_events (current w)
    ++ [EvCopytree (m_build_id manifest); EvWriteMarker (m_build_id manifest)].
Proof.
  intros (csv & image_map & ld & catalog_db & pull_db & _ & _ & _ & _
          & _ & _ & Hm & _ & _ & _ & _ & Htrace)%build_master_dbs_completed.
  assert (m_build_id manifest = strftime_build_id (clock env)) as ->
    by (by rewrite Hm).
  exact Htrace.
Qed.





(** X18. The three checks before the build creates anything, in their
    order: a missing CSV, then a missing image cache, raise
    [FileNotFoundError]; then an existing release directory for the build
    id raises [FileExistsError].  In each case nothing has been created or
    changed. *)
Theorem build_preconditions env csv_path cache_db_path output_root w :
  (csv_file env = None →
   build_master_dbs env csv_path cache_db_path output_root w
   = (w, inl FileNotFoundError))
  ∧ (is_Some (csv_file env) → cache_db env = None →
     build_master_dbs env csv_path cache_db_path output_root w
     = (w, inl FileNotFoundError))
  ∧ (is_Some (csv_file env) → is_Some (cache_db env) →
     is_Some (releases w !! strftime_build_id (clock env)) →
     build_master_dbs env csv_path cache_db_path output_root w
     = (w, inl FileExistsError)).
Proof.
  unfold build_master_dbs. split; [by intros ->|]. split.
  - intros [csv ->] ->. done.
  - intros [csv ->] [image_cache ->] [dir Hdir]. simpl. by rewrite Hdir.
Qed.

(** ** Build ids *)

Lemma digits_length w n : length (digits w n) = w.
Proof.
  revert n. induction w as [|w IH]; intros n; [done|].
  simpl. rewrite length_app, IH. simpl. lia.
Qed.

Lemma digits_inj w n m :
  (n < 10 ^ N.of_nat w)%N → (m < 10 ^ N.of_nat w)%N →
  digits w n = digits w m → n = m.
Proof.
  revert n m. induction w as [|w IH]; intros n m Hn Hm.
  { simpl in *. lia. }
  rewrite Nat2N.inj_succ, N.pow_succ_r' in Hn, Hm.
  simpl. intros [Hdiv Hmod]%app_inj_tail.
  apply IH in Hdiv.
  - rewrite (N.div_mod n 10), (N.div_mod m 10) by lia. lia.
  - apply N.Div0.div_lt_upper_bound. lia.
  - apply N.Div0.div_lt_upper_bound. lia.
Qed.

Lemma strftime_build_id_inj now1 now2 :
  valid_datetime now1 → valid_datetime now2 →
  strftime_build_id now1 = strftime_build_id now2 → same_second now1 now2.
Proof.
  intros (Hy1 & Hmo1 & Hd1 & Hh1 & Hmi1 & Hs1 & _) (Hy2 & Hmo2 & Hd2 & Hh2 & Hmi2 & Hs2 & _).
  unfold strftime_build_id, same_second. intros Heq.
  apply app_inj_1 in Heq as [Hy Heq]; [|by rewrite !digits_length].
  apply app_inj_1 in Heq as [Hmo Heq]; [|by rewrite !digits_length].
  apply app_inj_1 in Heq as [Hd Heq]; [|by rewrite !digits_length].
  apply app_inj_1 in Heq as [_ Heq]; [|done].
  apply app_inj_1 in Heq as [Hh Heq]; [|by rewrite !digits_length].
  apply app_inj_1 in Heq as [Hmi Heq]; [|by rewrite !digits_length].
  apply app_inj_1 in Heq as [Hs _]; [|by rewrite !digits_length].
  apply digits_inj in Hy, Hmo, Hd, Hh, Hmi, Hs; simpl; lia.
Qed.

(** X19. Build ids have the resolution of a second: two timestamps in the
    same second give the same id whatever their microseconds, and two
    timestamps of the clock in different seconds give different ids.  So a
    build started in the second in which a completed build started finds
    the release directory of its id and fails with [FileExistsError],
    leaving everything as it is. *)
Theorem build_same_second_collides
    env1 csv_path1 cache_db_path1 output_root1 w w1 manifest
    env2 csv_path2 cache_db_path2 output_root2 :
  build_master_dbs env1 csv_path1 cache_db_path1 output_root1 w = (w1, inr manifest) →
  is_Some (csv_file env2) → is_Some (cache_db env2) →
  same_second (clock env1) (clock env2) →
  build_master_dbs env2 csv_path2 cache_db_path2 output_root2 w1
  = (w1, inl FileExistsError)
  ∧ strftime_build_id (clock env1) = strftime_build_id (clock env2)
  ∧ ∀ now1 now2,
      valid_datetime now1 → valid_datetime now2 →
      (strftime_build_id now1 = strftime_build_id now2 ↔ same_second now1 now2).
Proof.
  intros Hbuild [csv Hcsv] [image_cache Hcache] Hsame.
  assert (∀ now1 now2, same_second now1 now2 →
                       strftime_build_id now1 = strftime_build_id now2) as Hid.
  { intros now1 now2 (Hy & Hmo & Hd & Hh & Hmi & Hs).
    unfold strftime_build_id. by rewrite Hy, Hmo, Hd, Hh, Hmi, Hs. }
  split; [|split; [by apply Hid|]].
  - apply build_master_dbs_inr_world in Hbuild
      as (csv1 & image_map1 & ld1 & counts1 & _ & _ & _ & _ & _ & Hrel & _).
    unfold build_master_dbs. rewrite Hcsv, Hcache. simpl.
    rewrite <- (Hid _ _ Hsame), Hrel, lookup_insert_eq. done.
  - intros now1 now2 Hv1 Hv2. split; [by apply strftime_build_id_inj|apply Hid].
Qed.

(** ** Provenance and integrity of the released databases *)

(** X20. Both databases of a completed build carry the same five
    [build_info] rows, and these agree with the manifest and with the name
    of the release directory: the build id, the timestamp, the two input
    paths, and the script name the code records. *)
Theorem build_info_provenance env csv_path cache_db_path output_root w w' manifest :
  build_master_dbs env csv_path cache_db_path output_root w = (w', inr manifest) →
  ∃ dir catalog_db pull_db,
    releases w' !! m_build_id manifest = Some dir
    ∧ dir !! "catalog_master.db"%string = Some (CatalogFile catalog_db)
    ∧ dir !! "pull_master.db"%string = Some (PullFile pull_db)
    ∧ build_info catalog_db
      = [(Py.lit "build_id", m_build_id manifest);
         (Py.lit "generated_at_utc", m_generated_at_utc manifest);
         (Py.lit "source_csv", m_inputs_csv manifest);
         (Py.lit "source_image_cache_db", m_inputs_image_cache_db manifest);
         (Py.lit "script", Py.lit "cleaning/build_master_dbs.py")]
    ∧ build_info pull_db = build_info catalog_db
    ∧ NoDup (build_info catalog_db).*1
    ∧ m_inputs_csv manifest = path_str csv_path
    ∧ m_inputs_image_cache_db manifest = path_str cache_db_path
    ∧ m_build_id manifest = strftime_build_id (clock env)
    ∧ m_generated_at_utc manifest = isoformat (clock env).
Proof.
  intros Hbuild.
  destruct (build_tables _ _ _ _ _ _ _ Hbuild)
    as (csv & image_map & ld & dir & _ & _ & _ & _ & _ & _ & Hrel & Hc & Hp & _ & _
        & _ & _ & _ & Hbc & Hbp).
  destruct (build_master_dbs_completed _ _ _ _ _ _ _ Hbuild)
    as (_ & _ & ld' & catalog_db & pull_db & _ & _ & _ & _ & _ & _ & Hm & _).
  exists dir. eexists _, _. do 3 (split; [done|]). simpl.
  rewrite Hbc, Hbp, Hm. simpl. unfold build_info_items.
  split; [done|]. split; [done|]. split; [|done].
  by apply (bool_decide_unpack _); vm_compute.
Qed.

Lemma insert_tags_NoDup object_id row_tags ld ld' :
  insert_tags object_id row_tags ld = inr ld' →
  loader_inv ld →
  NoDup (object_tags (conn_db (catalog_conn ld))) →
  NoDup (object_tags (conn_db (catalog_conn ld'))).
Proof.
  revert ld. induction row_tags as [|tag row_tags IH]; intros ld.
  { by intros [= <-]. }
  rewrite insert_tags_cons_bind.
  destruct (insert_tags object_id [tag] ld) as [|ld1] eqn:Hone; [done|].
  simpl. intros Hrun Hinv Hnd.
  destruct (insert_tags_one _ _ _ _ Hone Hinv) as (Hinv1 & tag_id & more & _ & _ & Hot).
  apply (IH ld1 Hrun Hinv1). rewrite Hot. case_decide as Hin; [done|].
  apply NoDup_app. split; [done|]. split; [|apply NoDup_singleton].
  by intros ot Hot' ->%list_elem_of_singleton.
Qed.

Lemma process_row_NoDup image_map row ld ld' :
  process_row image_map row ld = inr ld' →
  loader_inv ld →
  NoDup (object_tags (conn_db (catalog_conn ld))) →
  NoDup (object_tags (conn_db (catalog_conn ld'))).
Proof.
  intros Hrow Hinv Hnd.
  apply process_row_inv in Hrow
    as [(_ & _ & ->)|[(o & p & ps & s & _ & _ & _ & ->)
                     |(o & p & ps & s & cc & pc & ld1 & _ & _ & Huc & Hup & Hins & ->)]];
    [done|done|].
  assert (loader_inv
            {| catalog_conn := cc; pull_conn := pc;
               catalog_tag_cache := catalog_tag_cache ld;
               pull_tag_cache := pull_tag_cache ld;
               stats := flag_counters
                          (parse_bool_int (row_get row "Is Public Domain"))
                          (parse_bool_int (row_get row "Is Highlight")) s |})
    as Hinv0.
  { eapply upserts_loader_inv; [exact Hinv| |exact Huc|exact Hup].
    simpl. apply parse_bool_int_bool. }
  destruct (commit_batch_db (set_stats (incr_rows_with_images (stats ld1)) ld1))
    as (-> & _).
  simpl. apply (insert_tags_NoDup _ _ _ _ Hins Hinv0). simpl.
  apply execute_upsert_object_inv in Huc as [-> _].
  match goal with
  | |- context [sql_insert_or_replace_object o ?co ?db] =>
      destruct (sql_insert_or_replace_object_tables o co db)
        as (_ & _ & _ & _ & _ & _ & ->)
  end.
  case_decide; [by apply NoDup_filter|done].
Qed.

Lemma load_rows_NoDup image_map rows ld ld' :
  load_rows image_map rows ld = (ld', None) →
  loader_inv ld →
  NoDup (object_tags (conn_db (catalog_conn ld))) →
  NoDup (object_tags (conn_db (catalog_conn ld'))).
Proof.
  revert ld. induction rows as [|row rows IH]; intros ld; simpl.
  { by intros [= <-]. }
  destruct (process_row image_map row ld) as [e|ld1] eqn:Hrow; [done|].
  intros Hload Hinv Hnd. apply (IH ld1 Hload).
  - by apply process_row_loader_inv in Hrow as (? & _).
  - by eapply process_row_NoDup.
Qed.

(** X21. In the release of a completed build the two databases hold the
    same [object_tags] rows; no pair occurs twice; and every pair
    references an object that exists in both [objects] tables and a tag
    that exists in [tags]. *)
Theorem build_associations_intact env csv_path cache_db_path output_root w w' manifest :
  build_master_dbs env csv_path cache_db_path output_root w = (w', inr manifest) →
  ∃ dir catalog_db pull_db,
    releases w' !! m_build_id manifest = Some dir
    ∧ dir !! "catalog_master.db"%string = Some (CatalogFile catalog_db)
    ∧ dir !! "pull_master.db"%string = Some (PullFile pull_db)
    ∧ object_tags catalog_db = object_tags pull_db
    ∧ NoDup (object_tags catalog_db)
    ∧ ∀ object_id tag_id,
        (object_id, tag_id) ∈ object_tags catalog_db →
        is_Some (objects catalog_db !! object_id)
        ∧ is_Some (objects pull_db !! object_id)
        ∧ tag_id ∈ (tags catalog_db).*1
        ∧ tag_id ∈ (tags pull_db).*1.
Proof.
  intros (csv & image_map & ld & dir & _ & _ & Hload & Hinv & _ & _ & Hrel & Hc & Hp & _)
           %build_tables.
  pose proof (load_rows_NoDup _ _ _ _ Hload (initial_loader_inv _)) as Hnd.
  destruct Hinv as (_ & _ & Hfc & Hfp & Htags & _ & _ & Hot & _).
  exists dir. eexists _, _. do 3 (split; [done|]). simpl.
  split; [done|]. split; [apply Hnd; simpl; apply NoDup_nil_2|].
  intros o t Hin. destruct (Hfc _ _ Hin) as [? ?].
  rewrite Hot in Hin. destruct (Hfp _ _ Hin) as [? ?]. done.
Qed.

Lemma finalized_pull_db_tag_stats (db : PullDb) tag_id :
  fk_inv db → pd_bool db →
  extra (finalized_pull_db db) !! tag_id
  = if decide (tag_id ∈ (object_tags db).*2)
    then Some {| object_count :=
                   Z.of_nat (length (filter (λ ot, ot.2 = tag_id) (object_tags db)));
                 public_domain_count :=
                   Z.of_nat (length (filter
                                       (λ ot, ot.2 = tag_id
                                              ∧ public_domain_object db ot.1)
                                       (object_tags db))) |}
    else None.
Proof.
  intros Hfk Hpd.
  change (extra (finalized_pull_db db)) with (group_by_tag_id (join_object_tags db)).
  unfold group_by_tag_id. rewrite (group_by_tag_id_fold _ ∅ tag_id).
  destruct (join_object_tags_rows db tag_id Hfk Hpd) as [Hlen Hsum].
  destruct (filter (λ row, row.1 = tag_id) (join_object_tags db)) as [|r rows] eqn:E.
  - rewrite lookup_empty. rewrite decide_False; [done|].
    intros ([o t] & -> & Hin)%list_elem_of_fmap. simpl in Hlen.
    assert ((o, t) ∈ filter (λ ot, ot.2 = t) (object_tags db)) as Hf
      by (by apply list_elem_of_filter).
    destruct (filter (λ ot, ot.2 = t) (object_tags db)); [|done].
    by apply elem_of_nil in Hf.
  - rewrite lookup_empty. simpl default. rewrite decide_True.
    + f_equal. f_equal; [by rewrite <- Hlen|]. rewrite Hsum. done.
    + destruct (filter (λ ot, ot.2 = tag_id) (object_tags db)) as [|[o t] l] eqn:E2;
        [done|].
      assert ((o, t) ∈ filter (λ ot, ot.2 = tag_id) (object_tags db)) as Hf
        by (rewrite E2; left).
      apply list_elem_of_filter in Hf as [Ht Hin]. simpl in Ht. subst t.
      apply list_elem_of_fmap. by exists (o, tag_id).
Qed.

Lemma length_filter_and {A} (P Q : A → Prop)
    `{!∀ x, Decision (P x), !∀ x, Decision (Q x)} (l : list A) :
  (length (filter (λ x, P x ∧ Q x) l) ≤ length (filter P l))%nat.
Proof.
  induction l as [|x l IH]; [done|]. rewrite !filter_cons.
  destruct (decide (P x ∧ Q x)) as [[HP HQ]|Hno].
  - rewrite decide_True by done. simpl. lia.
  - destruct (decide (P x)); simpl; lia.
Qed.

(** X22. Every row of [tag_stats] in the pull database of a completed
    build is for a tag that exists in [tags] and has at least one
    association: its object_count is at least 1, and its
    public_domain_count lies between 0 and its object_count. *)
Theorem build_tag_stats_rows env csv_path cache_db_path output_root w w' manifest :
  build_master_dbs env csv_path cache_db_path output_root w = (w', inr manifest) →
  ∃ dir pull_db,
    releases w' !! m_build_id manifest = Some dir
    ∧ dir !! "pull_master.db"%string = Some (PullFile pull_db)
    ∧ ∀ tag_id st,
        extra pull_db !! tag_id = Some st →
        tag_id ∈ (tags pull_db).*1
        ∧ tag_id ∈ (object_tags pull_db).*2
        ∧ 1 ≤ object_count st
        ∧ 0 ≤ public_domain_count st ≤ object_count st.
Proof.
  intros (csv & image_map & ld & dir & _ & _ & _ & Hinv & _ & _ & Hrel & _ & Hp & _)
    %build_tables.
  destruct Hinv as (_ & _ & _ & Hfk & _ & _ & _ & _ & _ & Hpd).
  exists dir. eexists. do 2 (split; [done|]). intros tag_id st.
  rewrite (finalized_pull_db_tag_stats _ tag_id Hfk Hpd).
  case_decide as Hin; [|done]. intros [= <-]. simpl.
  split.
  { apply list_elem_of_fmap in Hin as ([o t] & -> & Hin). by apply Hfk in Hin as [_ ?]. }
  split; [done|].
  split; [|split; [lia|]].
  2: { apply Nat2Z.inj_le.
       apply (length_filter_and (λ ot : Z * Z, ot.2 = tag_id)
                (λ ot, public_domain_object (conn_db (pull_conn ld)) ot.1)). }
  apply list_elem_of_fmap in Hin as ([o t] & -> & Hin).
  assert (∀ l : list (Z * Z), (o, t) ∈ l → 1 ≤ Z.of_nat (length l)) as Hlen.
  { intros [|? l] Hl; [by apply elem_of_nil in Hl|]. simpl length. lia. }
  apply Hlen. by apply list_elem_of_filter.
Qed.

(** X23. After two completed builds, the second on the world the first
    left, both releases exist and have different ids; the release of the
    first build is as the first build left it; [current] is the release of
    the second build and the marker names it. *)
Theorem build_twice_keeps_first_release
    env1 csv_path1 cache_db_path1 output_root1 w w1 manifest1
    env2 csv_path2 cache_db_path2 output_root2 w2 manifest2 :
  build_master_dbs env1 csv_path1 cache_db_path1 output_root1 w = (w1, inr manifest1) →
  build_master_dbs env2 csv_path2 cache_db_path2 output_root2 w1 = (w2, inr manifest2) →
  m_build_id manifest1 ≠ m_build_id manifest2
  ∧ is_Some (releases w1 !! m_build_id manifest1)
  ∧ releases w2 !! m_build_id manifest1 = releases w1 !! m_build_id manifest1
  ∧ current w1 = releases w1 !! m_build_id manifest1
  ∧ current w2 = releases w2 !! m_build_id manifest2
  ∧ current_build w2 = Some (m_build_id manifest2 ++ [10%N])
  ∧ EvRmtreeCurrent ∈ drop (length (trace w1)) (trace w2).
Proof.
  intros (csv1 & image_map1 & ld1 & c1 & p1 & _ & _ & _ & _ & _ & _ & Hm1 & _ & Hrel1
          & Hcur1 & _)%build_master_dbs_completed
         (csv2 & image_map2 & ld2 & c2 & p2 & _ & _ & _ & _ & _ & _ & Hm2 & Hfresh2
          & Hrel2 & Hcur2 & Hmark2 & Htrace2)%build_master_dbs_completed.
  assert (m_build_id manifest1 = strftime_build_id (clock env1)) as ->
    by (by rewrite Hm1).
  assert (m_build_id manifest2 = strftime_build_id (clock env2)) as ->
    by (by rewrite Hm2).
  assert (releases w1 !! strftime_build_id (clock env1)
          = Some (release_files c1 p1 manifest1)) as Hfirst
    by (by rewrite Hrel1, lookup_insert_eq).
  assert (strftime_build_id (clock env1) ≠ strftime_build_id (clock env2)) as Hne
    by congruence.
  split; [done|]. split; [by rewrite Hfirst|].
  split; [by rewrite Hrel2, lookup_insert_ne|].
  split; [by rewrite Hfirst|].
  split; [by rewrite Hrel2, lookup_insert_eq|]. split; [done|].
  rewrite Htrace2, drop_app_length, Hcur1. simpl.
  do 5 right. left.
Qed.

(** ** The image map of a cache with one row per id *)

Lemma load_image_map_fold_other (rows : list CacheRow)
    (acc : gmap Z (pystr * pystr)) object_id :
  object_id ∉ cache_object_id <$> rows →
  foldl (λ image_map r,
           <[cache_object_id r :=
               (text (Some (cache_primary_image r)),
                text (Some (cache_primary_image_small r)))]> image_map)
    acc rows !! object_id
  = acc !! object_id.
Proof.
  revert acc. induction rows as [|r rows IH]; intros acc Hno; [done|].
  rewrite fmap_cons in Hno. apply not_elem_of_cons in Hno as [Hne Hno].
  simpl. rewrite IH by done. by apply lookup_insert_ne.
Qed.

Lemma load_image_map_fold (rows : list CacheRow) (acc : gmap Z (pystr * pystr)) r :
  NoDup (cache_object_id <$> rows) → r ∈ rows →
  foldl (λ image_map r,
           <[cache_object_id r :=
               (text (Some (cache_primary_image r)),
                text (Some (cache_primary_image_small r)))]> image_map)
    acc rows !! cache_object_id r
  = Some (Py.strip (cache_primary_image r), Py.strip (cache_primary_image_small r)).
Proof.
  revert acc. induction rows as [|r' rows IH]; intros acc Hnd Hin.
  { by apply elem_of_nil in Hin. }
  rewrite fmap_cons in Hnd. apply NoDup_cons in Hnd as [Hfresh Hnd].
  simpl. apply elem_of_cons in Hin as [->|Hin]; [|by apply IH].
  rewrite load_image_map_fold_other by done. by rewrite lookup_insert_eq.
Qed.

Lemma filter_ids_NoDup (P : CacheRow → Prop) `{!∀ r, Decision (P r)}
    (rows : list CacheRow) :
  NoDup (cache_object_id <$> rows) → NoDup (cache_object_id <$> filter P rows).
Proof.
  induction rows as [|r rows IH]; [done|].
  rewrite fmap_cons. intros [Hfresh Hnd]%NoDup_cons.
  rewrite filter_cons. case_decide; [|by apply IH].
  rewrite fmap_cons. apply NoDup_cons. split; [|by apply IH].
  intros (r1 & Heq & [_ Hin]%list_elem_of_filter)%list_elem_of_fmap.
  apply Hfresh, list_elem_of_fmap. by exists r1.
Qed.

Lemma ids_NoDup_inj (rows : list CacheRow) r r' :
  NoDup (cache_object_id <$> rows) → r ∈ rows → r' ∈ rows →
  cache_object_id r = cache_object_id r' → r = r'.
Proof.
  induction rows as [|r0 rows IH]; [by intros _ ?%elem_of_nil|].
  rewrite fmap_cons. intros [Hfresh Hnd]%NoDup_cons.
  intros [->|Hin]%elem_of_cons [->|Hin']%elem_of_cons Heq.
  - done.
  - destruct Hfresh. apply list_elem_of_fmap. by exists r'.
  - destruct Hfresh. apply list_elem_of_fmap. by exists r.
  - by apply IH.
Qed.

(** X24. For an image cache with one row per id (the table's primary
    key), the image map has an entry for an id exactly when the row of
    that id has a non-empty [primary_image] or [primary_image_small]
    column, as stored; the entry is the pair of the two columns, trimmed.
    A row whose two columns are empty (an object recorded as having no
    image) gives no entry. *)
Theorem load_image_map_entries image_cache :
  NoDup (cache_object_id <$> image_cache) →
  ∃ image_map,
    load_image_map (Some image_cache) = inr image_map
    ∧ (∀ r, r ∈ image_cache →
         image_map !! cache_object_id r
         = if decide (cache_primary_image r ≠ [] ∨ cache_primary_image_small r ≠ [])
           then Some (Py.strip (cache_primary_image r),
                      Py.strip (cache_primary_image_small r))
           else None)
    ∧ (∀ object_id, object_id ∉ cache_object_id <$> image_cache →
         image_map !! object_id = None).
Proof.
  intros Hnd. eexists. split; [done|]. split.
  - intros r Hin. case_decide as Hsel.
    + apply load_image_map_fold; [by apply filter_ids_NoDup|].
      by apply list_elem_of_filter.
    + rewrite load_image_map_fold_other; [done|].
      intros (r' & Heq & [Hsel' Hin']%list_elem_of_filter)%list_elem_of_fmap.
      by rewrite (ids_NoDup_inj _ r r' Hnd Hin Hin' Heq) in Hsel.
  - intros object_id Hno. rewrite load_image_map_fold_other; [done|].
    intros (r & Heq & [_ Hin]%list_elem_of_filter)%list_elem_of_fmap.
    apply Hno, list_elem_of_fmap. by exists r.
Qed.

(** ** The tag statistics as a function of the input *)

Lemma length_filter_by_tag (l : list (Z * Z)) tag_id (Q : Z → Prop)
    `{!∀ o, Decision (Q o)} (S : gset Z) :
  NoDup l →
  (∀ o, o ∈ S ↔ (o, tag_id) ∈ l ∧ Q o) →
  length (filter (λ ot, ot.2 = tag_id ∧ Q ot.1) l) = size S.
Proof.
  intros Hnd HS.
  assert (S = list_to_set (filter (λ ot, ot.2 = tag_id ∧ Q ot.1) l).*1) as ->.
  { apply set_eq. intros o. rewrite HS, elem_of_list_to_set, list_elem_of_fmap.
    split.
    - intros [Hin HQ]. exists (o, tag_id). split; [done|].
      by apply list_elem_of_filter.
    - intros ([o' t] & -> & [[Ht HQ] Hin]%list_elem_of_filter).
      simpl in *. by subst t. }
  rewrite size_list_to_set; [by rewrite length_fmap|].
  apply NoDup_fmap_2_strong; [|by apply NoDup_filter].
  intros [o1 t1] [o2 t2] [[Ht1 _] _]%list_elem_of_filter
         [[Ht2 _] _]%list_elem_of_filter Heq.
  simpl in *. congruence.
Qed.

Lemma object_tag_values_pair {O X} (db : Db O X) object_id tag_id value :
  NoDup (tags db).*1 → NoDup (tags db).*2 → (tag_id, value) ∈ tags db →
  value ∈ object_tag_values db object_id ↔ (object_id, tag_id) ∈ object_tags db.
Proof.
  intros Hids Hvals Hin. split; [|by apply object_tag_values_elem].
  unfold object_tag_values.
  intros ([o t] & [Ho Hot]%list_elem_of_filter & Hv)%list_elem_of_omap.
  simpl in Ho, Hv. subst o.
  destruct (filter (λ t0, t0.1 = t) (tags db)) as [|[t' v'] rest] eqn:E; [done|].
  simpl in Hv. injection Hv as ->.
  assert ((t', value) ∈ filter (λ t0, t0.1 = t) (tags db)) as Hf by (rewrite E; left).
  apply list_elem_of_filter in Hf as [Ht' Hin']. simpl in Ht'. subst t'.
  assert (filter (λ t0, t0.2 = value) (tags db) = [(tag_id, value)]) as Hrow
    by (by apply unique_row).
  assert ((t, value) ∈ filter (λ t0, t0.2 = value) (tags db)) as Hf'
    by (by apply list_elem_of_filter).
  rewrite Hrow in Hf'. apply list_elem_of_singleton in Hf'. congruence.
Qed.

(** X25. The [tag_stats] row of a tag, in terms of the input: its
    object_count is the number of objects (distinct ids written) whose
    last written row carries the tag's value among its normalized tags,
    and its public_domain_count the number of those whose last written row
    has the public domain flag; a tag that no object carries any more has
    no row. *)
Theorem build_tag_stats_of_objects env csv_path cache_db_path output_root
    w w' manifest :
  build_master_dbs env csv_path cache_db_path output_root w = (w', inr manifest) →
  ∃ dir pull_db csv image_map,
    releases w' !! m_build_id manifest = Some dir
    ∧ dir !! "pull_master.db"%string = Some (PullFile pull_db)
    ∧ csv_file env = Some csv
    ∧ load_image_map (cache_db env) = inr image_map
    ∧ ∀ tag_id value,
        (tag_id, value) ∈ tags pull_db →
        extra pull_db !! tag_id
        = if decide (size (filter (object_has_tag image_map (csv_rows csv) value)
                             (accepted_ids image_map (csv_rows csv))) = 0%nat)
          then None
          else Some {| object_count :=
                         Z.of_nat (size (filter
                                           (object_has_tag image_map (csv_rows csv) value)
                                           (accepted_ids image_map (csv_rows csv))));
                       public_domain_count :=
                         Z.of_nat (size (filter
                                           (λ o, object_has_tag image_map (csv_rows csv)
                                                   value o
                                                 ∧ object_in_public_domain image_map
                                                     (csv_rows csv) o)
                                           (accepted_ids image_map (csv_rows csv)))) |}.
Proof.
  intros (csv & image_map & ld & dir & Hcsv & Himg & Hinv & Hload & Hrel & _ & Hp & Htab)
           %build_final_tables.
  pose proof (load_rows_NoDup _ _ _ _ Hload (initial_loader_inv _)) as Hnd.
  destruct (load_rows_loader_inv _ _ _ _ Hload (initial_loader_inv _))
    as (_ & Hdom & _).
  simpl in Hdom. rewrite dom_empty_L, union_empty_l_L in Hdom.
  destruct Hinv as ((_ & Hvals & Hids & _) & _ & _ & Hfk & Htags & _ & _ & Hot
                    & Hdoms & Hpd).
  exists dir. eexists. exists csv, image_map. do 4 (split; [done|]).
  intros tag_id value Hin. simpl in Hin. rewrite <- Htags in Hin.
  rewrite (finalized_pull_db_tag_stats _ tag_id Hfk Hpd). rewrite <- Hot.
  specialize (Hnd NoDup_nil_2).
  assert (NoDup (tags (conn_db (catalog_conn ld))).*1) as Hids'
    by (rewrite Hids; apply NoDup_seqZ).
  assert (∀ o, (o, tag_id) ∈ object_tags (conn_db (catalog_conn ld))
               ↔ object_has_tag image_map (csv_rows csv) value o) as Hpair.
  { intros o. unfold object_has_tag. destruct (Htab o) as (_ & _ & <-).
    symmetry. by apply object_tag_values_pair. }
  assert (∀ o, object_has_tag image_map (csv_rows csv) value o →
               o ∈ accepted_ids image_map (csv_rows csv)) as Hacc.
  { intros o Ho. rewrite <- Hdom. apply elem_of_dom.
    destruct (Htab o) as (-> & _). unfold object_has_tag in Ho.
    destruct (last_accepted image_map (csv_rows csv) o); [by eexists|].
    by apply elem_of_nil in Ho. }
  assert (∀ o, public_domain_object (conn_db (pull_conn ld)) o
               ↔ object_in_public_domain image_map (csv_rows csv) o) as Hpdo.
  { intros o. unfold public_domain_object, object_in_public_domain.
    destruct (Htab o) as (_ & -> & _).
    by destruct (last_accepted image_map (csv_rows csv) o). }
  set (S1 := filter (object_has_tag image_map (csv_rows csv) value)
               (accepted_ids image_map (csv_rows csv))).
  set (S2 := filter (λ o, object_has_tag image_map (csv_rows csv) value o
                          ∧ object_in_public_domain image_map (csv_rows csv) o)
               (accepted_ids image_map (csv_rows csv))).
  assert (length (filter (λ ot : Z * Z, ot.2 = tag_id)
                    (object_tags (conn_db (catalog_conn ld)))) = size S1) as Hlen1.
  { rewrite <- (length_filter_by_tag _ tag_id (λ _, True) S1 Hnd).
    - f_equal. apply list_filter_iff. intros ot. tauto.
    - intros o. unfold S1. rewrite elem_of_filter, Hpair. split; [tauto|].
      intros [Ho _]. split; [done|]. by apply Hacc. }
  assert (length (filter (λ ot : Z * Z,
                            ot.2 = tag_id
                            ∧ public_domain_object (conn_db (pull_conn ld)) ot.1)
                    (object_tags (conn_db (catalog_conn ld)))) = size S2) as Hlen2.
  { apply (length_filter_by_tag _ tag_id
             (public_domain_object (conn_db (pull_conn ld))) S2 Hnd).
    intros o. unfold S2. rewrite elem_of_filter, Hpair, Hpdo. split; [tauto|].
    intros [Ho Hp']. split; [done|]. by apply Hacc. }
  rewrite Hlen1, Hlen2.
  destruct (decide (tag_id ∈ (object_tags (conn_db (catalog_conn ld))).*2))
    as [Hyes|Hno].
  - rewrite decide_False; [done|]. rewrite <- Hlen1.
    intros Hzero. apply length_zero_iff_nil in Hzero.
    apply list_elem_of_fmap in Hyes as ([o t] & Ht & Hyes). simpl in Ht.
    assert ((o, t) ∈ filter (λ ot : Z * Z, ot.2 = tag_id)
                       (object_tags (conn_db (catalog_conn ld)))) as Hf
      by (by apply list_elem_of_filter).
    rewrite Hzero in Hf. by apply elem_of_nil in Hf.
  - rewrite decide_True; [done|]. rewrite <- Hlen1.
    rewrite filter_none; [done|]. intros [o t] Hin' Ht. simpl in Ht. subst t.
    apply Hno, list_elem_of_fmap. by exists (o, tag_id).
Qed.

End Build.

(** * The properties on concrete inputs *)

(** The sample build: four rows, of which one has an unparseable id, one
    has no image, and two are written. *)
Lemma build_stats_partition_sample :
  ∃ w' manifest,
    build_master_dbs ascii_int ascii_lower sample_digest sample_size
      (sample_env 5 sample_rows sample_cache []) sample_csv_path
      sample_cache_path sample_root empty_world = (w', inr manifest)
    ∧ rows_scanned (m_stats manifest) = 4
    ∧ rows_scanned (m_stats manifest)
      = rows_with_images (m_stats manifest)
        + rows_skipped_no_images (m_stats manifest)
        + rows_skipped_bad_object_id (m_stats manifest).
Proof.
  assert (∃ w' manifest,
            build_master_dbs ascii_int ascii_lower sample_digest sample_size
              (sample_env 5 sample_rows sample_cache []) sample_csv_path
              sample_cache_path sample_root empty_world = (w', inr manifest)
            ∧ rows_scanned (m_stats manifest) = 4)
    as (w' & manifest & Hbuild & Hscanned)
    by (eexists _, _; split; [vm_compute; reflexivity|];
        vm_compute; reflexivity).
  exists w', manifest. split; [exact Hbuild|]. split; [exact Hscanned|].
  exact (proj1 (build_stats_partition _ _ _ _ _ _ _ _ _ _ _ Hbuild)).
Defined.

(** On the sample build the two key sets are equal, and are the ids of the
    two accepted rows. *)
Lemma build_object_ids_equal_sample :
  ∃ w' manifest dir catalog_db pull_db,
    build_master_dbs ascii_int ascii_lower sample_digest sample_size
      (sample_env 5 sample_rows sample_cache []) sample_csv_path
      sample_cache_path sample_root empty_world = (w', inr manifest)
    ∧ releases w' !! m_build_id manifest = Some dir
    ∧ dir !! "catalog_master.db"%string = Some (CatalogFile catalog_db)
    ∧ dir !! "pull_master.db"%string = Some (PullFile pull_db)
    ∧ dom (objects catalog_db) = dom (objects pull_db)
    ∧ dom (objects catalog_db)
      = accepted_ids ascii_int (list_to_map [(1, (Py.lit "http://c", []))])
          sample_rows.
Proof.
  assert (∃ w' manifest,
            build_master_dbs ascii_int ascii_lower sample_digest sample_size
              (sample_env 5 sample_rows sample_cache []) sample_csv_path
              sample_cache_path sample_root empty_world = (w', inr manifest))
    as (w' & manifest & Hbuild)
    by (eexists _, _; vm_compute; reflexivity).
  destruct (build_object_ids_equal _ _ _ _ _ _ _ _ _ _ _ Hbuild)
    as (dir & catalog_db & pull_db & csv & image_map
        & Hrel & Hc & Hp & Hdom & Hcsv & Himg & Hids).
  exists w', manifest, dir, catalog_db, pull_db.
  split; [exact Hbuild|]. split; [exact Hrel|]. split; [exact Hc|].
  split; [exact Hp|]. split; [exact Hdom|].
  injection Hcsv as <-. injection Himg as <-. exact Hids.
Defined.

(** The second of [failing_rows] raises [TypeError] after the first was
    written: the build returns it and the world is as before. *)
Lemma build_failure_cleanup_sample :
  ∃ w',
    build_master_dbs ascii_int ascii_lower sample_digest sample_size
      (sample_env 5 failing_rows sample_cache []) sample_csv_path
      sample_cache_path sample_root sample_world = (w', inl TypeError)
    ∧ releases w' = releases sample_world
    ∧ current w' = current sample_world
    ∧ current_build w' = current_build sample_world.
Proof.
  edestruct (build_failure_cleanup ascii_int ascii_lower sample_digest sample_size
               (sample_env 5 failing_rows sample_cache []) sample_csv_path
               sample_cache_path sample_root sample_world)
    as (w' & Hbuild & _ & Hrel & Hcur & Hmark & _);
    [reflexivity | vm_compute; reflexivity | reflexivity
    | vm_compute; reflexivity |].
  exists w'. split; [exact Hbuild|]. split; [exact Hrel|].
  split; [exact Hcur | exact Hmark].
Defined.

(** Two calls for "Nude" on a new dictionary. *)
Lemma get_or_create_tag_id_idempotent_sample :
  ∃ tag_id conn1 cache1,
    get_or_create_tag_id (connect init_catalog_schema "init_catalog_schema")
      ∅ (Py.lit "Nude") = inr (tag_id, conn1, cache1)
    ∧ tag_rows (Py.lit "Nude") (conn_db conn1) = [(tag_id, Py.lit "Nude")]
    ∧ get_or_create_tag_id conn1 cache1 (Py.lit "Nude")
      = inr (tag_id, conn1, cache1).
Proof.
  assert (tag_dict_inv
            (conn_db (connect init_catalog_schema "init_catalog_schema")) ∅)
    as Hinv.
  { split; [by intros ?? [=]|]. split; [apply NoDup_nil_2|]. by split. }
  destruct (get_or_create_tag_id_idempotent
              (connect init_catalog_schema "init_catalog_schema") ∅
              (Py.lit "Nude") Hinv)
    as (tag_id & conn1 & cache1 & Hcall & Hinv1 & Hrows & Hlater).
  exists tag_id, conn1, cache1. split; [done|]. split; [done|].
  by destruct (Hlater conn1 cache1 Hinv1 (reflexivity cache1)) as [? _].
Defined.

(** The statistics of tag 1 ("Nude") in the sample build. *)
Lemma build_tag_stats_sample :
  ∃ w' manifest (dir : Dir) pull_db,
    build_master_dbs ascii_int ascii_lower sample_digest sample_size
      (sample_env 5 sample_rows sample_cache []) sample_csv_path
      sample_cache_path sample_root empty_world = (w', inr manifest)
    ∧ dir !! "pull_master.db"%string = Some (PullFile pull_db)
    ∧ extra pull_db !! 1
      = if decide (1 ∈ (object_tags pull_db).*2)
        then Some {| object_count :=
                       Z.of_nat (length (filter (λ ot, ot.2 = 1)
                                           (object_tags pull_db)));
                     public_domain_count :=
                       Z.of_nat (length (filter
                                           (λ ot, ot.2 = 1
                                                  ∧ public_domain_object pull_db ot.1)
                                           (object_tags pull_db))) |}
        else None.
Proof.
  assert (∃ w' manifest,
            build_master_dbs ascii_int ascii_lower sample_digest sample_size
              (sample_env 5 sample_rows sample_cache []) sample_csv_path
              sample_cache_path sample_root empty_world = (w', inr manifest))
    as (w' & manifest & Hbuild)
    by (eexists _, _; vm_compute; reflexivity).
  destruct (build_tag_stats _ _ _ _ _ _ _ _ _ _ _ Hbuild)
    as (dir & pull_db & Hrel & Hp & Hstats).
  exists w', manifest, dir, pull_db. split; [exact Hbuild|].
  split; [exact Hp|]. apply Hstats.
Defined.

(** The two [tags] tables of the sample build. *)
Lemma build_tags_tables_equal_sample :
  ∃ w' manifest (dir : Dir) catalog_db pull_db,
    build_master_dbs ascii_int ascii_lower sample_digest sample_size
      (sample_env 5 sample_rows sample_cache []) sample_csv_path
      sample_cache_path sample_root empty_world = (w', inr manifest)
    ∧ dir !! "catalog_master.db"%string = Some (CatalogFile catalog_db)
    ∧ dir !! "pull_master.db"%string = Some (PullFile pull_db)
    ∧ tags catalog_db = tags pull_db
    ∧ (tags catalog_db).*1 = seqZ 1 (Z.of_nat (length (tags catalog_db))).
Proof.
  assert (∃ w' manifest,
            build_master_dbs ascii_int ascii_lower sample_digest sample_size
              (sample_env 5 sample_rows sample_cache []) sample_csv_path
              sample_cache_path sample_root empty_world = (w', inr manifest))
    as (w' & manifest & Hbuild)
    by (eexists _, _; vm_compute; reflexivity).
  destruct (build_tags_tables_equal _ _ _ _ _ _ _ _ _ _ _ Hbuild)
    as (dir & catalog_db & pull_db & Hrel & Hc & Hp & Htags & Hids & _).
  exists w', manifest, dir, catalog_db, pull_db.
  split; [exact Hbuild|]. split; [exact Hc|]. split; [exact Hp|].
  split; [exact Htags | exact Hids].
Defined.

(** A publish without failure: removal, copy, marker. *)
Lemma publish_marker_after_copy_sample :
  ∃ w',
    publish_current_release [] (Py.lit "B") (Py.lit "B") sample_world
    = (w', inr ())
    ∧ current w' = Some sample_release
    ∧ current_build w' = Some (Py.lit "B" ++ [10%N])
    ∧ trace w' = [EvRmtreeCurrent; EvCopytree (Py.lit "B");
                  EvWriteMarker (Py.lit "B")].
Proof.
  assert (∃ w', publish_current_release [] (Py.lit "B") (Py.lit "B") sample_world
                = (w', inr ())) as [w' Hpub]
    by (eexists; vm_compute; reflexivity).
  destruct (publish_marker_after_copy _ _ _ _ _ _ Hpub)
    as (_ & Hcur & _ & Hmark & Htrace).
  exists w'. split; [exact Hpub|]. split; [exact Hcur|].
  split; [exact Hmark | exact Htrace].
Defined.

(** C4, the counterexample: the copy of "pull_master.db" fails; the publish
    step raises, and [current] is left holding only "catalog_master.db":
    neither what it was, nor the release, nor absent. *)
Lemma publish_failure_leaves_partial_copy : ¬ no_partial_copy_on_failure.
Proof.
  intros Hclaim.
  assert (∃ w',
            publish_current_release ["pull_master.db"%string]
              (Py.lit "B") (Py.lit "B") sample_world = (w', inl ShutilError)
            ∧ current w' ≫= (.!! "catalog_master.db"%string)
              = Some (CatalogFile init_catalog_schema)
            ∧ current w' ≫= (.!! "pull_master.db"%string) = None)
    as (w' & Hpub & Hcat & Hpull).
  { eexists. split; [vm_compute; reflexivity|]. split; vm_compute; reflexivity. }
  apply Hclaim in Hpub as [Hnone|[Hold|Hnew]].
  - by rewrite Hnone in Hcat.
  - rewrite Hold in Hpull. by vm_compute in Hpull.
  - rewrite Hnew in Hpull. by vm_compute in Hpull.
Qed.

(** C5, the counterexample: the same rows and cache built at 03:04:05 and
    again, on the world the first build left, at 03:04:06.  Both builds
    complete; the [build_info] rows written into each database carry the
    build id and the timestamp, so the two catalog files differ, and a
    digest that separates them differs. *)
Lemma build_twice_different_files :
  ¬ (∀ py_int py_lower sha256_file st_size,
       hashes_reproducible py_int py_lower sha256_file st_size).
Proof.
  intros Hclaim.
  specialize (Hclaim ascii_int ascii_lower sample_digest sample_size).
  assert (∃ w1 manifest1 w2 manifest2,
            build_master_dbs ascii_int ascii_lower sample_digest sample_size
              (sample_env 5 sample_rows sample_cache []) sample_csv_path
              sample_cache_path sample_root empty_world = (w1, inr manifest1)
            ∧ build_master_dbs ascii_int ascii_lower sample_digest sample_size
                (sample_env 6 sample_rows sample_cache []) sample_csv_path
                sample_cache_path sample_root w1 = (w2, inr manifest2)
            ∧ out_sha256 (m_catalog_master_db manifest1)
              ≠ out_sha256 (m_catalog_master_db manifest2))
    as (w1 & manifest1 & w2 & manifest2 & Hfirst & Hsecond & Hne).
  { eexists _, _, _, _. split; [vm_compute; reflexivity|].
    split; [vm_compute; reflexivity|]. by vm_compute. }
  destruct (Hclaim (sample_env 5 sample_rows sample_cache [])
              (sample_env 6 sample_rows sample_cache [])
              _ _ _ _ _ _ _ _ _ eq_refl eq_refl Hfirst Hsecond)
    as (_ & Heq & _).
  exact (Hne Heq).
Qed.

(** The sample rows built twice, one second apart. *)
Lemma build_reproducible_up_to_build_info_sample :
  ∃ w1 manifest1 w2 manifest2,
    build_master_dbs ascii_int ascii_lower sample_digest sample_size
      (sample_env 5 sample_rows sample_cache []) sample_csv_path
      sample_cache_path sample_root empty_world = (w1, inr manifest1)
    ∧ build_master_dbs ascii_int ascii_lower sample_digest sample_size
        (sample_env 6 sample_rows sample_cache []) sample_csv_path
        sample_cache_path sample_root w1 = (w2, inr manifest2)
    ∧ m_stats manifest1 = m_stats manifest2.
Proof.
  assert (∃ w1 manifest1 w2 manifest2,
            build_master_dbs ascii_int ascii_lower sample_digest sample_size
              (sample_env 5 sample_rows sample_cache []) sample_csv_path
              sample_cache_path sample_root empty_world = (w1, inr manifest1)
            ∧ build_master_dbs ascii_int ascii_lower sample_digest sample_size
                (sample_env 6 sample_rows sample_cache []) sample_csv_path
                sample_cache_path sample_root w1 = (w2, inr manifest2))
    as (w1 & manifest1 & w2 & manifest2 & Hfirst & Hsecond).
  { eexists _, _, _, _. split; [vm_compute; reflexivity|].
    vm_compute; reflexivity. }
  exists w1, manifest1, w2, manifest2.
  split; [exact Hfirst|]. split; [exact Hsecond|].
  exact (proj1 (build_reproducible_up_to_build_info _ _ _ _
                  (sample_env 5 sample_rows sample_cache []) _ _ _ _ _ _
                  (sample_env 6 sample_rows sample_cache []) _ _ _ _ _ _
                  eq_refl eq_refl Hfirst Hsecond)).
Defined.

(** ** C9: a cache entry of blanks *)

(** C9, at the failing input.  The loader raises when the cache is absent.
    A cache row whose primary URL is one space passes the selection (the
    column is not the empty string) and is stored trimmed: the map has the
    entry ("", "") for its id.  A CSV row with that id and an image of its
    own is then resolved from the cache, counted in
    rows_with_images_from_cache, and skipped as having no image. *)
Theorem load_image_map_blank_entry :
  load_image_map None = inl FileNotFoundError
  ∧ load_image_map (Some blank_cache) = inr {[1 := ([], [])]}
  ∧ ¬ image_map_entries_have_url
  ∧ ∃ w' manifest,
      build_master_dbs ascii_int ascii_lower sample_digest sample_size
        (sample_env 5 [sample_row "1" "Nude" "http://a" []] blank_cache [])
        sample_csv_path sample_cache_path sample_root empty_world
      = (w', inr manifest)
      ∧ rows_with_images_from_cache (m_stats manifest) = 1
      ∧ rows_with_images (m_stats manifest) = 0
      ∧ rows_skipped_no_images (m_stats manifest) = 1.
Proof.
  split; [done|]. split; [by vm_compute|]. split.
  - intros Hclaim.
    destruct (Hclaim blank_cache {[1 := ([], [])]} ltac:(by vm_compute) 1 [] []
                ltac:(by vm_compute)); done.
  - eexists _, _. split; [vm_compute; reflexivity|]. by vm_compute.
Qed.

(** ** Scenarios *)

(** " True " is 1; the empty string and an absent field are 0. *)
Example parse_bool_int_scenario :
  parse_bool_int ascii_lower (Some (Py.lit " True ")) = 1
  ∧ parse_bool_int ascii_lower (Some []) = 0
  ∧ parse_bool_int ascii_lower None = 0.
Proof. by vm_compute. Qed.

(** Two rows, ids 1 and 2; id 1 has a cache entry, id 2 has neither a cache
    entry nor an image of its own: two rows scanned, one written, one
    skipped, and each database holds the object 1 only. *)
Example two_rows_scenario :
  release_summary
    (build_master_dbs ascii_int ascii_lower sample_digest sample_size
       (sample_env 5 [sample_row "1" "" "" []; sample_row "2" "" "" []]
          sample_cache [])
       sample_csv_path sample_cache_path sample_root empty_world)
  = Some {| sum_stats :=
              {| rows_scanned := 2; rows_with_images := 1;
                 rows_skipped_no_images := 1; rows_skipped_bad_object_id := 0;
                 rows_public_domain := 1; rows_highlight := 0;
                 rows_with_images_from_cache := 1;
                 rows_with_images_from_csv_fallback := 0 |};
            sum_catalog_ids := [1]; sum_pull_ids := [1];
            sum_catalog_tags := []; sum_pull_tags := [];
            sum_catalog_object_tags := []; sum_pull_object_tags := [];
            sum_tag_stats := [];
            sum_current_has_release_files := true;
            sum_marker_is_build_id := true |}.
Proof. vm_compute. reflexivity. Qed.

(** A second row with the id of an earlier one replaces it in both
    databases, and the associations of the earlier row go with it. *)
Example duplicate_id_scenario :
  release_summary
    (build_master_dbs ascii_int ascii_lower sample_digest sample_size
       (sample_env 5 [sample_row "1" "Nude|Men" "" [];
                      sample_row "1" "Men" "" []]
          sample_cache [])
       sample_csv_path sample_cache_path sample_root empty_world)
  = Some {| sum_stats :=
              {| rows_scanned := 2; rows_with_images := 2;
                 rows_skipped_no_images := 0; rows_skipped_bad_object_id := 0;
                 rows_public_domain := 2; rows_highlight := 0;
                 rows_with_images_from_cache := 2;
                 rows_with_images_from_csv_fallback := 0 |};
            sum_catalog_ids := [1]; sum_pull_ids := [1];
            sum_catalog_tags := [(1, Py.lit "Men"); (2, Py.lit "Nude")];
            sum_pull_tags := [(1, Py.lit "Men"); (2, Py.lit "Nude")];
            sum_catalog_object_tags := [(1, 1)];
            sum_pull_object_tags := [(1, 1)];
            sum_tag_stats :=
              [(1, {| object_count := 1; public_domain_count := 1 |})];
            sum_current_has_release_files := true;
            sum_marker_is_build_id := true |}.
Proof. vm_compute. reflexivity. Qed.

(** * The digest of a file *)

Lemma read_spec (size : N) (content : list Byte.byte) :
  content = (Digest.read size content).1 ++ (Digest.read size content).2
  ∧ (N.of_nat (length (Digest.read size content).1) ≤ size)%N
  ∧ (size ≠ 0%N → content ≠ [] → (Digest.read size content).1 ≠ []).
Proof.
  revert size. induction content as [|b content IH]; intros size.
  { simpl. split; [done|]. split; [lia|done]. }
  simpl. destruct (N.eqb_spec size 0) as [->|Hsize].
  { simpl. split; [done|]. split; [lia|done]. }
  destruct (IH (N.pred size)) as (Heq & Hlen & _).
  destruct (Digest.read (N.pred size) content) as [chunk rest]. simpl in *.
  split; [by rewrite <- Heq|]. split; [lia|done].
Qed.

Lemma read_chunks_spec (fuel : nat) (size : N) (content : list Byte.byte) :
  size ≠ 0%N → (length content < fuel)%nat →
  concat (Digest.read_chunks fuel size content) = content
  ∧ Forall (λ chunk, chunk ≠ [] ∧ (N.of_nat (length chunk) ≤ size)%N)
      (Digest.read_chunks fuel size content).
Proof.
  intros Hsize. revert content. induction fuel as [|fuel IH]; intros content Hfuel;
    [lia|].
  simpl. destruct (read_spec size content) as (Heq & Hlen & Hne).
  destruct (Digest.read size content) as [[|b chunk] rest]; simpl in Heq, Hne.
  - destruct content; [done|]. by destruct Hne.
  - destruct (IH rest) as [Hcat Hall].
    { rewrite Heq in Hfuel. simpl in Hfuel. rewrite length_app in Hfuel.
      clear -Hfuel. lia. }
    simpl. split; [by rewrite Hcat|]. constructor; [|done]. split; [done|].
    exact Hlen.
Qed.

(** X26. [sha256_file] reads the whole file, once and in order: the chunks
    it feeds to the digest are not empty, hold at most 1 MiB each, and
    their concatenation is the content of the file.  For a digest on which
    two updates are the update with the concatenation, and the update with
    nothing changes nothing, the result is the digest of the whole
    content. *)
Theorem sha256_file_whole_content {H} (sha256 : H) (update : H → list Byte.byte → H)
    (hexdigest : H → pystr) (content : list Byte.byte) :
  concat (Digest.read_chunks (S (length content)) (1024 * 1024) content) = content
  ∧ Forall (λ chunk, chunk ≠ [] ∧ (N.of_nat (length chunk) ≤ 1024 * 1024)%N)
      (Digest.read_chunks (S (length content)) (1024 * 1024) content)
  ∧ ((∀ h a b, update (update h a) b = update h (a ++ b)) →
     (∀ h, update h [] = h) →
     Digest.sha256_file sha256 update hexdigest content
     = hexdigest (update sha256 content)).
Proof.
  destruct (read_chunks_spec (S (length content)) (1024 * 1024) content)
    as [Hcat Hall]; [done|lia|].
  split; [done|]. split; [done|]. intros Hstream Hempty.
  unfold Digest.sha256_file. f_equal.
  transitivity (update sha256
                  (concat (Digest.read_chunks (S (length content)) (1024 * 1024)
                             content)));
    [|by rewrite Hcat].
  generalize (Digest.read_chunks (S (length content)) (1024 * 1024) content), sha256.
  clear -Hstream Hempty. intros chunks.
  induction chunks as [|chunk chunks IH]; intros h; simpl; [by rewrite Hempty|].
  by rewrite IH, Hstream.
Qed.

(** A file of three bytes, for a digest that keeps what it is given. *)
Example sha256_file_three_bytes :
  Digest.sha256_file [] (λ h chunk, h ++ chunk) (fmap (M := list) Byte.to_N)
    [Byte.x61; Byte.x62; Byte.x63]
  = [97; 98; 99]%N.
Proof. vm_compute. reflexivity. Qed.

(** * The further properties on concrete inputs *)

(** Two rows with the id 1: the second is the one released. *)
Lemma build_objects_last_row_wins_sample :
  ∃ w' manifest,
    build_master_dbs ascii_int ascii_lower sample_digest sample_size
      duplicate_id_env sample_csv_path sample_cache_path sample_root
      empty_world = (w', inr manifest)
    ∧ (∃ dir catalog_db pull_db csv image_map,
        releases w' !! m_build_id manifest = Some dir
        ∧ dir !! "catalog_master.db"%string = Some (CatalogFile catalog_db)
        ∧ dir !! "pull_master.db"%string = Some (PullFile pull_db)
        ∧ csv_file duplicate_id_env = Some csv
        ∧ load_image_map (cache_db duplicate_id_env) = inr image_map
        ∧ ∀ object_id,
            objects catalog_db !! object_id
            = (λ row, row_catalog_object ascii_int ascii_lower image_map row object_id)
                <$> last_accepted ascii_int image_map (csv_rows csv) object_id
            ∧ objects pull_db !! object_id
              = (λ row, row_pull_object ascii_int ascii_lower image_map row object_id)
                  <$> last_accepted ascii_int image_map (csv_rows csv) object_id).
Proof.
  assert (∃ w' manifest,
            build_master_dbs ascii_int ascii_lower sample_digest sample_size
              duplicate_id_env sample_csv_path sample_cache_path sample_root
              empty_world = (w', inr manifest))
    as (w' & manifest & Hbuild)
    by (eexists _, _; vm_compute; reflexivity).
  exists w', manifest. split; [exact Hbuild|].
  exact (build_objects_last_row_wins _ _ _ _ _ _ _ _ _ _ _ Hbuild).
Defined.

(** The sample build: the pull rows are the catalog rows, projected. *)
Lemma build_pull_objects_projection_sample :
  ∃ w' manifest,
    build_master_dbs ascii_int ascii_lower sample_digest sample_size
      sample_build_env sample_csv_path sample_cache_path sample_root
      empty_world = (w', inr manifest)
    ∧ (∃ dir catalog_db pull_db,
        releases w' !! m_build_id manifest = Some dir
        ∧ dir !! "catalog_master.db"%string = Some (CatalogFile catalog_db)
        ∧ dir !! "pull_master.db"%string = Some (PullFile pull_db)
        ∧ objects pull_db = pull_projection <$> objects catalog_db).
Proof.
  assert (∃ w' manifest,
            build_master_dbs ascii_int ascii_lower sample_digest sample_size
              sample_build_env sample_csv_path sample_cache_path sample_root
              empty_world = (w', inr manifest))
    as (w' & manifest & Hbuild)
    by (eexists _, _; vm_compute; reflexivity).
  exists w', manifest. split; [exact Hbuild|].
  exact (build_pull_objects_projection _ _ _ _ _ _ _ _ _ _ _ Hbuild).
Defined.

(** The rows of [objects] of the sample build. *)
Lemma build_objects_well_formed_sample :
  ∃ w' manifest,
    build_master_dbs ascii_int ascii_lower sample_digest sample_size
      sample_build_env sample_csv_path sample_cache_path sample_root
      empty_world = (w', inr manifest)
    ∧ (∃ dir catalog_db,
        releases w' !! m_build_id manifest = Some dir
        ∧ dir !! "catalog_master.db"%string = Some (CatalogFile catalog_db)
        ∧ ∀ object_id c,
            objects catalog_db !! object_id = Some c →
            (c_primary_image c ≠ [] ∨ c_primary_image_small c ≠ [])
            ∧ Forall trimmed
                [c_title c; c_artist_display_name c; c_artist_display_bio c;
                 c_artist_nationality c; c_artist_begin_date c; c_artist_end_date c;
                 c_object_date c; c_department c; c_classification c;
                 c_object_name c; c_medium c; c_culture c; c_country c;
                 c_link_resource c; c_primary_image c; c_primary_image_small c]
            ∧ (c_is_public_domain c = 0 ∨ c_is_public_domain c = 1)
            ∧ (c_is_highlight c = 0 ∨ c_is_highlight c = 1)
            ∧ sqlite_int_ok object_id = true
            ∧ sqlite_opt_int_ok (c_object_begin_date c) = true
            ∧ sqlite_opt_int_ok (c_object_end_date c) = true
             ∧ (restkey (c_metadata_json c) = []
                ∨ fields (c_metadata_json c) = ∅)).
Proof.
  assert (∃ w' manifest,
            build_master_dbs ascii_int ascii_lower sample_digest sample_size
              sample_build_env sample_csv_path sample_cache_path sample_root
              empty_world = (w', inr manifest))
    as (w' & manifest & Hbuild)
    by (eexists _, _; vm_compute; reflexivity).
  exists w', manifest. split; [exact Hbuild|].
  exact (build_objects_well_formed _ _ _ _ _ _ _ _ _ _ _ Hbuild).
Defined.

(** Two rows with the id 1: the tags released are those of the second. *)
Lemma build_object_tags_of_last_row_sample :
  ∃ w' manifest,
    build_master_dbs ascii_int ascii_lower sample_digest sample_size
      duplicate_id_env sample_csv_path sample_cache_path sample_root
      empty_world = (w', inr manifest)
    ∧ (∃ dir catalog_db pull_db csv image_map,
        releases w' !! m_build_id manifest = Some dir
        ∧ dir !! "catalog_master.db"%string = Some (CatalogFile catalog_db)
        ∧ dir !! "pull_master.db"%string = Some (PullFile pull_db)
        ∧ csv_file duplicate_id_env = Some csv
        ∧ load_image_map (cache_db duplicate_id_env) = inr image_map
        ∧ ∀ object_id,
            object_tag_values catalog_db object_id
            = from_option (λ row, parse_tags (row_get row "Tags")) []
                (last_accepted ascii_int image_map (csv_rows csv) object_id)
            ∧ object_tag_values pull_db object_id
              = object_tag_values catalog_db object_id).
Proof.
  assert (∃ w' manifest,
            build_master_dbs ascii_int ascii_lower sample_digest sample_size
              duplicate_id_env sample_csv_path sample_cache_path sample_root
              empty_world = (w', inr manifest))
    as (w' & manifest & Hbuild)
    by (eexists _, _; vm_compute; reflexivity).
  exists w', manifest. split; [exact Hbuild|].
  exact (build_object_tags_of_last_row _ _ _ _ _ _ _ _ _ _ _ Hbuild).
Defined.

(** The counters of the sample build. *)
Lemma build_counters_count_classes_sample :
  ∃ w' manifest,
    build_master_dbs ascii_int ascii_lower sample_digest sample_size
      sample_build_env sample_csv_path sample_cache_path sample_root
      empty_world = (w', inr manifest)
    ∧ (∃ csv image_map,
        csv_file sample_build_env = Some csv
        ∧ load_image_map (cache_db sample_build_env) = inr image_map
        ∧ rows_scanned (m_stats manifest) = Z.of_nat (length (csv_rows csv))
        ∧ rows_skipped_bad_object_id (m_stats manifest)
          = count_rows (bad_object_id ascii_int) (csv_rows csv)
        ∧ rows_with_images (m_stats manifest)
          = count_rows (written ascii_int image_map) (csv_rows csv)
        ∧ rows_skipped_no_images (m_stats manifest)
          = count_rows (λ row, ¬ bad_object_id ascii_int row
                               ∧ ¬ written ascii_int image_map row)
              (csv_rows csv)
        ∧ rows_public_domain (m_stats manifest)
          = count_rows
              (λ row, written ascii_int image_map row
                      ∧ parse_bool_int ascii_lower (row_get row "Is Public Domain") = 1)
              (csv_rows csv)
        ∧ rows_highlight (m_stats manifest)
          = count_rows
              (λ row, written ascii_int image_map row
                      ∧ parse_bool_int ascii_lower (row_get row "Is Highlight") = 1)
              (csv_rows csv)
        ∧ rows_with_images_from_cache (m_stats manifest)
          = count_rows (cache_hit ascii_int image_map) (csv_rows csv)
        ∧ rows_with_images_from_csv_fallback (m_stats manifest)
          = count_rows (λ row, written ascii_int image_map row
                               ∧ ¬ cache_hit ascii_int image_map row)
              (csv_rows csv)).
Proof.
  assert (∃ w' manifest,
            build_master_dbs ascii_int ascii_lower sample_digest sample_size
              sample_build_env sample_csv_path sample_cache_path sample_root
              empty_world = (w', inr manifest))
    as (w' & manifest & Hbuild)
    by (eexists _, _; vm_compute; reflexivity).
  exists w', manifest. split; [exact Hbuild|].
  exact (build_counters_count_classes _ _ _ _ _ _ _ _ _ _ _ Hbuild).
Defined.

(** The bounds on the counters of the sample build. *)
Lemma build_counters_bounds_sample :
  ∃ w' manifest,
    build_master_dbs ascii_int ascii_lower sample_digest sample_size
      sample_build_env sample_csv_path sample_cache_path sample_root
      empty_world = (w', inr manifest)
    ∧ ((0 ≤ rows_scanned (m_stats manifest)
       ∧ 0 ≤ rows_with_images (m_stats manifest)
       ∧ 0 ≤ rows_skipped_no_images (m_stats manifest)
       ∧ 0 ≤ rows_skipped_bad_object_id (m_stats manifest)
       ∧ 0 ≤ rows_public_domain (m_stats manifest)
       ∧ 0 ≤ rows_highlight (m_stats manifest)
       ∧ 0 ≤ rows_with_images_from_cache (m_stats manifest)
       ∧ 0 ≤ rows_with_images_from_csv_fallback (m_stats manifest))
      ∧ rows_public_domain (m_stats manifest) ≤ rows_with_images (m_stats manifest)
      ∧ rows_highlight (m_stats manifest) ≤ rows_with_images (m_stats manifest)
      ∧ rows_with_images_from_csv_fallback (m_stats manifest)
        ≤ rows_with_images (m_stats manifest)
      ∧ rows_with_images (m_stats manifest)
        ≤ rows_with_images_from_cache (m_stats manifest)
          + rows_with_images_from_csv_fallback (m_stats manifest)
      ∧ rows_with_images_from_cache (m_stats manifest)
        + rows_with_images_from_csv_fallback (m_stats manifest)
         ≤ rows_with_images (m_stats manifest)
           + rows_skipped_no_images (m_stats manifest)).
Proof.
  assert (∃ w' manifest,
            build_master_dbs ascii_int ascii_lower sample_digest sample_size
              sample_build_env sample_csv_path sample_cache_path sample_root
              empty_world = (w', inr manifest))
    as (w' & manifest & Hbuild)
    by (eexists _, _; vm_compute; reflexivity).
  exists w', manifest. split; [exact Hbuild|].
  exact (build_counters_bounds _ _ _ _ _ _ _ _ _ _ _ Hbuild).
Defined.

(** Two rows with the id 1: one object in each database, two rows written. *)
Lemma build_manifest_counts_sample :
  ∃ w' manifest,
    build_master_dbs ascii_int ascii_lower sample_digest sample_size
      duplicate_id_env sample_csv_path sample_cache_path sample_root
      empty_world = (w', inr manifest)
    ∧ (∃ dir catalog_db pull_db csv image_map,
        releases w' !! m_build_id manifest = Some dir
        ∧ dir !! "catalog_master.db"%string = Some (CatalogFile catalog_db)
        ∧ dir !! "pull_master.db"%string = Some (PullFile pull_db)
        ∧ csv_file duplicate_id_env = Some csv
        ∧ load_image_map (cache_db duplicate_id_env) = inr image_map
        ∧ out_objects (m_catalog_master_db manifest)
          = Z.of_nat (size (objects catalog_db))
        ∧ out_objects (m_pull_master_db manifest) = Z.of_nat (size (objects pull_db))
         ∧ out_tags (m_catalog_master_db manifest)
           = Z.of_nat (length (tags catalog_db))
        ∧ out_tags (m_pull_master_db manifest) = Z.of_nat (length (tags pull_db))
        ∧ out_objects (m_catalog_master_db manifest)
          = out_objects (m_pull_master_db manifest)
         ∧ out_tags (m_catalog_master_db manifest)
           = out_tags (m_pull_master_db manifest)
        ∧ out_objects (m_catalog_master_db manifest)
          = Z.of_nat (size (accepted_ids ascii_int image_map (csv_rows csv)))
        ∧ out_tags (m_catalog_master_db manifest)
          = Z.of_nat (length (first_occurrences []
                                 (concat (accepted_tags ascii_int image_map
                                            <$> csv_rows csv))))
         ∧ out_objects (m_catalog_master_db manifest)
           ≤ rows_with_images (m_stats manifest)).
Proof.
  assert (∃ w' manifest,
            build_master_dbs ascii_int ascii_lower sample_digest sample_size
              duplicate_id_env sample_csv_path sample_cache_path sample_root
              empty_world = (w', inr manifest))
    as (w' & manifest & Hbuild)
    by (eexists _, _; vm_compute; reflexivity).
  exists w', manifest. split; [exact Hbuild|].
  exact (build_manifest_counts _ _ _ _ _ _ _ _ _ _ _ Hbuild).
Defined.

(** The sample build on a world with an older release. *)
Lemma build_release_published_sample :
  ∃ w' manifest,
    build_master_dbs ascii_int ascii_lower sample_digest sample_size
      sample_build_env sample_csv_path sample_cache_path sample_root
      sample_world = (w', inr manifest)
    ∧ (∃ catalog_db pull_db,
        releases sample_world !! m_build_id manifest = None
        ∧ releases w'
           = <[m_build_id manifest := release_files catalog_db pull_db manifest]>
               (releases sample_world)
        ∧ dom (release_files catalog_db pull_db manifest)
          = {["catalog_master.db"; "pull_master.db"; "checksums.txt";
              "manifest.json"]}%string
        ∧ current w' = Some (release_files catalog_db pull_db manifest)
        ∧ current_build w' = Some (m_build_id manifest ++ [10%N])
        ∧ out_sha256 (m_catalog_master_db manifest)
          = sample_digest (CatalogFile catalog_db)
        ∧ out_sha256 (m_pull_master_db manifest) = sample_digest (PullFile pull_db)
        ∧ out_bytes (m_catalog_master_db manifest)
          = sample_size (CatalogFile catalog_db)
        ∧ out_bytes (m_pull_master_db manifest) = sample_size (PullFile pull_db)).
Proof.
  assert (∃ w' manifest,
            build_master_dbs ascii_int ascii_lower sample_digest sample_size
              sample_build_env sample_csv_path sample_cache_path sample_root
              sample_world = (w', inr manifest))
    as (w' & manifest & Hbuild)
    by (eexists _, _; vm_compute; reflexivity).
  exists w', manifest. split; [exact Hbuild|].
  exact (build_release_published _ _ _ _ _ _ _ _ _ _ _ Hbuild).
Defined.

(** The sample build on a world in which [current] exists. *)
Lemma build_effects_in_order_sample :
  ∃ w' manifest,
    build_master_dbs ascii_int ascii_lower sample_digest sample_size
      sample_build_env sample_csv_path sample_cache_path sample_root
      sample_world = (w', inr manifest)
    ∧ (trace w'
      = trace sample_world
        ++ [EvMkdirRelease (m_build_id manifest);
            EvClose "catalog_master.db"; EvClose "pull_master.db";
            EvWriteChecksums (m_build_id manifest);
            EvWriteManifest (m_build_id manifest)]
        ++ rmtree_events (current sample_world)
        ++ [EvCopytree (m_build_id manifest); EvWriteMarker (m_build_id manifest)]).
Proof.
  assert (∃ w' manifest,
            build_master_dbs ascii_int ascii_lower sample_digest sample_size
              sample_build_env sample_csv_path sample_cache_path sample_root
              sample_world = (w', inr manifest))
    as (w' & manifest & Hbuild)
    by (eexists _, _; vm_compute; reflexivity).
  exists w', manifest. split; [exact Hbuild|].
  exact (build_effects_in_order _ _ _ _ _ _ _ _ _ _ _ Hbuild).
Defined.

(** The [build_info] rows of the sample build. *)
Lemma build_info_provenance_sample :
  ∃ w' manifest,
    build_master_dbs ascii_int ascii_lower sample_digest sample_size
      sample_build_env sample_csv_path sample_cache_path sample_root
      empty_world = (w', inr manifest)
    ∧ (∃ dir catalog_db pull_db,
        releases w' !! m_build_id manifest = Some dir
        ∧ dir !! "catalog_master.db"%string = Some (CatalogFile catalog_db)
        ∧ dir !! "pull_master.db"%string = Some (PullFile pull_db)
        ∧ build_info catalog_db
          = [(Py.lit "build_id", m_build_id manifest);
             (Py.lit "generated_at_utc", m_generated_at_utc manifest);
             (Py.lit "source_csv", m_inputs_csv manifest);
             (Py.lit "source_image_cache_db", m_inputs_image_cache_db manifest);
             (Py.lit "script", Py.lit "cleaning/build_master_dbs.py")]
        ∧ build_info pull_db = build_info catalog_db
        ∧ NoDup (build_info catalog_db).*1
        ∧ m_inputs_csv manifest = path_str sample_csv_path
        ∧ m_inputs_image_cache_db manifest = path_str sample_cache_path
        ∧ m_build_id manifest = strftime_build_id (clock sample_build_env)
        ∧ m_generated_at_utc manifest = isoformat (clock sample_build_env)).
Proof.
  assert (∃ w' manifest,
            build_master_dbs ascii_int ascii_lower sample_digest sample_size
              sample_build_env sample_csv_path sample_cache_path sample_root
              empty_world = (w', inr manifest))
    as (w' & manifest & Hbuild)
    by (eexists _, _; vm_compute; reflexivity).
  exists w', manifest. split; [exact Hbuild|].
  exact (build_info_provenance _ _ _ _ _ _ _ _ _ _ _ Hbuild).
Defined.

(** The [object_tags] rows of the sample build. *)
Lemma build_associations_intact_sample :
  ∃ w' manifest,
    build_master_dbs ascii_int ascii_lower sample_digest sample_size
      sample_build_env sample_csv_path sample_cache_path sample_root
      empty_world = (w', inr manifest)
    ∧ (∃ dir catalog_db pull_db,
        releases w' !! m_build_id manifest = Some dir
        ∧ dir !! "catalog_master.db"%string = Some (CatalogFile catalog_db)
        ∧ dir !! "pull_master.db"%string = Some (PullFile pull_db)
        ∧ object_tags catalog_db = object_tags pull_db
        ∧ NoDup (object_tags catalog_db)
        ∧ ∀ object_id tag_id,
            (object_id, tag_id) ∈ object_tags catalog_db →
            is_Some (objects catalog_db !! object_id)
            ∧ is_Some (objects pull_db !! object_id)
            ∧ tag_id ∈ (tags catalog_db).*1
            ∧ tag_id ∈ (tags pull_db).*1).
Proof.
  assert (∃ w' manifest,
            build_master_dbs ascii_int ascii_lower sample_digest sample_size
              sample_build_env sample_csv_path sample_cache_path sample_root
              empty_world = (w', inr manifest))
    as (w' & manifest & Hbuild)
    by (eexists _, _; vm_compute; reflexivity).
  exists w', manifest. split; [exact Hbuild|].
  exact (build_associations_intact _ _ _ _ _ _ _ _ _ _ _ Hbuild).
Defined.

(** The [tag_stats] rows of the sample build. *)
Lemma build_tag_stats_rows_sample :
  ∃ w' manifest,
    build_master_dbs ascii_int ascii_lower sample_digest sample_size
      sample_build_env sample_csv_path sample_cache_path sample_root
      empty_world = (w', inr manifest)
    ∧ (∃ dir pull_db,
        releases w' !! m_build_id manifest = Some dir
        ∧ dir !! "pull_master.db"%string = Some (PullFile pull_db)
        ∧ ∀ tag_id st,
            extra pull_db !! tag_id = Some st →
            tag_id ∈ (tags pull_db).*1
            ∧ tag_id ∈ (object_tags pull_db).*2
            ∧ 1 ≤ object_count st
            ∧ 0 ≤ public_domain_count st ≤ object_count st).
Proof.
  assert (∃ w' manifest,
            build_master_dbs ascii_int ascii_lower sample_digest sample_size
              sample_build_env sample_csv_path sample_cache_path sample_root
              empty_world = (w', inr manifest))
    as (w' & manifest & Hbuild)
    by (eexists _, _; vm_compute; reflexivity).
  exists w', manifest. split; [exact Hbuild|].
  exact (build_tag_stats_rows _ _ _ _ _ _ _ _ _ _ _ Hbuild).
Defined.

(** The [tag_stats] rows of the sample build, from its input. *)
Lemma build_tag_stats_of_objects_sample :
  ∃ w' manifest,
    build_master_dbs ascii_int ascii_lower sample_digest sample_size
      sample_build_env sample_csv_path sample_cache_path sample_root
      empty_world = (w', inr manifest)
    ∧ (∃ dir pull_db csv image_map,
        releases w' !! m_build_id manifest = Some dir
        ∧ dir !! "pull_master.db"%string = Some (PullFile pull_db)
        ∧ csv_file sample_build_env = Some csv
        ∧ load_image_map (cache_db sample_build_env) = inr image_map
        ∧ ∀ tag_id value,
            (tag_id, value) ∈ tags pull_db →
            extra pull_db !! tag_id
            = if decide
                   (size (filter
                            (object_has_tag ascii_int image_map (csv_rows csv) value)
                            (accepted_ids ascii_int image_map (csv_rows csv)))
                    = 0%nat)
              then None
              else Some
                     {| object_count :=
                          Z.of_nat
                            (size (filter
                                     (object_has_tag ascii_int image_map
                                        (csv_rows csv) value)
                                     (accepted_ids ascii_int image_map
                                        (csv_rows csv))));
                        public_domain_count :=
                          Z.of_nat
                            (size (filter
                                     (λ o, object_has_tag ascii_int image_map
                                             (csv_rows csv) value o
                                           ∧ object_in_public_domain ascii_int
                                               ascii_lower image_map
                                               (csv_rows csv) o)
                                     (accepted_ids ascii_int image_map
                                        (csv_rows csv)))) |}).
Proof.
  assert (∃ w' manifest,
            build_master_dbs ascii_int ascii_lower sample_digest sample_size
              sample_build_env sample_csv_path sample_cache_path sample_root
              empty_world = (w', inr manifest))
    as (w' & manifest & Hbuild)
    by (eexists _, _; vm_compute; reflexivity).
  exists w', manifest. split; [exact Hbuild|].
  exact (build_tag_stats_of_objects _ _ _ _ _ _ _ _ _ _ _ Hbuild).
Defined.

(** A row with an id and without images, on the loader a build starts
    with. *)
Lemma process_row_skipped_untouched_sample :
  accepted_id ascii_int ∅ (sample_row "2" "Nude|" "" []) = None
  ∧ ∃ ld',
      process_row ascii_int ascii_lower ∅ (sample_row "2" "Nude|" "" [])
        (initial_loader []) = inr ld'
      ∧ catalog_conn ld' = catalog_conn (initial_loader [])
      ∧ pull_conn ld' = pull_conn (initial_loader [])
      ∧ catalog_tag_cache ld' = catalog_tag_cache (initial_loader [])
      ∧ pull_tag_cache ld' = pull_tag_cache (initial_loader [])
      ∧ rows_scanned (stats ld') = rows_scanned (stats (initial_loader [])) + 1
      ∧ rows_with_images (stats ld') = rows_with_images (stats (initial_loader [])).
Proof.
  assert (accepted_id ascii_int ∅ (sample_row "2" "Nude|" "" []) = None) as Hskip
    by (vm_compute; reflexivity).
  split; [exact Hskip|].
  exact (process_row_skipped_untouched ascii_int ascii_lower ∅
           (sample_row "2" "Nude|" "" []) (initial_loader []) Hskip).
Defined.

(** A row with an image and a surplus field, on the loader a build starts
    with: it raises [TypeError]. *)
Lemma process_row_raises_sample :
  loader_inv (initial_loader [])
  ∧ process_row ascii_int ascii_lower ∅
      (sample_row "3" "Men" "http://b" [Py.lit "surplus"]) (initial_loader [])
    = inl TypeError
  ∧ ¬ row_writable ascii_int (sample_row "3" "Men" "http://b" [Py.lit "surplus"]) 3.
Proof.
  pose proof (initial_loader_inv []) as Hinv.
  assert (process_row ascii_int ascii_lower ∅
            (sample_row "3" "Men" "http://b" [Py.lit "surplus"]) (initial_loader [])
          = inl TypeError) as Hrun by (vm_compute; reflexivity).
  assert (accepted_id ascii_int ∅ (sample_row "3" "Men" "http://b" [Py.lit "surplus"])
          = Some 3) as Hacc by (vm_compute; reflexivity).
  pose proof (process_row_raises ascii_int ascii_lower ∅
                (sample_row "3" "Men" "http://b" [Py.lit "surplus"])
                (initial_loader []) Hinv) as Hcases.
  rewrite Hrun in Hcases. destruct Hcases as (object_id & Hid & Hnot & _).
  rewrite Hacc in Hid. injection Hid as <-.
  split; [exact Hinv|]. split; [exact Hrun | exact Hnot].
Defined.

(** The sample build, and a build started 999999 microseconds later. *)
Lemma build_same_second_collides_sample :
  ∃ w1 manifest,
    build_master_dbs ascii_int ascii_lower sample_digest sample_size
      sample_build_env sample_csv_path sample_cache_path sample_root
      empty_world = (w1, inr manifest)
    ∧ same_second (clock sample_build_env) (clock same_second_env)
    ∧ build_master_dbs ascii_int ascii_lower sample_digest sample_size
        same_second_env sample_csv_path sample_cache_path sample_root w1
      = (w1, inl FileExistsError).
Proof.
  assert (∃ w1 manifest,
            build_master_dbs ascii_int ascii_lower sample_digest sample_size
              sample_build_env sample_csv_path sample_cache_path sample_root
              empty_world = (w1, inr manifest))
    as (w1 & manifest & Hbuild)
    by (eexists _, _; vm_compute; reflexivity).
  assert (same_second (clock sample_build_env) (clock same_second_env)) as Hsame
    by (repeat split).
  exists w1, manifest. split; [exact Hbuild|]. split; [exact Hsame|].
  exact (proj1 (build_same_second_collides ascii_int ascii_lower sample_digest
                  sample_size sample_build_env
                  sample_csv_path sample_cache_path sample_root empty_world
                  w1 manifest same_second_env sample_csv_path sample_cache_path
                  sample_root Hbuild
                  (ex_intro _ _ eq_refl) (ex_intro _ _ eq_refl) Hsame)).
Defined.

(** The sample rows built twice, one second apart. *)
Lemma build_twice_keeps_first_release_sample :
  ∃ w1 manifest1 w2 manifest2,
    build_master_dbs ascii_int ascii_lower sample_digest sample_size
      (sample_env 5 sample_rows sample_cache []) sample_csv_path
      sample_cache_path sample_root empty_world = (w1, inr manifest1)
    ∧ build_master_dbs ascii_int ascii_lower sample_digest sample_size
        (sample_env 6 duplicate_id_rows sample_cache []) sample_csv_path
        sample_cache_path sample_root w1 = (w2, inr manifest2)
    ∧ m_build_id manifest1 ≠ m_build_id manifest2
    ∧ is_Some (releases w1 !! m_build_id manifest1)
    ∧ releases w2 !! m_build_id manifest1 = releases w1 !! m_build_id manifest1
    ∧ current w1 = releases w1 !! m_build_id manifest1
    ∧ current w2 = releases w2 !! m_build_id manifest2
    ∧ current_build w2 = Some (m_build_id manifest2 ++ [10%N])
    ∧ EvRmtreeCurrent ∈ drop (length (trace w1)) (trace w2).
Proof.
  assert (∃ w1 manifest1 w2 manifest2,
            build_master_dbs ascii_int ascii_lower sample_digest sample_size
              (sample_env 5 sample_rows sample_cache []) sample_csv_path
              sample_cache_path sample_root empty_world = (w1, inr manifest1)
            ∧ build_master_dbs ascii_int ascii_lower sample_digest sample_size
                (sample_env 6 duplicate_id_rows sample_cache []) sample_csv_path
                sample_cache_path sample_root w1 = (w2, inr manifest2))
    as (w1 & manifest1 & w2 & manifest2 & Hfirst & Hsecond).
  { eexists _, _, _, _. split; [vm_compute; reflexivity|].
    vm_compute; reflexivity. }
  exists w1, manifest1, w2, manifest2.
  split; [exact Hfirst|]. split; [exact Hsecond|].
  exact (build_twice_keeps_first_release _ _ _ _
           (sample_env 5 sample_rows sample_cache []) _ _ _ _ _ _
           (sample_env 6 duplicate_id_rows sample_cache []) _ _ _ _ _
           Hfirst Hsecond).
Defined.

(** An image cache of two rows, the second for an object without
    images. *)
Lemma load_image_map_entries_sample :
  NoDup (cache_object_id <$> two_row_cache)
  ∧ ∃ image_map,
      load_image_map (Some two_row_cache) = inr image_map
      ∧ (∀ r, r ∈ two_row_cache →
           image_map !! cache_object_id r
           = if decide (cache_primary_image r ≠ []
                        ∨ cache_primary_image_small r ≠ [])
             then Some (Py.strip (cache_primary_image r),
                        Py.strip (cache_primary_image_small r))
             else None)
      ∧ (∀ object_id, object_id ∉ cache_object_id <$> two_row_cache →
           image_map !! object_id = None).
Proof.
  assert (NoDup (cache_object_id <$> two_row_cache)) as Hkey
    by (apply (bool_decide_unpack _); vm_compute; reflexivity).
  split; [exact Hkey|].
  exact (load_image_map_entries two_row_cache Hkey).
Defined.


